(** * Sync service and download handler of the backing-image manager

    A shallow embedding of [pkg/sync/service.go] (the registry of syncing
    files and its HTTP control surface) and of the download handler with
    its idle-timeout copy pump, followed by the properties the design
    document states about them. *)

From Stdlib Require Import ZArith Lia DecimalString DecimalPos.
From Stdlib.Strings Require Import Ascii String Byte.
From stdpp Require Import base option list gmap strings fin_maps.

Local Open Scope string_scope.
Local Open Scope list_scope.
Local Open Scope Z_scope.

(** ** Go values shared by both files *)

(** Go's [error] values.  Every place of the sources that builds an error
    has its constructor; [ErrEnv] stands for an error handed in by the
    environment (transport, disk, peer). *)
Inductive error : Type :=
  | ErrFileExists (filePath : string)
  | ErrUUIDExists (filePath uuid : string)
  | Errorf (msg : string)
  | ErrSizeNotAligned (what : string) (size : Z)
  | ErrNumSyntax (fn input : string)
  | ErrNumRange (fn input : string)
  | ErrEscape (esc : string)
  | ErrStatus (url status : string)
  | ErrNonReady (state : string)
  | ErrNilSyncFile (filePath : string)
  | ErrNotFoundForSending (filePath : string)
  | ErrInvalidID (encodedID : string) (cause : error)
  | ErrCanNotFind (filePath : string)
  | ErrCtxCancelled
  | ErrEOF
  | ErrShortWrite
  | ErrEnv (msg : string)
  | ErrWrap (cause : error) (msg : string).

(** A call that returns [(T, error)]. *)
Inductive result (A : Type) : Type :=
  | Ok (a : A)
  | Err (e : error).
Arguments Ok {A} a.
Arguments Err {A} e.

Definition is_err {A} (r : result A) : bool :=
  match r with Ok _ => false | Err _ => true end.

(** ** The syncing file entity *)

Module types.

(** Modelled from the spec: package [types] is not among the sources; the
    design document fixes the sector size at 512 bytes. *)
Definition DefaultSectorSize : Z := 512.

(** Modelled from the spec: the states of a syncing file. *)
Inductive State : Type :=
  | StatePending
  | StateStarting
  | StateInProgress
  | StateReady
  | StateFailed
  | StateUnknown.

#[global] Instance State_eq_dec : EqDecision State.
Proof. solve_decision. Defined.

Definition State_string (st : State) : string :=
  match st with
  | StatePending => "pending"
  | StateStarting => "starting"
  | StateInProgress => "in-progress"
  | StateReady => "ready"
  | StateFailed => "failed"
  | StateUnknown => "unknown"
  end.

(** Modelled from the spec: names of the query parameters and the values
    they range over, as the endpoint table lists them. *)
Definition DataSourceTypeCloneParameterBackingImage : string := "backing-image".
Definition DataSourceTypeCloneParameterBackingImageUUID : string := "backing-image-uuid".
Definition DataSourceTypeCloneParameterEncryption : string := "encryption".
Definition DataSourceTypeRestoreParameterBackupURL : string := "backup-url".
Definition DataSourceTypeParameterDataEngine : string := "data-engine".
Definition EncryptionTypeEncrypt : string := "encrypt".
Definition EncryptionTypeDecrypt : string := "decrypt".
Definition EncryptionTypeIgnore : string := "ignore".
Definition SyncingFileTypeEmpty : string := "".
Definition SyncingFileTypeRaw : string := "raw".
Definition SyncingFileTypeQcow2 : string := "qcow2".

End types.

(** Modelled from the spec: the [SyncingFile] struct is declared in a file
    that is not among the sources.  The service reads [filePath], [uuid]
    and [state]; the other attributes are those of the data model. *)
Record SyncingFile : Type := mkSyncingFile {
  filePath : string;
  uuid : string;
  diskUUID : string;
  expectedChecksum : string;
  size : Z;
  state : types.State;
  message : string
}.

(** Modelled from the spec: [NewSyncingFile] is not among the sources; the
    entity is constructed in [pending] from the arguments of the register
    call. *)
Definition NewSyncingFile (filePath uuid diskUUID expectedChecksum : string)
    (size : Z) : SyncingFile :=
  {| filePath := filePath; uuid := uuid; diskUUID := diskUUID;
     expectedChecksum := expectedChecksum; size := size;
     state := types.StatePending; message := "" |}.

(** [sf.filePath] and [sf.uuid], for the places where a local variable of
    the source has the name of the field. *)
Definition sf_filePath (sf : SyncingFile) : string := filePath sf.
Definition sf_uuid (sf : SyncingFile) : string := uuid sf.

(** The local disk: the content of every file that exists. *)
Abbreviation FS := (gmap string (list byte)).

(** Modelled from the spec: [SyncingFile.Delete] is not among the
    sources; it unlinks the file on disk. *)
Definition SyncingFile_Delete (sf : SyncingFile) (fs : FS) : FS :=
  delete (sf_filePath sf) fs.

(** ** The registry *)

(** A pointer to a [SyncingFile] is the address of an object; the objects allocated so
    far are kept in [objects], addressed by position, and both maps hold
    addresses, so that the two indices can share one object. *)
Abbreviation ptr := nat (only parsing).

Record Service : Type := mkService {
  objects : list SyncingFile;
  filePathMap : gmap string ptr;
  fileUUIDMap : gmap string ptr
}.

Definition InitService : Service :=
  {| objects := []; filePathMap := ∅; fileUUIDMap := ∅ |}.

(** [func (s *Service) checkAndInitSyncFile(filePath, uuid, diskUUID,
    expectedChecksum string, size int64)], returning the new entity or an error *)
Definition checkAndInitSyncFile (s : Service)
    (filePath uuid diskUUID expectedChecksum : string) (size : Z)
    : result ptr * Service :=
  if decide (is_Some (filePathMap s !! filePath)) then
    (Err (ErrFileExists filePath), s)
  else if decide (is_Some (fileUUIDMap s !! uuid)) then
    (Err (ErrUUIDExists filePath uuid), s)
  else
    let sf := length (objects s) in
    (Ok sf,
     {| objects := objects s ++ [NewSyncingFile filePath uuid diskUUID expectedChecksum size];
        filePathMap := <[filePath := sf]> (filePathMap s);
        fileUUIDMap := <[uuid := sf]> (fileUUIDMap s) |}).

(** [func (s *Service) cleanup(filePath string, deleteFile bool)].  The
    maps never hold a nil pointer, so [sf != nil] is [filePath] being a
    key; an address is always that of an allocated object. *)
Definition cleanup (s : Service) (fs : FS) (filePath : string)
    (deleteFile : bool) : Service * FS :=
  let sf := filePathMap s !! filePath in
  let pm := delete filePath (filePathMap s) in
  match sf ≫= (λ a, objects s !! a) with
  | Some o =>
      ({| objects := objects s; filePathMap := pm;
          fileUUIDMap := delete (sf_uuid o) (fileUUIDMap s) |},
       if deleteFile then SyncingFile_Delete o fs else fs)
  | None =>
      ({| objects := objects s; filePathMap := pm;
          fileUUIDMap := fileUUIDMap s |}, fs)
  end.

(** ** Library calls the handlers rely on *)

Module strconv.

Definition digit_of (c : ascii) : option Z :=
  let n := Z.of_N (N_of_ascii c) in
  if (48 <=? n) && (n <=? 57) then Some (n - 48) else None.

Definition maxUint64 : Z := 2 ^ 64 - 1.

(** The digit loop of [strconv.ParseUint(s, 10, 64)]: [inl true] is a
    syntax error, [inl false] a range error. *)
Fixpoint parse_digits (s : string) (n : Z) : bool + Z :=
  match s with
  | EmptyString => inr n
  | String c rest =>
      match digit_of c with
      | None => inl true
      | Some d =>
          if maxUint64 / 10 + 1 <=? n then inl false
          else
            let n1 := n * 10 + d in
            if maxUint64 <? n1 then inl false else parse_digits rest n1
      end
  end.

Definition ParseUint (s : string) : bool + Z :=
  match s with
  | EmptyString => inl true
  | _ => parse_digits s 0
  end.

(** [strconv.ParseInt(s, 10, 64)], the error carrying the name [fn] of
    the calling function. *)
Definition parse_int (fn : string) (s : string) : result Z :=
  match s with
  | EmptyString => Err (ErrNumSyntax fn s)
  | String c rest =>
      let neg := Ascii.eqb c "-" in
      let body := if Ascii.eqb c "+" || neg then rest else s in
      match ParseUint body with
      | inl true => Err (ErrNumSyntax fn s)
      | inl false => Err (ErrNumRange fn s)
      | inr un =>
          let cutoff := 2 ^ 63 in
          if negb neg && (cutoff <=? un) then Err (ErrNumRange fn s)
          else if neg && (cutoff <? un) then Err (ErrNumRange fn s)
          else Ok (if neg then - un else un)
      end
  end.

Definition ParseInt : string → result Z := parse_int "ParseInt".
Definition Atoi : string → result Z := parse_int "Atoi".

End strconv.

Module url.

Definition ishex (c : ascii) : bool :=
  let n := Z.of_N (N_of_ascii c) in
  ((48 <=? n) && (n <=? 57)) || ((97 <=? n) && (n <=? 102))
  || ((65 <=? n) && (n <=? 70)).

Definition unhex (c : ascii) : N :=
  let n := N_of_ascii c in
  (if (48 <=? n) && (n <=? 57) then n - 48
   else if (97 <=? n) && (n <=? 102) then n - 97 + 10
   else if (65 <=? n) && (n <=? 70) then n - 65 + 10
   else 0)%N.

(** [url.QueryUnescape]: [%XX] becomes the byte [XX], [+] a space; a [%]
    that is not followed by two hexadecimal digits is an [EscapeError]
    holding at most three characters from the [%] on. *)
Fixpoint QueryUnescape (s : string) : result string :=
  match s with
  | EmptyString => Ok EmptyString
  | String "%" (String a (String b rest)) =>
      if ishex a && ishex b then
        match QueryUnescape rest with
        | Ok t => Ok (String (ascii_of_N (unhex a * 16 + unhex b)%N) t)
        | Err e => Err e
        end
      else Err (ErrEscape (String "%" (String a (String b EmptyString))))
  | String "%" _ => Err (ErrEscape s)
  | String c rest =>
      match QueryUnescape rest with
      | Ok t => Ok (String (if Ascii.eqb c "+" then " "%char else c) t)
      | Err e => Err e
      end
  end.

End url.

Module strings.

(** [strings.Split(s, sep)] for a separator of one character. *)
Fixpoint Split (s : string) (sep : ascii) : list string :=
  match s with
  | EmptyString => [EmptyString]
  | String c rest =>
      if Ascii.eqb c sep then EmptyString :: Split rest sep
      else
        match Split rest sep with
        | w :: ws => String c w :: ws
        | [] => [String c EmptyString]
        end
  end.

End strings.

(** ** Requests and responses *)

(** The outcome of decoding the request body as a credential map. *)
Inductive decoded : Type :=
  | DecodeOk (credential : gmap string string)
  | DecodeEOF
  | DecodeErr (e : error).

(** An [http.Request] as the handlers use it: the method, the route
    variables, the parsed query, what the body decodes to as a credential
    map, and what it yields as a multipart stream: the parts (form name
    and content) and the error [NextPart] ends with. *)
Record Request : Type := mkRequest {
  Method : string;
  Vars : gmap string string;
  Query : gmap string (list string);
  Credential : decoded;
  Multipart : result (list (string * list byte) * error)
}.

(** [url.Values.Get] *)
Definition Get_param (q : gmap string (list string)) (key : string) : string :=
  match q !! key with
  | Some (v :: _) => v
  | _ => ""
  end.

(** What a handler hands to the client, write by write. *)
Inductive chunk : Type :=
  | ErrorLine (e : error)
  | Json (sf : SyncingFile)
  | Bytes (data : list byte).

(** An [http.ResponseWriter]: the header map, the status once it is sent,
    and the body written so far. *)
Record Response : Type := mkResponse {
  Header : gmap string string;
  wroteHeader : option Z;
  Body : list chunk
}.

Definition newResponse : Response :=
  {| Header := ∅; wroteHeader := None; Body := [] |}.

Definition StatusOK : Z := 200.
Definition StatusBadRequest : Z := 400.
Definition StatusNotFound : Z := 404.
Definition StatusInternalServerError : Z := 500.

(** The status line the client receives: the first [WriteHeader], or 200
    when the handler never sent one. *)
Definition StatusCode (w : Response) : Z := default StatusOK (wroteHeader w).

Definition Header_Set (k v : string) (w : Response) : Response :=
  {| Header := <[k := v]> (Header w); wroteHeader := wroteHeader w; Body := Body w |}.

Definition WriteHeader (code : Z) (w : Response) : Response :=
  match wroteHeader w with
  | Some _ => w
  | None => {| Header := Header w; wroteHeader := Some code; Body := Body w |}
  end.

Definition Write (c : chunk) (w : Response) : Response :=
  let w := WriteHeader StatusOK w in
  {| Header := Header w; wroteHeader := wroteHeader w; Body := Body w ++ [c] |}.

(** [http.Error(w, err.Error(), code)] *)
Definition http_Error (w : Response) (e : error) (code : Z) : Response :=
  let w := {| Header := delete "Content-Length" (Header w);
              wroteHeader := wroteHeader w; Body := Body w |} in
  let w := Header_Set "Content-Type" "text/plain; charset=utf-8" w in
  let w := Header_Set "X-Content-Type-Options" "nosniff" w in
  Write (ErrorLine e) (WriteHeader code w).

(** A call that may panic. *)
Inductive outcome (A : Type) : Type :=
  | Returned (a : A)
  | Panicked (why : string).
Arguments Returned {A} a.
Arguments Panicked {A} why.

(** The background task a handler starts with [go func() { ... }()] once
    the entity is registered. *)
Inductive task : Type :=
  | GoFetch (sf : ptr) (srcFilePath : string)
  | GoDownloadFromURL (sf : ptr) (url dataEngine : string)
  | GoCloneToFileWithEncryption (sf : ptr)
      (sourceBackingImage sourceBackingImageUUID encryption : string)
      (credential : gmap string string) (dataEngine : string)
  | GoRestoreFromBackupURL (sf : ptr) (backupURL : string)
      (credential : gmap string string) (concurrentLimit : Z) (dataEngine : string)
  | GoReceive (sf : ptr) (port : Z) (fileType dataEngine : string).

Definition FormatInt (n : Z) : string := NilZero.string_of_int (Z.to_int n).

(** Modelled from the spec: the router is not among the sources; these are
    the [POST] endpoints of the control surface that register a file. *)
Inductive endpoint : Type :=
  | EpFetch
  | EpDownloadFromURL
  | EpClone
  | EpRestoreFromBackupURL
  | EpUpload
  | EpReceiveFromPeer.

(** ** The handlers of the sync service *)

Section Handlers.

(** Methods of [SyncingFile] that the handlers call and that are not
    among the sources, and the compressor of [compress/gzip]; they are
    taken as they come. *)
Variable Send : Service → ptr → string → option error.
Variable WaitForStateNonPending : Service → ptr → option error.
Variable IdleTimeoutCopyToFile : Service → ptr → list byte → string → option error.
Variable GetFileReader : SyncingFile → FS → result (list byte).
Variable gzip : list byte → list byte.

Definition mux_Vars_id (request : Request) : string :=
  default "" (Vars request !! "id").

(** [s.filePathMap[filePath]] followed by the dereference of the entry. *)
Definition lookupSyncFile (s : Service) (filePath : string) : option SyncingFile :=
  filePathMap s !! filePath ≫= (λ a, objects s !! a).

(** [func (s *Service) Get(writer, request)] *)
Definition Get (s : Service) (writer : Response) (request : Request) : Response :=
  let encodedID := mux_Vars_id request in
  match url.QueryUnescape encodedID with
  | Err e => http_Error writer (ErrInvalidID encodedID e) StatusBadRequest
  | Ok filePath =>
      match lookupSyncFile s filePath with
      | None => http_Error writer (ErrCanNotFind filePath) StatusNotFound
      | Some sf =>
          Write (Json sf) (Header_Set "Content-Type" "application/json" writer)
      end
  end.

(** [func (s *Service) doCleanup(request, deleteFile bool) error] *)
Definition doCleanup (s : Service) (fs : FS) (request : Request)
    (deleteFile : bool) : option error * Service * FS :=
  match url.QueryUnescape (mux_Vars_id request) with
  | Err e => (Some e, s, fs)
  | Ok filePath =>
      let '(s', fs') := cleanup s fs filePath deleteFile in (None, s', fs')
  end.

(** [func (s *Service) Delete(writer, request)] *)
Definition Delete (s : Service) (fs : FS) (writer : Response) (request : Request)
    : Response * Service * FS :=
  match doCleanup s fs request true with
  | (Some e, s', fs') => (http_Error writer e StatusBadRequest, s', fs')
  | (None, s', fs') => (writer, s', fs')
  end.

(** [func (s *Service) Forget(writer, request)] *)
Definition Forget (s : Service) (fs : FS) (writer : Response) (request : Request)
    : Response * Service * FS :=
  match doCleanup s fs request false with
  | (Some e, s', fs') => (http_Error writer e StatusBadRequest, s', fs')
  | (None, s', fs') => (writer, s', fs')
  end.

(** [io.Copy] from an opened file into [dst]: a read of the file may fail
    after [n] bytes ([readFault]); nothing is written for an empty
    source. *)
Definition io_Copy (content : list byte) (readFault : option (nat * error))
    : list byte * option error :=
  match readFault with
  | Some (n, e) => (take n content, Some e)
  | None => (content, None)
  end.

Definition write_bytes (data : list byte) (w : Response) : Response :=
  match data with
  | [] => w
  | _ => Write (Bytes data) w
  end.

(** [func (s *Service) DownloadToDst(writer, request)].  The deferred
    function that reports [err] runs last, after the deferred closes. *)
Definition DownloadToDst (s : Service) (fs : FS) (readFault : option (nat * error))
    (writer : Response) (request : Request) : outcome Response :=
  let report (e : error) (w : Response) :=
    Returned (http_Error w e StatusInternalServerError) in
  let forV2Creation := Get_param (Query request) "forV2Creation" in
  match url.QueryUnescape (mux_Vars_id request) with
  | Err e => report e writer
  | Ok filePath =>
      match lookupSyncFile s filePath with
      | None => report (ErrNilSyncFile filePath) writer
      | Some sf =>
          if decide (state sf ≠ types.StateReady) then
            report (ErrNonReady (types.State_string (state sf))) writer
          else if decide (forV2Creation = "true") then
            match fs !! sf_filePath sf with
            | None =>
                report (ErrWrap (ErrEnv "no such file or directory")
                          ("failed to stat the download file " ++ sf_filePath sf))
                  writer
            | Some content =>
                let w := Header_Set "Content-Length"
                           (FormatInt (Z.of_nat (length content))) writer in
                let w := Header_Set "Content-Type" "application/octet-stream" w in
                if decide (Method request = "HEAD") then Returned w
                else
                  let '(sent, ioErr) := io_Copy content readFault in
                  let w := write_bytes sent w in
                  match ioErr with
                  | Some e => report e w
                  | None => Returned w
                  end
            end
          else
            let filePathSlices := strings.Split (sf_filePath sf) "/" in
            match (length filePathSlices - 2)%nat, (2 <=? length filePathSlices)%nat with
            | i, true =>
                let backingImageNameUUID := default "" (filePathSlices !! i) in
                match GetFileReader sf fs with
                | Err e => report e writer
                | Ok content =>
                    let w := Header_Set "Content-Disposition"
                               ("attachment; filename="
                                ++ default "" (head (strings.Split backingImageNameUUID "-"))
                                ++ ".gz") writer in
                    let w := Header_Set "Content-Type" "application/octet-stream" w in
                    let '(sent, ioErr) := io_Copy content readFault in
                    let w := Write (Bytes (gzip sent)) w in
                    match ioErr with
                    | Some e => report e w
                    | None => Returned w
                    end
                end
            | _, false => Panicked "index out of range"
            end
      end
  end.

Definition failed (e : error) (s : Service) : option error * Service * option task :=
  (Some e, s, None).

(** [func (s *Service) doFetch(request) (err error)] *)
Definition doFetch (s : Service) (request : Request)
    : option error * Service * option task :=
  let queryParams := Query request in
  let srcFilePath := Get_param queryParams "src-file-path" in
  if decide (srcFilePath = "") then
    failed (Errorf "no srcFilePath for existing file fetch") s
  else
  let dstFilePath := Get_param queryParams "dst-file-path" in
  if decide (dstFilePath = "") then
    failed (Errorf "no dstFilePath for existing file fetch") s
  else
  let uuid := Get_param queryParams "uuid" in
  if decide (uuid = "") then
    failed (Errorf "no uuid for existing file fetch") s
  else
  let diskUUID := Get_param queryParams "disk-uuid" in
  if decide (diskUUID = "") then
    failed (Errorf "no diskUUID for existing file fetch") s
  else
  let expectedChecksum := Get_param queryParams "expected-checksum" in
  match strconv.ParseInt (Get_param queryParams "size") with
  | Err e => failed e s
  | Ok size =>
      if decide (Z.rem size types.DefaultSectorSize ≠ 0) then
        failed (ErrSizeNotAligned "the file size" size) s
      else
        match checkAndInitSyncFile s dstFilePath uuid diskUUID expectedChecksum size with
        | (Err e, s') => failed e s'
        | (Ok sf, s') => (None, s', Some (GoFetch sf srcFilePath))
        end
  end.

(** [func (s *Service) doDownloadFromURL(request) (err error)] *)
Definition doDownloadFromURL (s : Service) (request : Request)
    : option error * Service * option task :=
  let queryParams := Query request in
  let filePath := Get_param queryParams "file-path" in
  if decide (filePath = "") then
    failed (Errorf "no filePath for file downloading") s
  else
  let uuid := Get_param queryParams "uuid" in
  if decide (uuid = "") then
    failed (Errorf "no uuid for downloading file") s
  else
  let url := Get_param queryParams "url" in
  if decide (url = "") then
    failed (Errorf "no URL for file downloading") s
  else
  let diskUUID := Get_param queryParams "disk-uuid" in
  let expectedChecksum := Get_param queryParams "expected-checksum" in
  let dataEngine := Get_param queryParams "data-engine" in
  match checkAndInitSyncFile s filePath uuid diskUUID expectedChecksum 0 with
  | (Err e, s') => failed e s'
  | (Ok sf, s') => (None, s', Some (GoDownloadFromURL sf url dataEngine))
  end.

(** [func (s *Service) doCloneFromBackingImage(request) (err error)] *)
Definition doCloneFromBackingImage (s : Service) (request : Request)
    : option error * Service * option task :=
  let queryParams := Query request in
  let sourceBackingImage :=
    Get_param queryParams types.DataSourceTypeCloneParameterBackingImage in
  if decide (sourceBackingImage = "") then
    failed (Errorf (types.DataSourceTypeCloneParameterBackingImage ++ " is not specified")) s
  else
  let sourceBackingImageUUID :=
    Get_param queryParams types.DataSourceTypeCloneParameterBackingImageUUID in
  if decide (sourceBackingImageUUID = "") then
    failed (Errorf (types.DataSourceTypeCloneParameterBackingImageUUID ++ " is not specified")) s
  else
  let encryption := Get_param queryParams types.DataSourceTypeCloneParameterEncryption in
  if decide (encryption ≠ types.EncryptionTypeEncrypt
             ∧ encryption ≠ types.EncryptionTypeDecrypt
             ∧ encryption ≠ types.EncryptionTypeIgnore) then
    failed (Errorf (types.DataSourceTypeCloneParameterEncryption ++ " operation "
                    ++ encryption ++ " is not specified")) s
  else
  let filePath := Get_param queryParams "file-path" in
  if decide (filePath = "") then failed (Errorf "no filePath restoring file") s
  else
  let uuid := Get_param queryParams "uuid" in
  if decide (uuid = "") then failed (Errorf "no uuid for restoring file") s
  else
  let diskUUID := Get_param queryParams "disk-uuid" in
  let expectedChecksum := Get_param queryParams "expected-checksum" in
  let dataEngine := Get_param queryParams types.DataSourceTypeParameterDataEngine in
  match Credential request with
  | DecodeErr e =>
      failed (ErrWrap e "failed to get credential failed from request") s
  | decoded =>
      let credential :=
        match decoded with DecodeOk c => c | _ => ∅ end in
      match checkAndInitSyncFile s filePath uuid diskUUID expectedChecksum 0 with
      | (Err e, s') => failed e s'
      | (Ok sf, s') =>
          (None, s',
           Some (GoCloneToFileWithEncryption sf sourceBackingImage
                   sourceBackingImageUUID encryption credential dataEngine))
      end
  end.

(** [func (s *Service) doRestoreFromBackupURL(request) (err error)] *)
Definition doRestoreFromBackupURL (s : Service) (request : Request)
    : option error * Service * option task :=
  let queryParams := Query request in
  let filePath := Get_param queryParams "file-path" in
  if decide (filePath = "") then failed (Errorf "no filePath restoring file") s
  else
  let uuid := Get_param queryParams "uuid" in
  if decide (uuid = "") then failed (Errorf "no uuid for restoring file") s
  else
  let backupURL := Get_param queryParams types.DataSourceTypeRestoreParameterBackupURL in
  if decide (backupURL = "") then
    failed (Errorf ("no " ++ types.DataSourceTypeRestoreParameterBackupURL
                    ++ " for restoring file")) s
  else
  let diskUUID := Get_param queryParams "disk-uuid" in
  let expectedChecksum := Get_param queryParams "expected-checksum" in
  match strconv.Atoi (Get_param queryParams "concurrent-limit") with
  | Err e =>
      failed (ErrWrap e "failed to get valid concurrentLimit for restoring file") s
  | Ok concurrentLimit =>
      match Credential request with
      | DecodeErr _ => failed (Errorf "get credential failed from request") s
      | decoded =>
          let credential :=
            match decoded with DecodeOk c => c | _ => ∅ end in
          let dataEngine := Get_param queryParams "data-engine" in
          match checkAndInitSyncFile s filePath uuid diskUUID expectedChecksum 0 with
          | (Err e, s') => failed e s'
          | (Ok sf, s') =>
              (None, s',
               Some (GoRestoreFromBackupURL sf backupURL credential
                       concurrentLimit dataEngine))
          end
      end
  end.

(** The loop over [reader.NextPart()] of the upload: parts of another
    form name are skipped, and the end of the parts is the error
    [NextPart] returns there. *)
Fixpoint nextChunkPart (parts : list (string * list byte)) (final : error)
    : result (list byte) :=
  match parts with
  | [] => Err final
  | (formName, data) :: rest =>
      if decide (formName ≠ "chunk") then nextChunkPart rest final else Ok data
  end.

(** [func (s *Service) doUploadFromRequest(request) (err error)].  The
    test [p == nil || p.FormName() != "chunk"] after the loop cannot hold:
    the loop is left only with a part of that name. *)
Definition doUploadFromRequest (s : Service) (request : Request)
    : option error * Service * option task :=
  let queryParams := Query request in
  let filePath := Get_param queryParams "file-path" in
  if decide (filePath = "") then failed (Errorf "no file-path for uploading file") s
  else
  let uuid := Get_param queryParams "uuid" in
  if decide (uuid = "") then failed (Errorf "no uuid for uploading file") s
  else
  let diskUUID := Get_param queryParams "disk-uuid" in
  let expectedChecksum := Get_param queryParams "expected-checksum" in
  match strconv.ParseInt (Get_param queryParams "size") with
  | Err e => failed e s
  | Ok size =>
      if decide (Z.rem size types.DefaultSectorSize ≠ 0) then
        failed (ErrSizeNotAligned "the uploaded file size" size) s
      else
        let dataEngine := Get_param queryParams types.DataSourceTypeParameterDataEngine in
        match checkAndInitSyncFile s filePath uuid diskUUID expectedChecksum size with
        | (Err e, s') => failed e s'
        | (Ok sf, s') =>
            match Multipart request with
            | Err e => failed e s'
            | Ok (parts, final) =>
                match nextChunkPart parts final with
                | Err e => failed e s'
                | Ok p =>
                    match WaitForStateNonPending s' sf with
                    | Some e => failed e s'
                    | None =>
                        match IdleTimeoutCopyToFile s' sf p dataEngine with
                        | Some e => failed e s'
                        | None => (None, s', None)
                        end
                    end
                end
            end
        end
  end.

(** [func (s *Service) doReceiveFromPeer(request) (err error)] *)
Definition doReceiveFromPeer (s : Service) (request : Request)
    : option error * Service * option task :=
  let queryParams := Query request in
  let filePath := Get_param queryParams "file-path" in
  if decide (filePath = "") then failed (Errorf "no filePath for file requesting") s
  else
  let uuid := Get_param queryParams "uuid" in
  if decide (uuid = "") then failed (Errorf "no uuid for file requesting") s
  else
  let diskUUID := Get_param queryParams "disk-uuid" in
  let expectedChecksum := Get_param queryParams "expected-checksum" in
  let fileType := Get_param queryParams "file-type" in
  let fileType :=
    if decide (fileType = types.SyncingFileTypeEmpty) then types.SyncingFileTypeRaw
    else fileType in
  if decide (fileType ≠ types.SyncingFileTypeRaw ∧ fileType ≠ types.SyncingFileTypeQcow2)
  then failed (Errorf "") s
  else
  match strconv.ParseInt (Get_param queryParams "size") with
  | Err e => failed e s
  | Ok size =>
      if decide (Z.rem size types.DefaultSectorSize ≠ 0) then
        failed (ErrSizeNotAligned "the uploaded file size" size) s
      else
        match strconv.ParseInt (Get_param queryParams "port") with
        | Err e => failed e s
        | Ok port =>
            let dataEngine :=
              Get_param queryParams types.DataSourceTypeParameterDataEngine in
            match checkAndInitSyncFile s filePath uuid diskUUID expectedChecksum size with
            | (Err e, s') => failed e s'
            | (Ok sf, s') => (None, s', Some (GoReceive sf port fileType dataEngine))
            end
        end
  end.

(** [func (s *Service) doSendToPeer(request) (err error)] *)
Definition doSendToPeer (s : Service) (request : Request) : option error :=
  match url.QueryUnescape (mux_Vars_id request) with
  | Err e => Some e
  | Ok filePath =>
      if decide (filePath = "") then Some (Errorf "no filePath for file sending")
      else
      let toAddress := Get_param (Query request) "to-address" in
      if decide (toAddress = "") then Some (Errorf "no toAddress for file sending")
      else
        match filePathMap s !! filePath with
        | None => Some (ErrNotFoundForSending filePath)
        | Some sf => Send s sf toAddress
        end
  end.

(** The body shared by [Fetch], [DownloadFromURL], [CloneFromBackingImage],
    [RestoreFromBackupURL], [UploadFromRequest], [ReceiveFromPeer] and
    [SendToPeer]: an error of the [do...] function is answered with
    [http.StatusInternalServerError]. *)
Definition respond (writer : Response) (err : option error) : Response :=
  match err with
  | Some e => http_Error writer e StatusInternalServerError
  | None => writer
  end.

Definition Fetch (s : Service) (writer : Response) (request : Request)
    : Response * Service * option task :=
  let '(err, s', t) := doFetch s request in (respond writer err, s', t).

Definition DownloadFromURL (s : Service) (writer : Response) (request : Request)
    : Response * Service * option task :=
  let '(err, s', t) := doDownloadFromURL s request in (respond writer err, s', t).

Definition CloneFromBackingImage (s : Service) (writer : Response) (request : Request)
    : Response * Service * option task :=
  let '(err, s', t) := doCloneFromBackingImage s request in (respond writer err, s', t).

Definition RestoreFromBackupURL (s : Service) (writer : Response) (request : Request)
    : Response * Service * option task :=
  let '(err, s', t) := doRestoreFromBackupURL s request in (respond writer err, s', t).

Definition UploadFromRequest (s : Service) (writer : Response) (request : Request)
    : Response * Service * option task :=
  let '(err, s', t) := doUploadFromRequest s request in (respond writer err, s', t).

Definition ReceiveFromPeer (s : Service) (writer : Response) (request : Request)
    : Response * Service * option task :=
  let '(err, s', t) := doReceiveFromPeer s request in (respond writer err, s', t).

Definition SendToPeer (s : Service) (writer : Response) (request : Request) : Response :=
  respond writer (doSendToPeer s request).

(** Modelled from the spec: the router is not among the sources; a request
    is dispatched to the handler of its endpoint. *)
Definition serve (ep : endpoint) (s : Service) (writer : Response)
    (request : Request) : Response * Service * option task :=
  match ep with
  | EpFetch => Fetch s writer request
  | EpDownloadFromURL => DownloadFromURL s writer request
  | EpClone => CloneFromBackingImage s writer request
  | EpRestoreFromBackupURL => RestoreFromBackupURL s writer request
  | EpUpload => UploadFromRequest s writer request
  | EpReceiveFromPeer => ReceiveFromPeer s writer request
  end.

End Handlers.

(** ** The download handler and the idle-timeout copy pump *)

#[global] Instance byte_eq_dec : EqDecision byte := Byte.byte_eq_dec.

Definition DownloadBufferSize : nat := Z.to_nat (Z.shiftl 1 12).

(** [bytes.Equal] *)
Definition bytes_Equal (a b : list byte) : bool := bool_decide (a = b).

(** An [io.WriteSeeker]: [Write(p)] returns the number of bytes it wrote
    and an error, [Seek(offset, io.SeekCurrent)] an error (its position is
    not used by the pump). *)
Class WriteSeeker (W : Type) : Type := {
  ws_Write : W → list byte → W * Z * option error;
  ws_Seek : W → Z → W * option error
}.

(** What one call of [src.Read(buf)] returns: the bytes put in [buf] (their
    number is [nr]) and the error. *)
Abbreviation read := (list byte * option error)%type (only parsing).

(** The calls the pump issues on [dst], in order: a ghost record. *)
Inductive dstCall : Type :=
  | CallSeek (offset : Z)
  | CallWrite (p : list byte) (n : Z).

Definition wrap64 (z : Z) : Z := (z + 2 ^ 63) mod 2 ^ 64 - 2 ^ 63.

Section Pump.

Context {W : Type} `{WriteSeeker W}.

(** The variables of [IdleTimeoutCopy] at the head of its loop, with the
    ghost records: the calls issued on [dst], the arguments of
    [updater.UpdateProgress], and what the calls of [src.Read] returned. *)
Record pump : Type := mkPump {
  copied : Z;
  err : option error;
  panicked : bool;
  dst : W;
  calls : list dstCall;
  progress : list Z;
  reads : list read
}.

Definition pump_init (d : W) : pump :=
  {| copied := 0; err := None; panicked := false; dst := d;
     calls := []; progress := []; reads := [] |}.

(** The [if nr > 0 { ... }] block on the bytes of one read.  A slice
    [buf[0:nr]] beyond the capacity of the buffer panics. *)
Definition handle (writeZero : bool) (data : list byte) (st : pump) : pump :=
  let nr := length data in
  if (0 <? nr)%nat then
    if (DownloadBufferSize <? nr)%nat then
      {| copied := copied st; err := err st; panicked := true; dst := dst st;
         calls := calls st; progress := progress st; reads := reads st |}
    else
      let zeroByteArray := replicate DownloadBufferSize x00 in
      let '(d, call, nws, handleErr) :=
        if negb writeZero && bytes_Equal data (take nr zeroByteArray) then
          let '(d, e) := ws_Seek (dst st) (Z.of_nat nr) in
          (d, CallSeek (Z.of_nat nr), Z.of_nat nr, e)
        else
          let '(d, nw, e) := ws_Write (dst st) data in
          (d, CallWrite data nw, nw, e) in
      match handleErr with
      | Some e =>
          {| copied := copied st; err := Some e; panicked := false; dst := d;
             calls := calls st ++ [call]; progress := progress st;
             reads := reads st |}
      | None =>
          {| copied := wrap64 (copied st + nws); err := None; panicked := false;
             dst := d; calls := calls st ++ [call];
             progress := progress st ++ [nws]; reads := reads st |}
      end
  else st.

(** [nr, rErr = src.Read(buf)] has returned [rd]. *)
Definition counted (rd : read) (st : pump) : pump :=
  {| copied := copied st; err := err st; panicked := panicked st; dst := dst st;
     calls := calls st; progress := progress st; reads := reads st ++ [rd] |}.

Definition with_err (e : option error) (st : pump) : pump :=
  {| copied := copied st; err := e; panicked := panicked st; dst := dst st;
     calls := calls st; progress := progress st; reads := reads st |}.

(** What a source that has given all it had returns: [(0, io.EOF)]. *)
Definition eof_read : read := ([], Some ErrEOF).

(** The loop [for rErr == nil && err == nil].  [ctxDone i] tells whether
    [ctx.Done()] is closed when the [i]-th pass selects on it (by the
    timer goroutine's [cancel()] or by the caller); [src] is what the
    successive calls of [src.Read] return, followed by [eof_read]. *)
Fixpoint copyLoop (writeZero : bool) (ctxDone : nat → bool) (i : nat)
    (src : list read) (st : pump) : pump :=
  if ctxDone i then with_err (Some ErrCtxCancelled) st
  else
    match src with
    | [] => counted eof_read st
    | (data, rErr) :: src' =>
        let st := handle writeZero data (counted (data, rErr) st) in
        if panicked st then st
        else
          match err st with
          | Some _ => st
          | None =>
              match rErr with
              | Some ErrEOF => st
              | Some e => with_err (Some e) st
              | None => copyLoop writeZero ctxDone (S i) src' st
              end
          end
    end.

(** [func IdleTimeoutCopy(ctx, cancel, src, dst, updater, writeZero)
    (copied int64, err error)] *)
Definition IdleTimeoutCopy (ctxDone : nat → bool) (src : list read) (d : W)
    (writeZero : bool) : pump :=
  copyLoop writeZero ctxDone 0 src (pump_init d).

End Pump.

Arguments pump W : clear implicits.

(** ** The destination file *)

(** What the disk does to the calls on an open file: the [i]-th [Write] or
    [Seek] fails with [e] when [opFault i = Some (n, e)], a failing [Write]
    having stored the first [n] bytes at most. *)
Record DiskFaults : Type := mkDiskFaults {
  createFault : option error;
  opFault : nat → option (nat * error);
  truncateFault : option error
}.

Definition noFaults : DiskFaults :=
  {| createFault := None; opFault := λ _, None; truncateFault := None |}.

(** An open [os.File]: its content, the position of the next write, the
    number of calls made on it. *)
Record File : Type := mkFile {
  content : list byte;
  offset : nat;
  nops : nat;
  faults : DiskFaults
}.

(** The content once [p] is stored at [off]: a gap before [off] reads as
    zeros. *)
Definition write_at (c : list byte) (off : nat) (p : list byte) : list byte :=
  take off (c ++ replicate (off - length c) x00) ++ p ++ drop (off + length p) c.

(** [(f *os.File).Write]: an error is returned whenever fewer bytes than
    [len(p)] were stored. *)
Definition File_Write (f : File) (p : list byte) : File * Z * option error :=
  match opFault (faults f) (nops f) with
  | Some (n, e) =>
      let stored := take n p in
      ({| content := write_at (content f) (offset f) stored;
          offset := offset f + length stored; nops := S (nops f);
          faults := faults f |},
       Z.of_nat (length stored), Some e)
  | None =>
      ({| content := write_at (content f) (offset f) p;
          offset := offset f + length p; nops := S (nops f);
          faults := faults f |},
       Z.of_nat (length p), None)
  end.

(** [(f *os.File).Seek(offset, io.SeekCurrent)] *)
Definition File_Seek (f : File) (off : Z) : File * option error :=
  match opFault (faults f) (nops f) with
  | Some (_, e) =>
      ({| content := content f; offset := offset f; nops := S (nops f);
          faults := faults f |}, Some e)
  | None =>
      if Z.of_nat (offset f) + off <? 0 then
        ({| content := content f; offset := offset f; nops := S (nops f);
            faults := faults f |}, Some (ErrEnv "invalid argument"))
      else
        ({| content := content f; offset := Z.to_nat (Z.of_nat (offset f) + off);
            nops := S (nops f); faults := faults f |}, None)
  end.

(** [(f *os.File).Truncate(size)]: the file is cut or extended with zeros
    to [size] bytes; a negative size is refused. *)
Definition File_Truncate (f : File) (size : Z) : File * option error :=
  match truncateFault (faults f) with
  | Some e => (f, Some e)
  | None =>
      if size <? 0 then (f, Some (ErrEnv "invalid argument"))
      else
        let n := Z.to_nat size in
        ({| content := take n (content f ++ replicate (n - length (content f)) x00);
            offset := offset f; nops := nops f; faults := faults f |}, None)
  end.

#[global] Instance File_WriteSeeker : WriteSeeker File :=
  {| ws_Write := File_Write; ws_Seek := File_Seek |}.

(** A file that was just created: empty, positioned at its start. *)
Definition newFile (d : DiskFaults) : File :=
  {| content := []; offset := 0; nops := 0; faults := d |}.

(** [os.Create(name)]: the file is created, or truncated when it exists. *)
Definition os_Create (d : DiskFaults) (fs : FS) (name : string) : result File * FS :=
  match createFault d with
  | Some e => (Err e, fs)
  | None => (Ok (newFile d), <[name := []]> fs)
  end.

(** ** The HTTP download handler *)

(** The [http.Response] of the origin. *)
Record HTTPResponse : Type := mkHTTPResponse {
  RespStatusCode : Z;
  RespStatus : string;
  RespBody : list read
}.

(** The network as the handler meets it: whether the request for a URL can
    be built, and what [client.Do] returns for it. *)
Record Network : Type := mkNetwork {
  NewRequestWithContext : string → option error;
  Do : string → result HTTPResponse
}.

(** [func (h *HTTPHandler) DownloadFromURL(ctx, url, filePath, updater)
    (written int64, err error)], with the disk it leaves and the progress
    it reported. *)
Definition HTTPHandler_DownloadFromURL (net : Network) (d : DiskFaults)
    (ctxDone : nat → bool) (fs : FS) (url filePath : string)
    : outcome (Z * option error * FS * list Z) :=
  match NewRequestWithContext net url with
  | Some e => Returned (0, Some e, fs, [])
  | None =>
      match Do net url with
      | Err e => Returned (0, Some e, fs, [])
      | Ok resp =>
          if decide (RespStatusCode resp ≠ StatusOK) then
            Returned (0, Some (ErrStatus url (RespStatus resp)), fs, [])
          else
            match os_Create d fs filePath with
            | (Err e, fs) => Returned (0, Some e, fs, [])
            | (Ok outFile, fs) =>
                let r := IdleTimeoutCopy ctxDone (RespBody resp) outFile false in
                if panicked r then Panicked "slice bounds out of range"
                else
                  match err r with
                  | Some e =>
                      Returned (0, Some e, <[filePath := content (dst r)]> fs, progress r)
                  | None =>
                      match File_Truncate (dst r) (copied r) with
                      | (f, Some e) =>
                          Returned (0, Some (ErrWrap e "failed to truncate the file after download"),
                                    <[filePath := content f]> fs, progress r)
                      | (f, None) =>
                          Returned (copied r, None, <[filePath := content f]> fs, progress r)
                      end
                  end
            end
      end
  end.

(** ** The remaining handlers and helpers of the two files *)

(** [func (s *Service) List(writer, request)].  The handler copies the path
    index under the read lock, takes the snapshot [sf.Get()] of every entry
    and writes the JSON of the resulting map, whose marshalling cannot
    fail; that map is returned beside the writer. *)
Definition List_res (s : Service) : gmap string SyncingFile :=
  omap (λ sf, objects s !! sf) (filePathMap s).

Definition List (s : Service) (writer : Response) (request : Request)
    : Response * gmap string SyncingFile :=
  (WriteHeader StatusOK (Header_Set "Content-Type" "application/json" writer),
   List_res s).

(** The answer to a [HEAD] request: the status and the header map. *)
Record HeadResponse : Type := mkHeadResponse {
  HeadStatusCode : Z;
  HeadStatus : string;
  HeadHeader : gmap string (list string)
}.

(** [func (h *HTTPHandler) GetSizeFromURL(url string) (size int64, err error)],
    given whether the request can be built and what [client.Do] returns
    for it within [types.HTTPTimeout]. *)
Definition HTTPHandler_GetSizeFromURL (newRequest : string → option error)
    (head : string → result HeadResponse) (url : string) : Z * option error :=
  match newRequest url with
  | Some e => (0, Some e)
  | None =>
      match head url with
      | Err e => (0, Some e)
      | Ok resp =>
          if decide (HeadStatusCode resp ≠ StatusOK) then
            (0, Some (ErrStatus url (HeadStatus resp)))
          else
            let contentLength := Get_param (HeadHeader resp) "Content-Length" in
            if decide (contentLength = "") then (-1, None)
            else
              match strconv.ParseInt contentLength with
              | Err e => (0, Some e)
              | Ok size => (size, None)
              end
      end
  end.

(** [strings.ToLower] on the ASCII letters, which is what it does to the
    token characters a header key is made of. *)
Definition lower (c : ascii) : ascii :=
  let n := N_of_ascii c in
  if ((65 <=? n) && (n <=? 90))%N then ascii_of_N (n + 32) else c.

Fixpoint ToLower (s : string) : string :=
  match s with
  | EmptyString => EmptyString
  | String c rest => String (lower c) (ToLower rest)
  end.

(** [func removeReferer(req *http.Request)], on the header map of the
    request: the loop deletes, of the keys it ranges over, those that read
    ["referer"] in lower case. *)
Definition removeReferer (header : gmap string (list string))
    : gmap string (list string) :=
  map_fold (λ k _ h, if decide (ToLower k = "referer") then delete k h else h)
    header header.

Definition MockFileSize : Z := 4096.

(** [func (mh *MockHandler) GetSizeFromURL(url string) (fileSize int64, err error)] *)
Definition MockHandler_GetSizeFromURL (url : string) : Z * option error :=
  (MockFileSize, None).

(** The loop [for i := 1; i <= MockFileSize/16; i++] of [mockFile], with
    [n] passes to go: a pass that finds [ctx.Done()] closed returns the
    error, any other reports 16 bytes of progress. *)
Fixpoint mockTicks (ctxDone : nat → bool) (i n : nat) (progress : list Z)
    : option error * list Z :=
  match n with
  | O => (None, progress)
  | S n' =>
      if ctxDone i then (Some (Errorf "cancelled mock processing"), progress)
      else mockTicks ctxDone (S i) n' (progress ++ [16])
  end.

(** [func (mh *MockHandler) mockFile(ctx, filePath, updater) (written int64,
    err error)], with the disk it leaves and the progress it reported. *)
Definition MockHandler_mockFile (d : DiskFaults) (ctxDone : nat → bool) (fs : FS)
    (filePath : string) : Z * option error * FS * list Z :=
  match os_Create d fs filePath with
  | (Err e, fs) => (0, Some e, fs, [])
  | (Ok f, fs) =>
      match File_Truncate f MockFileSize with
      | (_, Some e) => (0, Some e, fs, [])
      | (f, None) =>
          let fs := <[filePath := content f]> fs in
          match mockTicks ctxDone 1 (Z.to_nat (MockFileSize / 16)) [] with
          | (Some e, progress) => (0, Some e, fs, progress)
          | (None, progress) => (MockFileSize, None, fs, progress)
          end
      end
  end.

(** [func (mh *MockHandler) DownloadFromURL(ctx, url, filePath, updater)] *)
Definition MockHandler_DownloadFromURL (d : DiskFaults) (ctxDone : nat → bool)
    (fs : FS) (url filePath : string) : Z * option error * FS * list Z :=
  MockHandler_mockFile d ctxDone fs filePath.

(** * Specifications *)

(** ** The registry and its two indices *)

Module Registry.

(** The operations that change the registry. *)
Inductive op : Type :=
  | Register (filePath uuid diskUUID expectedChecksum : string) (size : Z)
  | Cleanup (filePath : string) (deleteFile : bool).

(** One operation on the service and the disk.  The third component is a
    ghost: the addresses of the live syncing files, those a register
    call created and no [Delete] or [Forget] of their path destroyed
    since. *)
Definition step (st : Service * FS * list ptr) (o : op) : Service * FS * list ptr :=
  let '(s, fs, live) := st in
  match o with
  | Register filePath uuid diskUUID expectedChecksum size =>
      match checkAndInitSyncFile s filePath uuid diskUUID expectedChecksum size with
      | (Ok sf, s') => (s', fs, sf :: live)
      | (Err _, s') => (s', fs, live)
      end
  | Cleanup filePath deleteFile =>
      let '(s', fs') := cleanup s fs filePath deleteFile in
      (s', fs',
       filter (λ a, sf_filePath <$> objects s !! a ≠ Some filePath) live)
  end.

Definition run (fs : FS) (ops : list op) : Service * FS * list ptr :=
  foldl step (InitService, fs, []) ops.

(** The two indices agree on the live files. *)
Record consistent (s : Service) (live : list ptr) : Prop := {
  live_once : NoDup live;
  live_indexed : ∀ sf, sf ∈ live →
    ∃ o, objects s !! sf = Some o
         ∧ (∀ k, filePathMap s !! k = Some sf ↔ k = sf_filePath o)
         ∧ (∀ u, fileUUIDMap s !! u = Some sf ↔ u = sf_uuid o);
  path_index_live : ∀ k sf, filePathMap s !! k = Some sf → sf ∈ live;
  uuid_index_live : ∀ u sf, fileUUIDMap s !! u = Some sf → sf ∈ live
}.

(** The invariant that carries the proof: each index holds exactly the
    live addresses, under the key their object has. *)
Record inv (s : Service) (live : list ptr) : Prop := {
  inv_nodup : NoDup live;
  inv_alloc : ∀ a, a ∈ live → (a < length (objects s))%nat;
  inv_path : ∀ k a, filePathMap s !! k = Some a
                    ↔ a ∈ live ∧ sf_filePath <$> objects s !! a = Some k;
  inv_uuid : ∀ u a, fileUUIDMap s !! u = Some a
                    ↔ a ∈ live ∧ sf_uuid <$> objects s !! a = Some u
}.

End Registry.

(** The service once ["/data/a/backing"] is registered under ["u1"]. *)
Definition one_file : Service :=
  (checkAndInitSyncFile InitService "/data/a/backing" "u1" "disk" "" 4096).2.

(** ** Validation of the register requests *)

(** The errors the design document classes as invalid-argument: a missing
    or malformed query parameter, a size that is not sector-aligned, a bad
    encryption mode or file type. *)
Definition invalid_argument (e : error) : bool :=
  match e with
  | Errorf _ | ErrSizeNotAligned _ _ | ErrNumSyntax _ _ | ErrNumRange _ _ => true
  | ErrWrap (ErrNumSyntax _ _ | ErrNumRange _ _) _ => true
  | _ => false
  end.

Definition missing (q : gmap string (list string)) (key : string) : bool :=
  bool_decide (Get_param q key = "").

Definition allowed (v : string) (values : list string) : bool :=
  bool_decide (v ∈ values).

(** The [size] parameter is not an integer that is a multiple of the
    sector size. *)
Definition size_unaligned (q : gmap string (list string)) : bool :=
  match strconv.ParseInt (Get_param q "size") with
  | Ok n => negb (n mod types.DefaultSectorSize =? 0)
  | Err _ => true
  end.

(** A query parameter the endpoint requires is missing or malformed. *)
Definition malformed (ep : endpoint) (request : Request) : bool :=
  let q := Query request in
  match ep with
  | EpFetch =>
      missing q "src-file-path" || missing q "dst-file-path" || missing q "uuid"
      || missing q "disk-uuid" || size_unaligned q
  | EpDownloadFromURL =>
      missing q "file-path" || missing q "uuid" || missing q "url"
  | EpClone =>
      missing q "backing-image" || missing q "backing-image-uuid"
      || negb (allowed (Get_param q "encryption") ["encrypt"; "decrypt"; "ignore"])
      || missing q "file-path" || missing q "uuid"
  | EpRestoreFromBackupURL =>
      missing q "file-path" || missing q "uuid" || missing q "backup-url"
      || is_err (strconv.Atoi (Get_param q "concurrent-limit"))
  | EpUpload =>
      missing q "file-path" || missing q "uuid" || size_unaligned q
  | EpReceiveFromPeer =>
      missing q "file-path" || missing q "uuid"
      || negb (allowed (Get_param q "file-type") [""; "raw"; "qcow2"])
      || size_unaligned q
      || is_err (strconv.ParseInt (Get_param q "port"))
  end.

(** ** Concrete requests *)

(** Collaborators that always succeed. *)
Definition sendOk : Service → ptr → string → option error := λ _ _ _, None.
Definition waitOk : Service → ptr → option error := λ _ _, None.
Definition copyOk : Service → ptr → list byte → string → option error :=
  λ _ _ _ _, None.
Definition readerOf : SyncingFile → FS → result (list byte) :=
  λ sf fs, match fs !! sf_filePath sf with
           | Some c => Ok c
           | None => Err (ErrEnv "no such file or directory")
           end.
Definition gzipId : list byte → list byte := λ data, data.

Definition query (params : list (string * string)) : gmap string (list string) :=
  list_to_map ((λ kv, (kv.1, [kv.2])) <$> params).

(** Scenario D of the design document: a register request with
    [size=4097]. *)
Definition request_size_4097 : Request :=
  {| Method := "POST"; Vars := ∅;
     Query := query [("src-file-path", "/data/src/backing");
                     ("dst-file-path", "/data/a/backing");
                     ("file-path", "/data/a/backing");
                     ("uuid", "u1"); ("disk-uuid", "disk"); ("size", "4097");
                     ("port", "30001")];
     Credential := DecodeEOF; Multipart := Ok ([], ErrEOF) |}.

(** A request on the file of id [id]. *)
Definition request_on (method id : string) : Request :=
  {| Method := method; Vars := {[ "id" := id ]};
     Query := query [("to-address", "10.0.0.2:8002")];
     Credential := DecodeEOF; Multipart := Ok ([], ErrEOF) |}.

(** ** The copy pump *)

(** A buffer that holds zero bytes only. *)
Definition all_zero (data : list byte) : bool :=
  forallb (λ b, bool_decide (b = x00)) data.

(** What the pump is to issue on [dst] for the bytes of one read when it
    runs with [writeZero = false]: a seek by their number when they are all
    zero, and otherwise one write of all of them. *)
Definition issued (data : list byte) (c : dstCall) : Prop :=
  if all_zero data then c = CallSeek (Z.of_nat (length data))
  else ∃ n, c = CallWrite data n.

(** The bytes handed to [Write], the bytes [Write] reported as written, the
    bytes the reads returned, and those of them that came in a buffer that
    is not all zero. *)
Definition bytes_handed (cs : list dstCall) : Z :=
  foldr (λ c acc, match c with CallWrite p _ => Z.of_nat (length p) | _ => 0 end + acc) 0 cs.

Definition bytes_written (cs : list dstCall) : Z :=
  foldr (λ c acc, match c with CallWrite _ n => n | _ => 0 end + acc) 0 cs.

Definition bytes_read (reads : list read) : Z :=
  foldr (λ rd acc, Z.of_nat (length rd.1) + acc) 0 reads.

Definition nonzero_bytes_read (reads : list read) : Z :=
  foldr (λ rd acc, (if all_zero rd.1 then 0 else Z.of_nat (length rd.1)) + acc) 0 reads.

(** [Write] returned a count between zero and the length of its argument,
    as the contract of [io.Writer] has it. *)
Definition honoured (c : dstCall) : Prop :=
  match c with
  | CallWrite p n => 0 ≤ n ≤ Z.of_nat (length p)
  | CallSeek _ => True
  end.

(** ** The HTTP download handler *)

(** The request was built and answered with status 200 by [resp], and the
    destination was created: the handler reaches the copy. *)
Definition reaches_copy (net : Network) (d : DiskFaults) (url : string)
    (resp : HTTPResponse) : Prop :=
  NewRequestWithContext net url = None ∧ Do net url = Ok resp
  ∧ RespStatusCode resp = StatusOK ∧ createFault d = None.

(** The ways a call of the handler ends, stage by stage. *)
Inductive download_end (net : Network) (d : DiskFaults) (ctxDone : nat → bool)
    (fs : FS) (url filePath : string)
    : outcome (Z * option error * FS * list Z) → Prop :=
  | end_request e :
      NewRequestWithContext net url = Some e →
      download_end net d ctxDone fs url filePath (Returned (0, Some e, fs, []))
  | end_do e :
      NewRequestWithContext net url = None → Do net url = Err e →
      download_end net d ctxDone fs url filePath (Returned (0, Some e, fs, []))
  | end_status resp :
      NewRequestWithContext net url = None → Do net url = Ok resp →
      RespStatusCode resp ≠ StatusOK →
      download_end net d ctxDone fs url filePath
        (Returned (0, Some (ErrStatus url (RespStatus resp)), fs, []))
  | end_create resp e :
      NewRequestWithContext net url = None → Do net url = Ok resp →
      RespStatusCode resp = StatusOK → createFault d = Some e →
      download_end net d ctxDone fs url filePath (Returned (0, Some e, fs, []))
  | end_panic resp r :
      reaches_copy net d url resp →
      r = IdleTimeoutCopy ctxDone (RespBody resp) (newFile d) false →
      panicked r = true →
      download_end net d ctxDone fs url filePath (Panicked "slice bounds out of range")
  | end_copy resp r e :
      reaches_copy net d url resp →
      r = IdleTimeoutCopy ctxDone (RespBody resp) (newFile d) false →
      panicked r = false → err r = Some e →
      download_end net d ctxDone fs url filePath
        (Returned (0, Some e, <[filePath := content (dst r)]> (<[filePath := []]> fs),
                   progress r))
  | end_truncate resp r e :
      reaches_copy net d url resp →
      r = IdleTimeoutCopy ctxDone (RespBody resp) (newFile d) false →
      panicked r = false → err r = None →
      File_Truncate (dst r) (copied r) = (dst r, Some e) →
      download_end net d ctxDone fs url filePath
        (Returned (0, Some (ErrWrap e "failed to truncate the file after download"),
                   <[filePath := content (dst r)]> (<[filePath := []]> fs), progress r))
  | end_success resp r f :
      reaches_copy net d url resp →
      r = IdleTimeoutCopy ctxDone (RespBody resp) (newFile d) false →
      panicked r = false → err r = None →
      File_Truncate (dst r) (copied r) = (f, None) →
      download_end net d ctxDone fs url filePath
        (Returned (copied r, None, <[filePath := content f]> (<[filePath := []]> fs),
                   progress r)).

(** The content of an open file as a reader sees it up to the position of
    the next write: a gap after the last stored byte reads as zeros. *)
Definition image (f : File) : list byte :=
  content f ++ replicate (offset f - length (content f)) x00.

(** ** Concrete downloads *)

(** An origin that answers 200 with [body]. *)
Definition origin (body : list read) : Network :=
  {| NewRequestWithContext := λ _, None;
     Do := λ _, Ok {| RespStatusCode := 200; RespStatus := "200 OK"; RespBody := body |} |}.

Definition never : nat → bool := λ _, false.

(** Two bytes, a run of three zeros, and a last byte with the end of the
    stream. *)
Definition body_with_hole : list read :=
  [([x01; x02], None); ([x00; x00; x00], None); ([x03], Some ErrEOF)].

(** A disk whose second call on the file fails. *)
Definition second_call_fails : DiskFaults :=
  {| createFault := None;
     opFault := λ i, if decide (i = 1%nat) then Some (0%nat, ErrEnv "input/output error")
                     else None;
     truncateFault := None |}.

(** ** Register requests that pass validation *)

(** The query parameter that names the path to register. *)
Definition path_param (ep : endpoint) : string :=
  match ep with
  | EpFetch => "dst-file-path"
  | _ => "file-path"
  end.

(** The size a request declares: that of its [size] parameter for the
    endpoints that read one, and 0 for the others. *)
Definition declared_size (ep : endpoint) (request : Request) : Z :=
  match ep with
  | EpFetch | EpUpload | EpReceiveFromPeer =>
      match strconv.ParseInt (Get_param (Query request) "size") with
      | Ok n => n
      | Err _ => 0
      end
  | _ => 0
  end.

(** The body decodes to a credential map, or is empty, for the endpoints
    that read one. *)
Definition credential_ok (ep : endpoint) (request : Request) : bool :=
  match ep with
  | EpClone | EpRestoreFromBackupURL =>
      match Credential request with
      | DecodeErr _ => false
      | _ => true
      end
  | _ => true
  end.

(** The entity a background task works on. *)
Definition task_sf (t : task) : ptr :=
  match t with
  | GoFetch sf _ => sf
  | GoDownloadFromURL sf _ _ => sf
  | GoCloneToFileWithEncryption sf _ _ _ _ _ => sf
  | GoRestoreFromBackupURL sf _ _ _ _ => sf
  | GoReceive sf _ _ _ => sf
  end.

(** The register call a request that passes validation leads to. *)
Definition register_of (ep : endpoint) (s : Service) (request : Request)
    : result ptr * Service :=
  checkAndInitSyncFile s
    (Get_param (Query request) (path_param ep))
    (Get_param (Query request) "uuid")
    (Get_param (Query request) "disk-uuid")
    (Get_param (Query request) "expected-checksum")
    (declared_size ep request).

(** A fetch request with every parameter in place and an aligned size. *)
Definition request_fetch_4096 : Request :=
  {| Method := "POST"; Vars := ∅;
     Query := query [("src-file-path", "/data/src/backing");
                     ("dst-file-path", "/data/b/backing");
                     ("uuid", "u2"); ("disk-uuid", "disk"); ("size", "4096")];
     Credential := DecodeEOF; Multipart := Ok ([], ErrEOF) |}.

(** An upload request with every parameter in place whose body is not a
    multipart stream. *)
Definition request_upload_no_multipart : Request :=
  {| Method := "POST"; Vars := ∅;
     Query := query [("file-path", "/data/b/backing");
                     ("uuid", "u2"); ("disk-uuid", "disk"); ("size", "4096")];
     Credential := DecodeEOF;
     Multipart := Err (ErrEnv "request Content-Type isn't multipart/form-data") |}.

(** ** Streaming a ready file *)

(** The character [c] occurs in [s]. *)
Fixpoint occurs (c : ascii) (s : string) : bool :=
  match s with
  | EmptyString => false
  | String c' rest => Ascii.eqb c' c || occurs c rest
  end.

(** The same request sent with another method. *)
Definition with_method (method : string) (request : Request) : Request :=
  {| Method := method; Vars := Vars request; Query := Query request;
     Credential := Credential request; Multipart := Multipart request |}.

(** The file bytes of a response body. *)
Definition body_bytes (body : list chunk) : list byte :=
  concat ((λ c, match c with Bytes data => data | _ => [] end) <$> body).

(** The request names, by its id, a registered syncing file that is
    [ready]. *)
Definition names_ready (s : Service) (request : Request) (sf : SyncingFile) : Prop :=
  ∃ filePath, url.QueryUnescape (default "" (Vars request !! "id")) = Ok filePath
              ∧ (filePathMap s !! filePath ≫= (λ a, objects s !! a)) = Some sf
              ∧ state sf = types.StateReady.

(** A service with one file that is [ready], on a disk that holds it. *)
Definition ready_file : SyncingFile :=
  {| filePath := "/data/parrot-6846a0b2/backing"; uuid := "u1"; diskUUID := "disk";
     expectedChecksum := ""; size := 4; state := types.StateReady; message := "" |}.

Definition one_ready : Service :=
  {| objects := [ready_file];
     filePathMap := {[ "/data/parrot-6846a0b2/backing" := 0%nat ]};
     fileUUIDMap := {[ "u1" := 0%nat ]} |}.

Definition disk_with_file : FS :=
  {[ "/data/parrot-6846a0b2/backing" := [x01; x02; x03; x04] ]}.

(** A download request for the ready file, with or without
    [forV2Creation=true]. *)
Definition request_download (method : string) (forV2 : bool) : Request :=
  {| Method := method; Vars := {[ "id" := "%2Fdata%2Fparrot-6846a0b2%2Fbacking" ]};
     Query := if forV2 then query [("forV2Creation", "true")] else ∅;
     Credential := DecodeEOF; Multipart := Ok ([], ErrEOF) |}.

(** ** More on the copy pump *)

(** The count a call on [dst] reported: the offset of a seek, the bytes of
    a write. *)
Definition call_count (c : dstCall) : Z :=
  match c with
  | CallSeek n => n
  | CallWrite _ n => n
  end.

Definition sum_counts (counts : list Z) : Z := foldr Z.add 0 counts.

(** The reads of a body that the pump gets to: those up to and including
    the first that carries an error. *)
Fixpoint consumed (body : list read) : list read :=
  match body with
  | [] => []
  | (data, None) :: rest => (data, None) :: consumed rest
  | rd :: _ => [rd]
  end.

(** Every read of the body fits the buffer and carries no error other
    than [io.EOF]. *)
Definition clean (body : list read) : Prop :=
  Forall (λ rd, (length rd.1 ≤ DownloadBufferSize)%nat
                ∧ (rd.2 = None ∨ rd.2 = Some ErrEOF)) body.

(** ** Decimal numerals *)

(** The number a string of decimal digits stands for, read from the left
    onto [acc]. *)
Fixpoint decimal_value (d : Decimal.uint) (acc : Z) : Z :=
  match d with
  | Decimal.Nil => acc
  | Decimal.D0 l => decimal_value l (acc * 10 + 0)
  | Decimal.D1 l => decimal_value l (acc * 10 + 1)
  | Decimal.D2 l => decimal_value l (acc * 10 + 2)
  | Decimal.D3 l => decimal_value l (acc * 10 + 3)
  | Decimal.D4 l => decimal_value l (acc * 10 + 4)
  | Decimal.D5 l => decimal_value l (acc * 10 + 5)
  | Decimal.D6 l => decimal_value l (acc * 10 + 6)
  | Decimal.D7 l => decimal_value l (acc * 10 + 7)
  | Decimal.D8 l => decimal_value l (acc * 10 + 8)
  | Decimal.D9 l => decimal_value l (acc * 10 + 9)
  end.

(** What a client receives of the header map a handler has set: one value
    under every key. *)
Definition received (w : Response) : gmap string (list string) :=
  (λ v, [v]) <$> Header w.

(** ** More concrete inputs *)

(** A context that is done from the pass [k] on. *)
Definition cancelled_from (k : nat) : nat → bool := λ i, (k <=? i)%nat.

(** The answer a client gets to a [HEAD] request from a peer whose handler
    returned [r]. *)
Definition peer_head (r : outcome Response) : string → result HeadResponse :=
  λ _, match r with
       | Returned w =>
           Ok {| HeadStatusCode := StatusCode w; HeadStatus := "200 OK";
                 HeadHeader := received w |}
       | Panicked why => Err (ErrEnv why)
       end.

(** An origin that announces 4096 bytes. *)
Definition head_4096 : string → result HeadResponse :=
  λ _, Ok {| HeadStatusCode := 200; HeadStatus := "200 OK";
             HeadHeader := query [("Content-Length", "4096")] |}.

(** ** Replaying the calls of the pump *)

Section Replay.

Context {W : Type} `{WriteSeeker W}.

(** The call [c] made on [d]: the destination it leaves, the call with
    the count it returned, and its error. *)
Definition made (d : W) (c : dstCall) : W * dstCall * option error :=
  match c with
  | CallSeek n => let '(d', e) := ws_Seek d n in (d', CallSeek n, e)
  | CallWrite p _ => let '(d', nw, e) := ws_Write d p in (d', CallWrite p nw, e)
  end.

(** The calls [cs] made in order from [d]: each with the error it
    returned, and the destination the last one leaves. *)
Fixpoint replay (d : W) (cs : list dstCall) : list (dstCall * option error) * W :=
  match cs with
  | [] => ([], d)
  | c :: cs' =>
      let '(d', c', e) := made d c in
      let '(tr, d'') := replay d' cs' in ((c', e) :: tr, d'')
  end.

End Replay.

(** * Properties *)

(** ** The registry and its two indices *)

Import Registry.

Lemma inv_init : inv InitService [].
Proof.
  split; simpl.
  - constructor.
  - intros a Ha. by apply elem_of_nil in Ha.
  - intros k a. rewrite lookup_empty. split; [done|].
    intros [Ha _]. by apply elem_of_nil in Ha.
  - intros u a. rewrite lookup_empty. split; [done|].
    intros [Ha _]. by apply elem_of_nil in Ha.
Qed.

Lemma inv_register s live filePath uuid diskUUID expectedChecksum size sf s' :
  inv s live →
  checkAndInitSyncFile s filePath uuid diskUUID expectedChecksum size = (Ok sf, s') →
  inv s' (sf :: live).
Proof.
  intros [Hnd Hal Hp Hu]. unfold checkAndInitSyncFile.
  destruct (decide (is_Some (filePathMap s !! filePath))) as [|Hfp]; [done|].
  destruct (decide (is_Some (fileUUIDMap s !! uuid))) as [|Hfu]; [done|].
  intros [= <- <-].
  apply eq_None_not_Some in Hfp, Hfu.
  set (n := length (objects s)).
  assert (Hfresh : n ∉ live) by (intros Hin; apply Hal in Hin; lia).
  assert (Hnew : ∀ (f : SyncingFile → string) a,
    f <$> (objects s ++ [NewSyncingFile filePath uuid diskUUID expectedChecksum size]) !! a
    = if decide (a = n) then Some (f (NewSyncingFile filePath uuid diskUUID expectedChecksum size))
      else f <$> objects s !! a).
  { intros f a. destruct (decide (a = n)) as [->|Hne].
    - by rewrite list_lookup_middle.
    - destruct (decide (a < n)%nat).
      + by rewrite lookup_app_l.
      + rewrite !lookup_ge_None_2; [done| |]; rewrite ?length_app; simpl; lia. }
  split; simpl.
  - by constructor.
  - intros a [->|Ha]%elem_of_cons; rewrite length_app; simpl; [lia|].
    apply Hal in Ha. lia.
  - intros k a. rewrite Hnew, elem_of_cons, lookup_insert.
    destruct (decide (filePath = k)) as [<-|Hk]; destruct (decide (a = n)) as [->|Ha].
    + simpl. naive_solver.
    + split; [naive_solver|]. intros [[?|Hin] Hobj]; [done|].
      assert (filePathMap s !! filePath = Some a) by (apply Hp; done). congruence.
    + split.
      * intros Hin%Hp. by destruct Hin.
      * intros [_ [= ?]]. done.
    + rewrite Hp. naive_solver.
  - intros u a. rewrite Hnew, elem_of_cons, lookup_insert.
    destruct (decide (uuid = u)) as [<-|Hk]; destruct (decide (a = n)) as [->|Ha].
    + simpl. naive_solver.
    + split; [naive_solver|]. intros [[?|Hin] Hobj]; [done|].
      assert (fileUUIDMap s !! uuid = Some a) by (apply Hu; done). congruence.
    + split.
      * intros Hin%Hu. by destruct Hin.
      * intros [_ [= ?]]. done.
    + rewrite Hu. naive_solver.
Qed.

Lemma register_failed_unchanged s filePath uuid diskUUID expectedChecksum size e s' :
  checkAndInitSyncFile s filePath uuid diskUUID expectedChecksum size = (Err e, s') →
  s' = s.
Proof.
  unfold checkAndInitSyncFile. repeat case_decide; congruence.
Qed.

Lemma inv_cleanup s fs live filePath deleteFile s' fs' :
  inv s live →
  cleanup s fs filePath deleteFile = (s', fs') →
  inv s' (filter (λ a, sf_filePath <$> objects s !! a ≠ Some filePath) live).
Proof.
  intros [Hnd Hal Hp Hu]. unfold cleanup.
  destruct (filePathMap s !! filePath) as [q|] eqn:Hq; simpl.
  - destruct (proj1 (Hp _ _) Hq) as [Hqlive Hqpath].
    destruct (objects s !! q) as [o|] eqn:Ho; [|done].
    simpl in Hqpath. injection Hqpath as Hqpath.
    assert (Hqu : fileUUIDMap s !! sf_uuid o = Some q).
    { apply Hu. split; [done|]. by rewrite Ho. }
    intros [= <- <-]. split; simpl.
    + by apply NoDup_filter.
    + intros a [_ Ha]%list_elem_of_filter. by apply Hal.
    + intros k a. rewrite list_elem_of_filter, lookup_delete.
      destruct (decide (filePath = k)) as [<-|Hk].
      * split; [done|]. by intros [[Hne _] Heq].
      * rewrite Hp. split; [|naive_solver].
        intros [Hin Heq]. repeat split; try done. rewrite Heq. congruence.
    + intros u a. rewrite list_elem_of_filter, lookup_delete.
      destruct (decide (sf_uuid o = u)) as [<-|Hne].
      * split; [done|]. intros [[Hpath Hin] Heq].
        assert (a = q) as -> by (assert (fileUUIDMap s !! sf_uuid o = Some a)
                                   by (by apply Hu); congruence).
        rewrite Ho in Hpath. simpl in Hpath. congruence.
      * rewrite Hu. split; [|naive_solver].
        intros [Hin Heq]. repeat split; try done. intros Hpath.
        assert (a = q) as -> by (assert (filePathMap s !! filePath = Some a)
                                   by (by apply Hp); congruence).
        rewrite Ho in Heq. simpl in Heq. congruence.
  - intros [= <- <-].
    assert (Hall : ∀ a, a ∈ live → sf_filePath <$> objects s !! a ≠ Some filePath).
    { intros a Hin Hpath.
      assert (filePathMap s !! filePath = Some a) by (by apply Hp). congruence. }
    split; simpl.
    + by apply NoDup_filter.
    + intros a [_ Ha]%list_elem_of_filter. by apply Hal.
    + intros k a. rewrite list_elem_of_filter, lookup_delete.
      destruct (decide (filePath = k)) as [<-|Hk].
      * split; [done|]. by intros [[Hne _] Heq].
      * rewrite Hp. split; [|naive_solver].
        intros [Hin Heq]. repeat split; try done. by apply Hall.
    + intros u a. rewrite list_elem_of_filter, Hu.
      split; [|naive_solver]. intros [Hin Heq]. repeat split; try done.
      by apply Hall.
Qed.

Lemma inv_step st o :
  inv st.1.1 st.2 → inv (step st o).1.1 (step st o).2.
Proof.
  destruct st as [[s fs] live]. simpl. intros Hinv.
  destruct o as [fp u du ec sz|fp del]; simpl.
  - destruct (checkAndInitSyncFile s fp u du ec sz) as [[sf|e] s'] eqn:Hreg; simpl.
    + by eapply inv_register.
    + by rewrite (register_failed_unchanged _ _ _ _ _ _ _ _ Hreg).
  - destruct (cleanup s fs fp del) as [s' fs'] eqn:Hcl. simpl.
    by eapply inv_cleanup.
Qed.

Lemma inv_run fs ops : inv (run fs ops).1.1 (run fs ops).2.
Proof.
  unfold run.
  assert (Hgen : ∀ st, inv st.1.1 st.2 →
                       inv (foldl step st ops).1.1 (foldl step st ops).2).
  { induction ops as [|o ops IH]; intros st Hst; simpl; [done|].
    apply IH. by apply inv_step. }
  apply Hgen. simpl. apply inv_init.
Qed.

Lemma inv_consistent s live : inv s live → consistent s live.
Proof.
  intros [Hnd Hal Hp Hu]. split.
  - done.
  - intros sf Hin. destruct (lookup_lt_is_Some_2 _ _ (Hal _ Hin)) as [o Ho].
    exists o. split; [done|]. split.
    + intros k. rewrite Hp, Ho. simpl. naive_solver.
    + intros u. rewrite Hu, Ho. simpl. naive_solver.
  - intros k sf Hk. by apply Hp in Hk as [? _].
  - intros u sf Hk. by apply Hu in Hk as [? _].
Qed.

(** C1.  After every finite sequence of register and cleanup operations
    on a fresh service, each live syncing file is counted once and has
    exactly one entry in the path index, under its own path, and exactly
    one in the uuid index, under its own uuid, both holding the address of
    the same object; and every entry of either index holds the address of
    a live file. *)
Theorem index_consistency (fs : FS) (ops : list op) :
  consistent (run fs ops).1.1 (run fs ops).2.
Proof.
  apply inv_consistent, inv_run.
Qed.

(** A small history: two files are registered, a third register call meets
    a taken path, and the first file is forgotten. *)
Example run_sample :
  (Registry.run ∅
     [Registry.Register "/data/a/backing" "u1" "d" "" 512;
      Registry.Register "/data/b/backing" "u2" "d" "" 0;
      Registry.Register "/data/a/backing" "u3" "d" "" 0;
      Registry.Cleanup "/data/a/backing" false]).2 = [1%nat].
Proof. vm_compute. reflexivity. Qed.

(** C2.  A register call whose path is already a key of the path index, or
    whose uuid is already a key of the uuid index (under whatever path),
    fails with the already-exists error of its case and returns the service
    as it was: no object is allocated and neither map changes. *)
Theorem register_conflict (s : Service)
    (filePath uuid diskUUID expectedChecksum : string) (size : Z) :
  is_Some (filePathMap s !! filePath) ∨ is_Some (fileUUIDMap s !! uuid) →
  ∃ e, checkAndInitSyncFile s filePath uuid diskUUID expectedChecksum size = (Err e, s)
       ∧ (e = ErrFileExists filePath ∨ e = ErrUUIDExists filePath uuid).
Proof.
  intros Hreg. unfold checkAndInitSyncFile.
  destruct (decide (is_Some (filePathMap s !! filePath))) as [|Hfp].
  - eexists. split; [done|]. by left.
  - destruct (decide (is_Some (fileUUIDMap s !! uuid))) as [|Hfu].
    + eexists. split; [done|]. by right.
    + by destruct Hreg.
Qed.

Lemma register_conflict_witness :
  ∃ e, checkAndInitSyncFile one_file "/data/other/backing" "u1" "disk" "" 0
       = (Err e, one_file)
       ∧ (e = ErrFileExists "/data/other/backing"
          ∨ e = ErrUUIDExists "/data/other/backing" "u1").
Proof.
  apply (register_conflict one_file "/data/other/backing" "u1" "disk" "" 0).
  right. vm_compute. eauto.
Defined.

(** ** Validation of the register requests *)

Lemma rem_sector_nonzero (n : Z) :
  Z.rem n types.DefaultSectorSize ≠ 0 ↔ n mod types.DefaultSectorSize ≠ 0.
Proof.
  unfold types.DefaultSectorSize.
  rewrite Z.rem_divide, Z.mod_divide by lia. done.
Qed.

Lemma not_divide_rem (n : Z) :
  ¬ (types.DefaultSectorSize | n) → Z.rem n types.DefaultSectorSize ≠ 0.
Proof.
  unfold types.DefaultSectorSize. rewrite Z.rem_divide by lia. done.
Qed.

Section HandlerProperties.

Variable Send : Service → ptr → string → option error.
Variable WaitForStateNonPending : Service → ptr → option error.
Variable IdleTimeoutCopyToFile : Service → ptr → list byte → string → option error.
Variable GetFileReader : SyncingFile → FS → result (list byte).
Variable gzip : list byte → list byte.

(** C5.  A fetch, upload or receive-from-peer request whose [size] is an
    integer that is not a multiple of 512 fails with an invalid-argument
    error, starts no task and returns the service as it was: no syncing
    file is created and the registry is unchanged. *)
Theorem unaligned_size_rejected (s : Service) (request : Request) (size : Z) :
  strconv.ParseInt (Get_param (Query request) "size") = Ok size →
  ¬ (types.DefaultSectorSize | size) →
  (∃ e, invalid_argument e = true ∧ doFetch s request = (Some e, s, None))
  ∧ (∃ e, invalid_argument e = true
          ∧ doUploadFromRequest WaitForStateNonPending IdleTimeoutCopyToFile s request
            = (Some e, s, None))
  ∧ (∃ e, invalid_argument e = true ∧ doReceiveFromPeer s request = (Some e, s, None)).
Proof.
  intros Hparse Hsize%not_divide_rem.
  unfold doFetch, doUploadFromRequest, doReceiveFromPeer, failed.
  rewrite Hparse.
  repeat split; repeat case_decide; try done;
    (eexists; split; [|reflexivity]; reflexivity).
Qed.

Ltac answered := eexists; split; [|reflexivity]; reflexivity.

Lemma missing_false q key : Get_param q key ≠ "" → missing q key = false.
Proof. intros. unfold missing. by apply bool_decide_eq_false_2. Qed.

Lemma size_aligned_false q n :
  strconv.ParseInt (Get_param q "size") = Ok n →
  Z.rem n types.DefaultSectorSize = 0 →
  size_unaligned q = false.
Proof.
  intros Hp Hrem. unfold size_unaligned. rewrite Hp.
  apply negb_false_iff, Z.eqb_eq.
  destruct (decide (n mod types.DefaultSectorSize = 0)) as [|Hne]; [done|].
  by apply rem_sector_nonzero in Hne.
Qed.

Lemma parse_int_num_error fn str e :
  strconv.parse_int fn str = Err e →
  e = ErrNumSyntax fn str ∨ e = ErrNumRange fn str.
Proof.
  unfold strconv.parse_int. destruct str as [|c rest]; [intros [= <-]; by left|].
  destruct (strconv.ParseUint _) as [[|]|un];
    try (intros [= <-]; (by left) || by right).
  repeat case_match; try done; intros [= <-]; by right.
Qed.

Lemma parse_int_err fn str e :
  strconv.parse_int fn str = Err e → invalid_argument e = true.
Proof. by intros [->| ->]%parse_int_num_error. Qed.

Lemma file_type_allowed (fileType : string) :
  ¬ ((if decide (fileType = "") then "raw" else fileType) ≠ "raw"
     ∧ (if decide (fileType = "") then "raw" else fileType) ≠ "qcow2") →
  allowed fileType [""; "raw"; "qcow2"] = true.
Proof.
  intros Hft. apply bool_decide_eq_true_2. rewrite !elem_of_cons.
  destruct (decide (fileType = "")); [tauto|].
  destruct (decide (fileType = "raw")); [tauto|].
  destruct (decide (fileType = "qcow2")); tauto.
Qed.

Ltac present Hm :=
  repeat match goal with
    | Hn : Get_param _ _ ≠ "" |- _ =>
        rewrite (missing_false _ _ Hn) in Hm; clear Hn
    end;
  simpl in Hm.

(** C8, as the code has it.  A register request (fetch, download-from-url,
    clone, restore-from-backup-url, upload, receive-from-peer) with a
    missing or malformed query parameter, a size that is not
    sector-aligned or a bad encryption mode among them, is answered with
    HTTP status 500 and the line of an invalid-argument error; the service
    is returned as it was and no task is started. *)
Theorem malformed_request_answered_500 (ep : endpoint) (s : Service)
    (request : Request) :
  malformed ep request = true →
  ∃ e, invalid_argument e = true
       ∧ serve WaitForStateNonPending IdleTimeoutCopyToFile ep s newResponse request
         = (http_Error newResponse e StatusInternalServerError, s, None)
       ∧ StatusCode (serve WaitForStateNonPending IdleTimeoutCopyToFile ep s newResponse request).1.1 = StatusInternalServerError.
Proof using WaitForStateNonPending IdleTimeoutCopyToFile.
  clear Send GetFileReader gzip. intros Hm.
  assert (Hgoal : ∃ e, invalid_argument e = true
       ∧ serve WaitForStateNonPending IdleTimeoutCopyToFile ep s newResponse request
         = (http_Error newResponse e StatusInternalServerError, s, None)).
  2:{ destruct Hgoal as (e & He & ->). exists e. done. }
  destruct ep; cbn [malformed] in Hm;
    unfold serve, Fetch, DownloadFromURL, CloneFromBackingImage,
      RestoreFromBackupURL, UploadFromRequest, ReceiveFromPeer,
      doFetch, doDownloadFromURL, doCloneFromBackingImage,
      doRestoreFromBackupURL, doUploadFromRequest, doReceiveFromPeer, failed;
    unfold types.DataSourceTypeCloneParameterBackingImage,
      types.DataSourceTypeCloneParameterBackingImageUUID,
      types.DataSourceTypeCloneParameterEncryption,
      types.DataSourceTypeRestoreParameterBackupURL,
      types.EncryptionTypeEncrypt, types.EncryptionTypeDecrypt,
      types.EncryptionTypeIgnore, types.SyncingFileTypeEmpty,
      types.SyncingFileTypeRaw, types.SyncingFileTypeQcow2.
  - (* fetch *)
    repeat (case_decide; [answered|]). present Hm.
    destruct (strconv.ParseInt _) as [n|e0] eqn:Hparse.
    + case_decide; [answered|]. by rewrite (size_aligned_false _ n) in Hm by done.
    + exists e0. split; [by eapply parse_int_err|done].
  - (* download-from-url *)
    repeat (case_decide; [answered|]). by present Hm.
  - (* clone *)
    case_decide; [answered|]. case_decide; [answered|].
    case_decide as Henc; [answered|].
    case_decide; [answered|]. case_decide; [answered|]. present Hm.
    unfold allowed in Hm. rewrite bool_decide_eq_true_2 in Hm; [by simpl in Hm|].
    rewrite !elem_of_cons.
    destruct (decide (Get_param (Query request) "encryption" = "encrypt")); [tauto|].
    destruct (decide (Get_param (Query request) "encryption" = "decrypt")); [tauto|].
    destruct (decide (Get_param (Query request) "encryption" = "ignore")); tauto.
  - (* restore-from-backup-url *)
    repeat (case_decide; [answered|]). present Hm.
    destruct (strconv.Atoi _) as [n|e0] eqn:Hparse; [done|].
    eexists. split; [|reflexivity]. simpl.
    by apply parse_int_num_error in Hparse as [->| ->].
  - (* upload *)
    repeat (case_decide; [answered|]). present Hm.
    destruct (strconv.ParseInt _) as [n|e0] eqn:Hparse.
    + case_decide; [answered|]. by rewrite (size_aligned_false _ n) in Hm by done.
    + exists e0. split; [by eapply parse_int_err|done].
  - (* receive-from-peer *)
    case_decide; [answered|]. case_decide; [answered|]. present Hm.
    destruct (decide (_ ≠ "raw" ∧ _ ≠ "qcow2")) as [|Hft]; [answered|].
    rewrite (file_type_allowed _ Hft) in Hm. simpl in Hm.
    destruct (strconv.ParseInt (Get_param (Query request) "size"))
      as [n|e0] eqn:Hparse.
    + destruct (decide (Z.rem n types.DefaultSectorSize ≠ 0)) as [|Hrem];
        [answered|].
      apply dec_stable in Hrem.
      rewrite (size_aligned_false _ n) in Hm by done. simpl in Hm.
      destruct (strconv.ParseInt (Get_param (Query request) "port"))
        as [port|e1] eqn:Hport; [done|].
      exists e1. split; [by eapply parse_int_err|done].
    + exists e0. split; [by eapply parse_int_err|done].
Qed.

(** C6.  A download request whose id decodes to the path of a registered
    syncing file that is not in [ready] is answered, whatever its method
    and whatever is on the disk, with status 500 and a body that holds
    the line of the non-ready error and nothing else: no byte of the file
    is written to the client. *)
Theorem non_ready_not_streamed (s : Service) (fs : FS)
    (readFault : option (nat * error)) (request : Request)
    (filePath : string) (sf : SyncingFile) :
  url.QueryUnescape (mux_Vars_id request) = Ok filePath →
  lookupSyncFile s filePath = Some sf →
  state sf ≠ types.StateReady →
  ∃ w, DownloadToDst GetFileReader gzip s fs readFault newResponse request
       = Returned w
       ∧ StatusCode w = StatusInternalServerError
       ∧ Body w = [ErrorLine (ErrNonReady (types.State_string (state sf)))].
Proof.
  intros Hid Hsf Hstate. unfold DownloadToDst.
  rewrite Hid, Hsf. rewrite decide_True by done.
  eexists. split; [reflexivity|]. done.
Qed.

Lemma cleanup_unknown (s : Service) (fs : FS) (filePath : string) (deleteFile : bool) :
  filePathMap s !! filePath = None →
  cleanup s fs filePath deleteFile = (s, fs).
Proof.
  intros Hnone. unfold cleanup. rewrite Hnone. simpl.
  rewrite delete_id by done. by destruct s.
Qed.

(** C9, as the code has it.  When the id of a request decodes to a path
    that names no registered syncing file: get answers with status 404
    and the line of the not-found error; delete and forget answer with
    status 200, write nothing and leave the registry and the disk as they
    were; send-to-peer answers with status 500 and one error line, that of
    its not-found error when the path is not empty and the request has a
    [to-address], and otherwise that of the missing path or of the missing
    address. *)
Theorem unknown_id_answers (s : Service) (fs : FS) (request : Request)
    (filePath : string) :
  url.QueryUnescape (mux_Vars_id request) = Ok filePath →
  filePathMap s !! filePath = None →
  (StatusCode (Get s newResponse request) = StatusNotFound
   ∧ Body (Get s newResponse request) = [ErrorLine (ErrCanNotFind filePath)])
  ∧ (Delete s fs newResponse request = (newResponse, s, fs)
     ∧ Forget s fs newResponse request = (newResponse, s, fs)
     ∧ StatusCode newResponse = StatusOK)
  ∧ (StatusCode (SendToPeer Send s newResponse request) = StatusInternalServerError
     ∧ Body (SendToPeer Send s newResponse request)
       = [ErrorLine
            (if decide (filePath = "") then Errorf "no filePath for file sending"
             else if decide (Get_param (Query request) "to-address" = "")
                  then Errorf "no toAddress for file sending"
                  else ErrNotFoundForSending filePath)]).
Proof.
  intros Hid Hnone. repeat split.
  - unfold Get, lookupSyncFile. by rewrite Hid, Hnone.
  - unfold Get, lookupSyncFile. by rewrite Hid, Hnone.
  - unfold Delete, doCleanup. by rewrite Hid, cleanup_unknown.
  - unfold Forget, doCleanup. by rewrite Hid, cleanup_unknown.
  - unfold SendToPeer, doSendToPeer. rewrite Hid, Hnone.
    by repeat case_decide.
  - unfold SendToPeer, doSendToPeer. rewrite Hid, Hnone.
    by repeat case_decide.
Qed.

End HandlerProperties.

Lemma unaligned_size_rejected_witness :
  (∃ e, invalid_argument e = true
        ∧ doFetch InitService request_size_4097 = (Some e, InitService, None))
  ∧ (∃ e, invalid_argument e = true
          ∧ doUploadFromRequest waitOk copyOk InitService request_size_4097
            = (Some e, InitService, None))
  ∧ (∃ e, invalid_argument e = true
          ∧ doReceiveFromPeer InitService request_size_4097
            = (Some e, InitService, None)).
Proof.
  apply (unaligned_size_rejected waitOk copyOk InitService request_size_4097 4097).
  - vm_compute. reflexivity.
  - unfold types.DefaultSectorSize. intros [k Hk]. lia.
Defined.

Lemma non_ready_not_streamed_witness :
  ∃ w, DownloadToDst readerOf gzipId one_file ∅ None newResponse
         (request_on "GET" "%2Fdata%2Fa%2Fbacking")
       = Returned w
       ∧ StatusCode w = StatusInternalServerError
       ∧ Body w = [ErrorLine (ErrNonReady "pending")].
Proof.
  apply (non_ready_not_streamed readerOf gzipId one_file ∅ None
           (request_on "GET" "%2Fdata%2Fa%2Fbacking") "/data/a/backing"
           (NewSyncingFile "/data/a/backing" "u1" "disk" "" 4096)).
  - vm_compute. reflexivity.
  - vm_compute. reflexivity.
  - simpl. discriminate.
Defined.

(** C8 fails on the code: the fetch request of scenario D has a size that is
    not sector-aligned and is answered with status 500, not 400. *)
Lemma unaligned_fetch_not_400 :
  malformed EpFetch request_size_4097 = true
  ∧ StatusCode (Fetch InitService newResponse request_size_4097).1.1
    = StatusInternalServerError
  ∧ StatusCode (Fetch InitService newResponse request_size_4097).1.1
    ≠ StatusBadRequest.
Proof.
  repeat split; vm_compute; congruence.
Qed.

Lemma malformed_request_answered_500_witness :
  ∃ e, invalid_argument e = true
       ∧ serve waitOk copyOk EpUpload InitService newResponse request_size_4097
         = (http_Error newResponse e StatusInternalServerError, InitService, None)
       ∧ StatusCode (serve waitOk copyOk EpUpload InitService newResponse
                       request_size_4097).1.1
         = StatusInternalServerError.
Proof.
  apply (malformed_request_answered_500 waitOk copyOk EpUpload InitService
           request_size_4097).
  vm_compute. reflexivity.
Defined.

(** C9 fails on the code: on a service that has no file ["/data/x/backing"],
    delete answers with status 200 and send-to-peer with status 500,
    neither with 404. *)
Lemma unknown_id_not_404 :
  StatusCode (Delete one_file ∅ newResponse
                (request_on "DELETE" "%2Fdata%2Fx%2Fbacking")).1.1 = StatusOK
  ∧ StatusCode (Delete one_file ∅ newResponse
                  (request_on "DELETE" "%2Fdata%2Fx%2Fbacking")).1.1 ≠ StatusNotFound
  ∧ StatusCode (SendToPeer sendOk one_file newResponse
                  (request_on "POST" "%2Fdata%2Fx%2Fbacking"))
    = StatusInternalServerError
  ∧ StatusCode (SendToPeer sendOk one_file newResponse
                  (request_on "POST" "%2Fdata%2Fx%2Fbacking")) ≠ StatusNotFound.
Proof.
  repeat split; vm_compute; congruence.
Qed.

Lemma unknown_id_answers_witness :
  (StatusCode (Get one_file newResponse (request_on "GET" "%2Fdata%2Fx%2Fbacking"))
   = StatusNotFound
   ∧ Body (Get one_file newResponse (request_on "GET" "%2Fdata%2Fx%2Fbacking"))
     = [ErrorLine (ErrCanNotFind "/data/x/backing")])
  ∧ (Delete one_file ∅ newResponse (request_on "GET" "%2Fdata%2Fx%2Fbacking")
     = (newResponse, one_file, ∅)
     ∧ Forget one_file ∅ newResponse (request_on "GET" "%2Fdata%2Fx%2Fbacking")
       = (newResponse, one_file, ∅)
     ∧ StatusCode newResponse = StatusOK)
  ∧ (StatusCode (SendToPeer sendOk one_file newResponse
                   (request_on "GET" "%2Fdata%2Fx%2Fbacking"))
     = StatusInternalServerError
     ∧ Body (SendToPeer sendOk one_file newResponse
               (request_on "GET" "%2Fdata%2Fx%2Fbacking"))
       = [ErrorLine (ErrNotFoundForSending "/data/x/backing")]).
Proof.
  apply (unknown_id_answers sendOk one_file ∅
           (request_on "GET" "%2Fdata%2Fx%2Fbacking") "/data/x/backing").
  - vm_compute. reflexivity.
  - vm_compute. reflexivity.
Defined.

(** ** The copy pump *)

Lemma all_zero_replicate (data : list byte) :
  all_zero data = true ↔ data = replicate (length data) x00.
Proof.
  unfold all_zero. induction data as [|b data IH]; simpl; [done|].
  rewrite andb_true_iff, bool_decide_eq_true, IH. split.
  - intros [-> <-]. done.
  - intros [= -> Heq]. done.
Qed.

Lemma bytes_Equal_zero (data : list byte) :
  (length data ≤ DownloadBufferSize)%nat →
  bytes_Equal data (take (length data) (replicate DownloadBufferSize x00))
  = all_zero data.
Proof.
  intros Hlen. rewrite take_replicate, Nat.min_l by done.
  unfold bytes_Equal. destruct (all_zero data) eqn:Hz.
  - apply bool_decide_eq_true. by apply all_zero_replicate.
  - apply bool_decide_eq_false. intros Heq.
    apply all_zero_replicate in Heq. congruence.
Qed.

Section PumpProperties.

Context {W : Type} `{WriteSeeker W}.

(** The calls one pass adds for the bytes of its read. *)
Lemma handle_calls (writeZero : bool) (data : list byte) (st : pump W) :
  reads (handle writeZero data st) = reads st
  ∧ ∃ cs, calls (handle writeZero data st) = calls st ++ cs
      ∧ (cs = []
         ∨ (writeZero = false ∧ all_zero data = true
            ∧ cs = [CallSeek (Z.of_nat (length data))])
         ∨ (∃ n, cs = [CallWrite data n]
                 ∧ (writeZero = false → all_zero data = false)))
      ∧ ((length data ≤ DownloadBufferSize)%nat → panicked st = false →
         panicked (handle writeZero data st) = false
         ∧ (data = [] → cs = []) ∧ (data ≠ [] → cs ≠ [])).
Proof.
  unfold handle.
  destruct (0 <? length data)%nat eqn:Hpos.
  2:{ split; [done|]. exists []. rewrite app_nil_r.
      apply Nat.ltb_ge in Hpos. destruct data; simpl in *; [|lia].
      repeat split; auto. }
  apply Nat.ltb_lt in Hpos.
  destruct (DownloadBufferSize <? length data)%nat eqn:Hbig.
  { split; [done|]. exists []. rewrite app_nil_r. simpl.
    apply Nat.ltb_lt in Hbig. repeat split; auto; lia. }
  apply Nat.ltb_ge in Hbig. rewrite bytes_Equal_zero by done.
  assert (Hne : data ≠ []) by (destruct data; simpl in *; [lia|done]).
  destruct writeZero; simpl.
  - destruct (ws_Write (dst st) data) as [[d nw] [e|]]; simpl;
      (split; [done|]); eexists; (split; [reflexivity|]);
      (split; [right; right; eexists; split; [reflexivity|done]|]);
      intros _ _; repeat split; done.
  - destruct (all_zero data) eqn:Hz.
    + destruct (ws_Seek (dst st) (Z.of_nat (length data))) as [d [e|]]; simpl;
        (split; [done|]); eexists; (split; [reflexivity|]);
        (split; [right; left; done|]);
        intros _ _; repeat split; done.
    + destruct (ws_Write (dst st) data) as [[d nw] [e|]]; simpl;
        (split; [done|]); eexists; (split; [reflexivity|]);
        (split; [right; right; eexists; split; [reflexivity|done]|]);
        intros _ _; repeat split; done.
Qed.

(** A property that holds at the head of the loop, is kept by recording
    an error and by one pass over a read, holds of what the loop returns. *)
Lemma copyLoop_invariant (P : pump W → Prop) (Q : read → Prop)
    (writeZero : bool) (ctxDone : nat → bool) :
  (∀ st e, P st → P (with_err (Some e) st)) →
  (∀ st rd, Q rd → err st = None → panicked st = false → P st →
            P (handle writeZero rd.1 (counted rd st))) →
  Q eof_read →
  ∀ src i st, Forall Q src → err st = None → panicked st = false → P st →
              P (copyLoop writeZero ctxDone i src st).
Proof.
  intros Herr Hpass Heof src.
  induction src as [|[data rErr] src IH]; intros i st Hsrc He Hp Hst; simpl.
  - destruct (ctxDone i); [by apply Herr|]. by apply (Hpass st eof_read).
  - destruct (ctxDone i); [by apply Herr|].
    apply Forall_cons in Hsrc as [Hrd Hsrc].
    pose proof (Hpass st (data, rErr) Hrd He Hp Hst) as Hnext. simpl in Hnext.
    destruct (panicked (handle _ _ _)) eqn:Hp'; [done|].
    destruct (err (handle _ _ _)) eqn:He'; [done|].
    destruct rErr as [e|]; [|by apply IH].
    destruct e; try (by apply Herr); done.
Qed.

(** The reads the pump made are the first reads of the source. *)
Lemma reads_prefix (writeZero : bool) (ctxDone : nat → bool) (src : list read) (d : W) :
  reads (IdleTimeoutCopy ctxDone src d writeZero) `prefix_of` src ++ [eof_read].
Proof.
  unfold IdleTimeoutCopy.
  assert (Hgen : ∀ src i st pre,
    reads st = pre →
    reads (copyLoop writeZero ctxDone i src st) `prefix_of` pre ++ src ++ [eof_read]).
  { clear src. induction src as [|[data rErr] src IH]; intros i st pre Hpre; simpl.
    - destruct (ctxDone i); simpl; rewrite Hpre; [by apply prefix_app_r|done].
    - destruct (ctxDone i); simpl; [rewrite Hpre; by apply prefix_app_r|].
      destruct (handle_calls writeZero data (counted (data, rErr) st)) as [Hrd _].
      simpl in Hrd. rewrite Hpre in Hrd.
      assert (Hhere : reads (handle writeZero data (counted (data, rErr) st))
                      `prefix_of` pre ++ (data, rErr) :: src ++ [eof_read]).
      { rewrite Hrd. apply prefix_app, prefix_cons, prefix_nil. }
      destruct (panicked _); [done|].
      destruct (err _); [done|].
      destruct rErr as [e|].
      + destruct e; done.
      + rewrite (IH (S i) _ (pre ++ [(data, None)]) Hrd).
        by rewrite <- app_assoc. }
  apply (Hgen src 0%nat (pump_init d) []). done.
Qed.

Lemma bytes_handed_app (cs cs' : list dstCall) :
  bytes_handed (cs ++ cs') = bytes_handed cs + bytes_handed cs'.
Proof. unfold bytes_handed. induction cs as [|c cs IH]; simpl; lia. Qed.

Lemma bytes_read_app (rs rs' : list read) :
  bytes_read (rs ++ rs') = bytes_read rs + bytes_read rs'.
Proof. unfold bytes_read. induction rs as [|c cs IH]; simpl; lia. Qed.

Lemma nonzero_bytes_read_app (rs rs' : list read) :
  nonzero_bytes_read (rs ++ rs') = nonzero_bytes_read rs + nonzero_bytes_read rs'.
Proof. unfold nonzero_bytes_read. induction rs as [|c cs IH]; simpl; lia. Qed.

Lemma bytes_written_handed (cs : list dstCall) :
  Forall honoured cs → bytes_written cs ≤ bytes_handed cs.
Proof.
  induction 1 as [|c cs Hc _ IH]; simpl; [done|].
  destruct c; simpl in *; lia.
Qed.

(** The bytes handed to [Write] are bytes that were read, and in sparse
    mode bytes read in a buffer that is not all zero. *)
Lemma handed_bound (writeZero : bool) (ctxDone : nat → bool) (src : list read) (d : W) :
  let r := IdleTimeoutCopy ctxDone src d writeZero in
  bytes_handed (calls r) ≤ bytes_read (reads r)
  ∧ (writeZero = false → bytes_handed (calls r) ≤ nonzero_bytes_read (reads r)).
Proof.
  unfold IdleTimeoutCopy.
  apply (copyLoop_invariant
           (λ st, bytes_handed (calls st) ≤ bytes_read (reads st)
                  ∧ (writeZero = false →
                     bytes_handed (calls st) ≤ nonzero_bytes_read (reads st)))
           (λ _, True)).
  - done.
  - intros st [data rErr] _ _ _ [Hall Hsparse]. simpl.
    destruct (handle_calls writeZero data (counted (data, rErr) st))
      as (Hrd & cs & Hcs & Hkind & _).
    rewrite Hrd, Hcs. simpl.
    rewrite bytes_handed_app, bytes_read_app, nonzero_bytes_read_app.
    unfold bytes_read at 2, nonzero_bytes_read at 2. simpl.
    destruct Hkind as [->|[(Hwz & Hz & ->)|(n & -> & Hnz)]]; simpl.
    + split; [lia|]. intros Hwz. specialize (Hsparse Hwz).
      destruct (all_zero data); lia.
    + split; [lia|]. intros _. specialize (Hsparse Hwz). rewrite Hz. lia.
    + split; [lia|]. intros Hwz. specialize (Hsparse Hwz).
      rewrite (Hnz Hwz). lia.
  - done.
  - by apply Forall_forall.
  - done.
  - done.
  - simpl. split; [done|]. done.
Qed.

(** C7.  In every execution of the pump in which [Write] returned counts
    within its contract, the bytes written to the destination are at most
    the bytes the reads returned; with [writeZero = false] they are at
    most the bytes read in buffers that are not entirely zero. *)
Theorem pump_write_bound (writeZero : bool) (ctxDone : nat → bool)
    (src : list read) (d : W) :
  Forall honoured (calls (IdleTimeoutCopy ctxDone src d writeZero)) →
  bytes_written (calls (IdleTimeoutCopy ctxDone src d writeZero))
  ≤ bytes_read (reads (IdleTimeoutCopy ctxDone src d writeZero))
  ∧ (writeZero = false →
     bytes_written (calls (IdleTimeoutCopy ctxDone src d writeZero))
     ≤ nonzero_bytes_read (reads (IdleTimeoutCopy ctxDone src d writeZero))).
Proof.
  intros Hhon%bytes_written_handed.
  destruct (handed_bound writeZero ctxDone src d) as [Hall Hsparse].
  split; [lia|]. intros Hwz. specialize (Hsparse Hwz). lia.
Qed.

(** C3.  When the pump runs with [writeZero = false] over reads that fit
    the buffer, the calls it issues on the destination are, in order, one
    for each read that returned bytes: a seek forward by their number when
    they are all zero, with no write for them, and otherwise one write of
    all of them. *)
Theorem sparse_zero_skip (ctxDone : nat → bool) (src : list read) (d : W) :
  Forall (λ rd, (length rd.1 ≤ DownloadBufferSize)%nat) src →
  panicked (IdleTimeoutCopy ctxDone src d false) = false
  ∧ Forall2 issued
      (filter (λ data, data ≠ []) (fst <$> reads (IdleTimeoutCopy ctxDone src d false)))
      (calls (IdleTimeoutCopy ctxDone src d false)).
Proof.
  intros Hfit. unfold IdleTimeoutCopy.
  apply (copyLoop_invariant
           (λ st, panicked st = false
                  ∧ Forall2 issued (filter (λ data, data ≠ []) (fst <$> reads st))
                      (calls st))
           (λ rd, (length rd.1 ≤ DownloadBufferSize)%nat)).
  - done.
  - intros st [data rErr] Hlen _ _ [Hpan Hcalls]. simpl in Hlen. simpl.
    destruct (handle_calls false data (counted (data, rErr) st))
      as (Hrd & cs & Hcs & Hkind & Hfits).
    destruct (Hfits Hlen Hpan) as (Hpan' & Hnil & Hcons).
    split; [done|]. rewrite Hrd, Hcs. simpl.
    rewrite fmap_app, filter_app. apply Forall2_app; [done|]. simpl.
    destruct (decide (data = [])) as [->|Hne].
    + rewrite Hnil by done. rewrite filter_cons_False by (intros ?; done).
      constructor.
    + rewrite filter_cons_True by done. rewrite filter_nil.
      destruct Hkind as [->|[(_ & Hz & ->)|(n & -> & Hnz)]].
      * by destruct Hcons.
      * repeat constructor. unfold issued. by rewrite Hz.
      * repeat constructor. unfold issued. rewrite Hnz by done. by exists n.
  - simpl. lia.
  - done.
  - done.
  - done.
  - simpl. split; [done|]. constructor.
Qed.

End PumpProperties.

(** ** The HTTP download handler *)

Lemma File_Truncate_length (f f' : File) (size : Z) :
  File_Truncate f size = (f', None) →
  0 ≤ size ∧ Z.of_nat (length (content f')) = size
  ∧ content f' = take (Z.to_nat size)
                   (content f ++ replicate (Z.to_nat size - length (content f)) x00).
Proof.
  unfold File_Truncate. destruct (truncateFault _); [done|].
  destruct (size <? 0) eqn:Hneg; [done|]. apply Z.ltb_ge in Hneg.
  intros [= <-]. simpl. repeat split; [done|].
  rewrite length_take, length_app, length_replicate. lia.
Qed.

Lemma File_Truncate_failed (f f' : File) (size : Z) (e : error) :
  File_Truncate f size = (f', Some e) → f' = f.
Proof.
  unfold File_Truncate. destruct (truncateFault _); [by intros [= <-]|].
  destruct (size <? 0); by intros [= <-].
Qed.

Lemma download_ends (net : Network) (d : DiskFaults) (ctxDone : nat → bool)
    (fs : FS) (url filePath : string) :
  download_end net d ctxDone fs url filePath
    (HTTPHandler_DownloadFromURL net d ctxDone fs url filePath).
Proof.
  unfold HTTPHandler_DownloadFromURL, os_Create.
  destruct (NewRequestWithContext net url) as [e|] eqn:Hnew; [by constructor|].
  destruct (Do net url) as [resp|e] eqn:Hdo; [|by constructor].
  destruct (decide (RespStatusCode resp ≠ StatusOK)) as [Hstatus|Hstatus];
    [by constructor|].
  apply dec_stable in Hstatus.
  destruct (createFault d) as [e|] eqn:Hcreate; simpl; [eapply end_create; eauto|].
  assert (Hreach : reaches_copy net d url resp) by done.
  destruct (panicked _) eqn:Hpanic; [eapply end_panic; eauto|].
  destruct (err _) as [e|] eqn:Hcopy; [eapply end_copy; eauto|].
  destruct (File_Truncate _ _) as [f [e|]] eqn:Htrunc.
  - pose proof (File_Truncate_failed _ _ _ _ Htrunc) as Hsame. subst f.
    eapply end_truncate; eauto.
  - eapply end_success; eauto.
Qed.

Lemma reaches_copy_resp (net : Network) (d : DiskFaults) (url : string)
    (resp resp' : HTTPResponse) :
  reaches_copy net d url resp → reaches_copy net d url resp' → resp' = resp.
Proof. intros (_ & Hdo & _) (_ & Hdo' & _). congruence. Qed.

(** C4.  Of a call of [HTTPHandler.DownloadFromURL] that returns: when it
    returns no error, the request was built and answered with status 200,
    the destination was created empty at the path whatever it held, the
    body went through the copy pump with [writeZero = false] without an
    error, and the file left at the path is the pump's output cut or
    extended to the returned count, so that its length is that count;
    and an error of building or sending the request, a status other than
    200, an error of creating the file, of the copy, or of the truncation is
    the error returned. *)
Theorem download_postcondition (net : Network) (d : DiskFaults)
    (ctxDone : nat → bool) (fs : FS) (url filePath : string)
    (written : Z) (failure : option error) (fs' : FS) (prog : list Z) :
  HTTPHandler_DownloadFromURL net d ctxDone fs url filePath
  = Returned (written, failure, fs', prog) →
  (failure = None →
   ∃ resp r, reaches_copy net d url resp
     ∧ r = IdleTimeoutCopy ctxDone (RespBody resp) (newFile d) false
     ∧ err r = None ∧ written = copied r ∧ prog = progress r
     ∧ ∃ c, fs' = <[filePath := c]> (<[filePath := []]> fs)
         ∧ Z.of_nat (length c) = written
         ∧ c = take (Z.to_nat written)
                 (content (dst r)
                  ++ replicate (Z.to_nat written - length (content (dst r))) x00))
  ∧ (∀ e, NewRequestWithContext net url = Some e → failure = Some e)
  ∧ (∀ e, NewRequestWithContext net url = None → Do net url = Err e →
       failure = Some e)
  ∧ (∀ resp, NewRequestWithContext net url = None → Do net url = Ok resp →
       RespStatusCode resp ≠ StatusOK →
       failure = Some (ErrStatus url (RespStatus resp)))
  ∧ (∀ resp e, NewRequestWithContext net url = None → Do net url = Ok resp →
       RespStatusCode resp = StatusOK → createFault d = Some e → failure = Some e)
  ∧ (∀ resp e, reaches_copy net d url resp →
       err (IdleTimeoutCopy ctxDone (RespBody resp) (newFile d) false) = Some e →
       failure = Some e)
  ∧ (∀ resp e, reaches_copy net d url resp →
       err (IdleTimeoutCopy ctxDone (RespBody resp) (newFile d) false) = None →
       (File_Truncate (dst (IdleTimeoutCopy ctxDone (RespBody resp) (newFile d) false))
          (copied (IdleTimeoutCopy ctxDone (RespBody resp) (newFile d) false))).2
       = Some e →
       failure = Some (ErrWrap e "failed to truncate the file after download")).
Proof.
  intros Hrun.
  pose proof (download_ends net d ctxDone fs url filePath) as Hend.
  rewrite Hrun in Hend. clear Hrun.
  assert (Hsame : ∀ resp resp0, reaches_copy net d url resp0 →
            reaches_copy net d url resp → resp = resp0)
    by (intros; by eapply reaches_copy_resp).
  inversion Hend as
    [e Hnew|e Hnew Hdo|resp0 Hnew Hdo Hstatus|resp0 e Hnew Hdo Hstatus Hcreate
    |resp0 r Hreach Hr Hpanic|resp0 r e Hreach Hr Hpanic Hcopy
    |resp0 r e Hreach Hr Hpanic Hcopy Htrunc|resp0 r f Hreach Hr Hpanic Hcopy Htrunc];
    subst.
  1-6: (repeat split; [done|intros; unfold reaches_copy in *; destruct_and?;
                       simplify_eq; try congruence..]).
  - match goal with
    | Ha : Do _ _ = Ok ?a, Hb : Do _ _ = Ok ?b, Ht : (File_Truncate _ _).2 = _ |- _ =>
        assert (b = a) as -> by congruence; rewrite Htrunc in Ht; simpl in Ht
    end. congruence.
  - apply File_Truncate_length in Htrunc as Hlen. destruct Hlen as (Hpos & Hlen & Hc).
    repeat split; [|intros; unfold reaches_copy in *; destruct_and?;
                    simplify_eq; try congruence..].
    + intros _. exists resp0, (IdleTimeoutCopy ctxDone (RespBody resp0) (newFile d) false).
      split; [exact Hreach|]. repeat split; try done. exists (content f). done.
    + match goal with
      | Ha : Do _ _ = Ok ?a, Hb : Do _ _ = Ok ?b, Ht : (File_Truncate _ _).2 = _ |- _ =>
          assert (b = a) as -> by congruence; rewrite Htrunc in Ht; simpl in Ht
      end. congruence.
Qed.

(** C10.  When [HTTPHandler.DownloadFromURL] returns an error, whatever
    the stage it comes from, the count it returns is 0; no file of the disk
    is removed; and when the error comes from the copy or from the final
    truncation, the destination is left at the path with the bytes the
    pump had put in it. *)
Theorem download_error_leaves_file (net : Network) (d : DiskFaults)
    (ctxDone : nat → bool) (fs : FS) (url filePath : string)
    (written : Z) (e : error) (fs' : FS) (prog : list Z) :
  HTTPHandler_DownloadFromURL net d ctxDone fs url filePath
  = Returned (written, Some e, fs', prog) →
  written = 0
  ∧ (∀ p, is_Some (fs !! p) → is_Some (fs' !! p))
  ∧ (∀ resp, reaches_copy net d url resp →
       fs' !! filePath
       = Some (content (dst (IdleTimeoutCopy ctxDone (RespBody resp) (newFile d) false)))).
Proof.
  intros Hrun.
  pose proof (download_ends net d ctxDone fs url filePath) as Hend.
  rewrite Hrun in Hend. clear Hrun.
  assert (Hkept : ∀ c p, is_Some (fs !! p) →
            is_Some (<[filePath := c]> (<[filePath := []]> fs) !! p)).
  { intros c p Hp. destruct (decide (filePath = p)) as [->|Hne].
    - rewrite lookup_insert_eq. eauto.
    - by rewrite !lookup_insert_ne. }
  inversion Hend as
    [e' Hnew|e' Hnew Hdo|resp0 Hnew Hdo Hstatus|resp0 e' Hnew Hdo Hstatus Hcreate
    |resp0 r Hreach Hr Hpanic|resp0 r e' Hreach Hr Hpanic Hcopy
    |resp0 r e' Hreach Hr Hpanic Hcopy Htrunc|resp0 r f Hreach Hr Hpanic Hcopy Htrunc];
    subst.
  1-4: (repeat split; [done|];
        intros resp (? & ? & ? & ?); congruence).
  - repeat split; [by apply Hkept|].
    intros resp Hreach'. rewrite (reaches_copy_resp _ _ _ _ _ Hreach Hreach').
    by rewrite lookup_insert_eq.
  - repeat split; [by apply Hkept|].
    intros resp Hreach'. rewrite (reaches_copy_resp _ _ _ _ _ Hreach Hreach').
    by rewrite lookup_insert_eq.
Qed.

(** ** What the download leaves in the file *)

Lemma wrap64_idemp (a b : Z) : wrap64 (wrap64 a + b) = wrap64 (a + b).
Proof.
  unfold wrap64. f_equal.
  replace ((a + 2 ^ 63) mod 2 ^ 64 - 2 ^ 63 + b + 2 ^ 63)
    with ((a + 2 ^ 63) mod 2 ^ 64 + b) by lia.
  rewrite Zplus_mod_idemp_l. f_equal. lia.
Qed.

Lemma wrap64_small (a : Z) : 0 ≤ a < 2 ^ 63 → wrap64 a = a.
Proof. intros Ha. unfold wrap64. rewrite Z.mod_small; lia. Qed.

Lemma concat_reads_snoc (rs : list read) (rd : read) :
  concat (fst <$> rs ++ [rd]) = concat (fst <$> rs) ++ rd.1.
Proof. rewrite fmap_app, concat_app. simpl. by rewrite app_nil_r. Qed.

(** As long as no call on the file failed, the file holds the bytes the
    reads returned, with holes for the buffers that were skipped, and
    [copied] counts them. *)
Lemma pump_file_image (writeZero : bool) (ctxDone : nat → bool) (src : list read)
    (d : DiskFaults) :
  let r := IdleTimeoutCopy ctxDone src (newFile d) writeZero in
  err r = None → panicked r = false →
  (length (content (dst r)) ≤ offset (dst r))%nat
  ∧ image (dst r) = concat (fst <$> reads r)
  ∧ copied r = wrap64 (Z.of_nat (offset (dst r))).
Proof.
  unfold IdleTimeoutCopy.
  apply (copyLoop_invariant
           (λ st, err st = None → panicked st = false →
                  (length (content (dst st)) ≤ offset (dst st))%nat
                  ∧ image (dst st) = concat (fst <$> reads st)
                  ∧ copied st = wrap64 (Z.of_nat (offset (dst st))))
           (λ _, True)); try done.
  - intros st [data rErr] _ He Hp Hst. specialize (Hst He Hp).
    destruct Hst as (Hlen & Himg & Hcopied). simpl.
    unfold handle. simpl.
    destruct (0 <? length data)%nat eqn:Hpos.
    2:{ intros _ _. simpl. rewrite concat_reads_snoc. simpl.
        apply Nat.ltb_ge in Hpos. destruct data; simpl in *; [|lia].
        by rewrite app_nil_r. }
    destruct (DownloadBufferSize <? length data)%nat eqn:Hbig; [done|].
    apply Nat.ltb_ge in Hbig. rewrite bytes_Equal_zero by done.
    assert (Hfull : length (image (dst st)) = offset (dst st)).
    { unfold image. rewrite length_app, length_replicate. lia. }
    destruct (negb writeZero && all_zero data) eqn:Hskip.
    + apply andb_true_iff in Hskip as [_ Hzero].
      apply all_zero_replicate in Hzero.
      unfold File_Seek. destruct (opFault _ _) as [[n e]|]; [done|].
      destruct (_ <? 0) eqn:Hneg; [done|]. simpl. intros _ _.
      rewrite concat_reads_snoc, <- Himg. simpl.
      replace (Z.to_nat (Z.of_nat (offset (dst st)) + Z.of_nat (length data)))
        with (offset (dst st) + length data)%nat by lia.
      repeat split.
      * lia.
      * unfold image. simpl. rewrite <- app_assoc. f_equal.
        rewrite Hzero at 2. rewrite <- replicate_add. f_equal. lia.
      * rewrite Hcopied, wrap64_idemp. f_equal. lia.
    + unfold File_Write. destruct (opFault _ _) as [[n e]|]; [done|].
      simpl. intros _ _.
      rewrite concat_reads_snoc, <- Himg. simpl.
      assert (Hstored : write_at (content (dst st)) (offset (dst st)) data
                        = image (dst st) ++ data).
      { unfold write_at. fold (image (dst st)).
        rewrite take_ge by lia. rewrite drop_ge by lia. by rewrite app_nil_r. }
      repeat split.
      * rewrite Hstored, length_app. lia.
      * unfold image at 1. simpl. rewrite Hstored, length_app, Hfull.
        replace (offset (dst st) + length data - (offset (dst st) + length data))%nat
          with 0%nat by lia.
        simpl. by rewrite app_nil_r.
      * rewrite Hcopied, wrap64_idemp. f_equal. lia.
  - by apply Forall_forall.
Qed.

(** A download that succeeds leaves at the path the bytes of the body, in
    order, and returns their number, as long as that number is below
    [2^63]. *)
Lemma download_reproduces_body (net : Network) (d : DiskFaults)
    (ctxDone : nat → bool) (fs : FS) (url filePath : string)
    (written : Z) (fs' : FS) (prog : list Z) (resp : HTTPResponse) :
  HTTPHandler_DownloadFromURL net d ctxDone fs url filePath
  = Returned (written, None, fs', prog) →
  reaches_copy net d url resp →
  Z.of_nat (length (concat (fst <$> reads (IdleTimeoutCopy ctxDone (RespBody resp)
                                              (newFile d) false)))) < 2 ^ 63 →
  written = Z.of_nat (length (concat (fst <$> reads (IdleTimeoutCopy ctxDone (RespBody resp)
                                                       (newFile d) false))))
  ∧ fs' !! filePath
    = Some (concat (fst <$> reads (IdleTimeoutCopy ctxDone (RespBody resp)
                                     (newFile d) false))).
Proof.
  intros Hrun Hreach Hsmall.
  pose proof (download_ends net d ctxDone fs url filePath) as Hend.
  rewrite Hrun in Hend. clear Hrun.
  inversion Hend as
    [| | | | | | |resp0 r f Hreach0 Hr Hpanic Hcopy Htrunc]; subst.
  rewrite (reaches_copy_resp _ _ _ _ _ Hreach Hreach0) in *.
  destruct (pump_file_image false ctxDone (RespBody resp) d Hcopy Hpanic)
    as (Hlen & Himg & Hcopied).
  set (r := IdleTimeoutCopy ctxDone (RespBody resp) (newFile d) false) in *.
  assert (Hoff : offset (dst r) = length (concat (fst <$> reads r))).
  { rewrite <- Himg. unfold image. rewrite length_app, length_replicate. lia. }
  rewrite wrap64_small in Hcopied by lia.
  apply File_Truncate_length in Htrunc as (_ & _ & Hc).
  rewrite lookup_insert_eq. split; [lia|]. f_equal.
  rewrite Hc, Hcopied, Nat2Z.id. fold (image (dst r)). rewrite Himg.
  apply take_ge. lia.
Qed.

(** ** Concrete downloads *)

Example download_with_hole :
  HTTPHandler_DownloadFromURL (origin body_with_hole) noFaults never
    {[ "/data/a/backing" := [xff; xff; xff; xff; xff; xff; xff; xff] ]}
    "http://origin/image" "/data/a/backing"
  = Returned (6, None, {[ "/data/a/backing" := [x01; x02; x00; x00; x00; x03] ]},
              [2; 3; 1]).
Proof. vm_compute. reflexivity. Qed.

Lemma sparse_zero_skip_witness :
  panicked (IdleTimeoutCopy never body_with_hole (newFile noFaults) false) = false
  ∧ Forall2 issued
      (filter (λ data, data ≠ [])
         (fst <$> reads (IdleTimeoutCopy never body_with_hole (newFile noFaults) false)))
      (calls (IdleTimeoutCopy never body_with_hole (newFile noFaults) false)).
Proof.
  apply (sparse_zero_skip never body_with_hole (newFile noFaults)).
  repeat (apply Forall_cons_2; [apply Nat.leb_le; vm_compute; reflexivity|]).
  apply Forall_nil_2.
Defined.

Lemma pump_write_bound_witness :
  bytes_written (calls (IdleTimeoutCopy never body_with_hole (newFile noFaults) false))
  ≤ bytes_read (reads (IdleTimeoutCopy never body_with_hole (newFile noFaults) false))
  ∧ (false = false →
     bytes_written (calls (IdleTimeoutCopy never body_with_hole (newFile noFaults) false))
     ≤ nonzero_bytes_read
         (reads (IdleTimeoutCopy never body_with_hole (newFile noFaults) false))).
Proof.
  apply (pump_write_bound false never body_with_hole (newFile noFaults)).
  vm_compute. repeat constructor; discriminate.
Defined.

Example download_second_call_fails :
  HTTPHandler_DownloadFromURL (origin body_with_hole) second_call_fails never ∅
    "http://origin/image" "/data/a/backing"
  = Returned (0, Some (ErrEnv "input/output error"),
              {[ "/data/a/backing" := [x01; x02] ]}, [2]).
Proof. vm_compute. reflexivity. Qed.

Lemma download_postcondition_witness :
  ∃ resp r, reaches_copy (origin body_with_hole) noFaults "http://origin/image" resp
    ∧ r = IdleTimeoutCopy never (RespBody resp) (newFile noFaults) false
    ∧ err r = None ∧ 6 = copied r ∧ [2; 3; 1] = progress r
    ∧ ∃ c, ({[ "/data/a/backing" := [x01; x02; x00; x00; x00; x03] ]} : FS)
           = <["/data/a/backing" := c]> (<["/data/a/backing" := []]> ∅)
        ∧ Z.of_nat (length c) = 6
        ∧ c = take (Z.to_nat 6)
                (content (dst r)
                 ++ replicate (Z.to_nat 6 - length (content (dst r))) x00).
Proof.
  refine (proj1 (download_postcondition (origin body_with_hole) noFaults never ∅
                   "http://origin/image" "/data/a/backing" 6 None
                   {[ "/data/a/backing" := [x01; x02; x00; x00; x00; x03] ]}
                   [2; 3; 1] _) _).
  - vm_compute. reflexivity.
  - reflexivity.
Defined.

Lemma download_error_leaves_file_witness :
  0 = 0
  ∧ (∀ p, is_Some ((∅ : FS) !! p)
          → is_Some (({[ "/data/a/backing" := [x01; x02] ]} : FS) !! p))
  ∧ (∀ resp, reaches_copy (origin body_with_hole) second_call_fails
               "http://origin/image" resp →
       ({[ "/data/a/backing" := [x01; x02] ]} : FS) !! "/data/a/backing"
       = Some (content (dst (IdleTimeoutCopy never (RespBody resp)
                               (newFile second_call_fails) false)))).
Proof.
  apply (download_error_leaves_file (origin body_with_hole) second_call_fails never ∅
           "http://origin/image" "/data/a/backing" 0 (ErrEnv "input/output error")
           {[ "/data/a/backing" := [x01; x02] ]} [2]).
  vm_compute. reflexivity.
Defined.

(** ** More on the registry *)

(** X1.  A register call whose path and uuid are both free succeeds: it
    returns the address of a new object built from its arguments, in
    [pending]; both indices hold that address under the given keys; every
    other entry of either index and every object allocated before are as
    they were. *)
Theorem register_fresh (s : Service) (filePath uuid diskUUID expectedChecksum : string)
    (size : Z) :
  filePathMap s !! filePath = None →
  fileUUIDMap s !! uuid = None →
  ∃ s', checkAndInitSyncFile s filePath uuid diskUUID expectedChecksum size
        = (Ok (length (objects s)), s')
    ∧ filePathMap s' !! filePath = Some (length (objects s))
    ∧ fileUUIDMap s' !! uuid = Some (length (objects s))
    ∧ objects s' !! length (objects s)
      = Some (NewSyncingFile filePath uuid diskUUID expectedChecksum size)
    ∧ (∀ k, k ≠ filePath → filePathMap s' !! k = filePathMap s !! k)
    ∧ (∀ k, k ≠ uuid → fileUUIDMap s' !! k = fileUUIDMap s !! k)
    ∧ (∀ a o, objects s !! a = Some o → objects s' !! a = Some o).
Proof.
  intros Hp Hu. unfold checkAndInitSyncFile.
  rewrite decide_False by (rewrite Hp; by intros [? ?]).
  rewrite decide_False by (rewrite Hu; by intros [? ?]).
  eexists. split; [reflexivity|]. simpl. repeat split.
  - apply lookup_insert_eq.
  - apply lookup_insert_eq.
  - by rewrite list_lookup_middle.
  - intros k Hk. by rewrite lookup_insert_ne.
  - intros k Hk. by rewrite lookup_insert_ne.
  - intros a o Ha. by apply lookup_app_l_Some.
Qed.

Lemma register_fresh_witness :
  ∃ s', checkAndInitSyncFile one_file "/data/b/backing" "u2" "disk" "" 512
        = (Ok (length (objects one_file)), s')
    ∧ filePathMap s' !! "/data/b/backing" = Some (length (objects one_file))
    ∧ fileUUIDMap s' !! "u2" = Some (length (objects one_file))
    ∧ objects s' !! length (objects one_file)
      = Some (NewSyncingFile "/data/b/backing" "u2" "disk" "" 512)
    ∧ (∀ k, k ≠ "/data/b/backing" → filePathMap s' !! k = filePathMap one_file !! k)
    ∧ (∀ k, k ≠ "u2" → fileUUIDMap s' !! k = fileUUIDMap one_file !! k)
    ∧ (∀ a o, objects one_file !! a = Some o → objects s' !! a = Some o).
Proof.
  apply (register_fresh one_file "/data/b/backing" "u2" "disk" "" 512).
  - vm_compute. reflexivity.
  - vm_compute. reflexivity.
Defined.

(** X2.  Registering a file under a free path and a free uuid and then
    cleaning that path up gives back both indices as they were before the
    registration; the disk is untouched when the cleanup is a forget. *)
Theorem register_cleanup_round_trip (s : Service) (fs : FS)
    (filePath uuid diskUUID expectedChecksum : string) (size : Z) (deleteFile : bool) :
  filePathMap s !! filePath = None →
  fileUUIDMap s !! uuid = None →
  filePathMap
    (cleanup (checkAndInitSyncFile s filePath uuid diskUUID expectedChecksum size).2
       fs filePath deleteFile).1 = filePathMap s
  ∧ fileUUIDMap
      (cleanup (checkAndInitSyncFile s filePath uuid diskUUID expectedChecksum size).2
         fs filePath deleteFile).1 = fileUUIDMap s
  ∧ (deleteFile = false →
     (cleanup (checkAndInitSyncFile s filePath uuid diskUUID expectedChecksum size).2
        fs filePath deleteFile).2 = fs).
Proof.
  intros Hp Hu. unfold checkAndInitSyncFile.
  rewrite decide_False by (rewrite Hp; by intros [? ?]).
  rewrite decide_False by (rewrite Hu; by intros [? ?]).
  unfold cleanup. simpl.
  rewrite lookup_insert_eq. simpl. rewrite list_lookup_middle by done. simpl.
  repeat split.
  - rewrite delete_insert_eq. by apply delete_id.
  - unfold sf_uuid. simpl. rewrite delete_insert_eq. by apply delete_id.
  - by intros ->.
Qed.

Lemma register_cleanup_round_trip_witness :
  filePathMap
    (cleanup (checkAndInitSyncFile one_file "/data/b/backing" "u2" "disk" "" 512).2
       ∅ "/data/b/backing" false).1 = filePathMap one_file
  ∧ fileUUIDMap
      (cleanup (checkAndInitSyncFile one_file "/data/b/backing" "u2" "disk" "" 512).2
         ∅ "/data/b/backing" false).1 = fileUUIDMap one_file
  ∧ (false = false →
     (cleanup (checkAndInitSyncFile one_file "/data/b/backing" "u2" "disk" "" 512).2
        ∅ "/data/b/backing" false).2 = ∅).
Proof.
  apply (register_cleanup_round_trip one_file ∅ "/data/b/backing" "u2" "disk" "" 512 false).
  - vm_compute. reflexivity.
  - vm_compute. reflexivity.
Defined.

(** X3.  Cleanup is idempotent: cleaning a path up a second time changes
    neither the service nor the disk. *)
Theorem cleanup_idempotent (s : Service) (fs : FS) (filePath : string)
    (deleteFile : bool) :
  cleanup (cleanup s fs filePath deleteFile).1 (cleanup s fs filePath deleteFile).2
    filePath deleteFile
  = cleanup s fs filePath deleteFile.
Proof.
  assert (Hgone : filePathMap (cleanup s fs filePath deleteFile).1 !! filePath = None).
  { unfold cleanup. destruct (_ ≫= _); simpl; apply lookup_delete_eq. }
  destruct (cleanup s fs filePath deleteFile) as [s' fs'] eqn:Hc. simpl in *.
  by apply cleanup_unknown.
Qed.

(** X4.  Once the path of a registered file is cleaned up, the same path
    can be registered again under the uuid the file had. *)
Theorem cleanup_rearms (s : Service) (fs : FS) (filePath : string) (deleteFile : bool)
    (a : ptr) (o : SyncingFile) (diskUUID expectedChecksum : string) (size : Z) :
  filePathMap s !! filePath = Some a →
  objects s !! a = Some o →
  is_err (checkAndInitSyncFile (cleanup s fs filePath deleteFile).1
            filePath (uuid o) diskUUID expectedChecksum size).1 = false.
Proof.
  intros Hp Ho. unfold cleanup. rewrite Hp. simpl. rewrite Ho.
  unfold checkAndInitSyncFile. simpl.
  rewrite decide_False by (rewrite lookup_delete_eq; by intros [? ?]).
  rewrite decide_False by (unfold sf_uuid; rewrite lookup_delete_eq; by intros [? ?]).
  done.
Qed.

Lemma cleanup_rearms_witness :
  is_err (checkAndInitSyncFile (cleanup one_file ∅ "/data/a/backing" true).1
            "/data/a/backing" (uuid (NewSyncingFile "/data/a/backing" "u1" "disk" "" 4096))
            "disk" "" 4096).1 = false.
Proof.
  apply (cleanup_rearms one_file ∅ "/data/a/backing" true 0%nat
           (NewSyncingFile "/data/a/backing" "u1" "disk" "" 4096) "disk" "" 4096).
  - vm_compute. reflexivity.
  - vm_compute. reflexivity.
Defined.

Lemma filter_all_length {A} (P : A → Prop) `{∀ x, Decision (P x)} (l : list A) :
  (∀ a, a ∈ l → P a) → length (filter P l) = length l.
Proof.
  induction l as [|x l IH]; intros Hall; [done|].
  rewrite filter_cons_True by (apply Hall; left). simpl. f_equal.
  apply IH. intros a Ha. apply Hall. by right.
Qed.

Lemma filter_one_length {A} (P : A → Prop) `{∀ x, Decision (P x)} (l : list A) (q : A) :
  NoDup l → q ∈ l → (∀ a, a ∈ l → P a ↔ a ≠ q) →
  S (length (filter P l)) = length l.
Proof.
  induction l as [|x l IH]; intros Hnd Hq Hiff; [by apply elem_of_nil in Hq|].
  apply NoDup_cons in Hnd as [Hx Hnd].
  apply elem_of_cons in Hq as [->|Hq].
  - rewrite filter_cons_False by (rewrite Hiff by left; tauto).
    simpl. f_equal. apply filter_all_length.
    intros a Ha. apply Hiff; [by right|]. intros ->. done.
  - assert (Hne : x ≠ q) by (intros ->; done).
    rewrite filter_cons_True by (apply Hiff; [left|done]).
    simpl. f_equal. apply IH; [done|done|].
    intros a Ha. apply Hiff. by right.
Qed.

Lemma sizes_step (st : Service * FS * list ptr) (o : op) :
  inv st.1.1 st.2 →
  base.size (filePathMap st.1.1) = length st.2 ∧ base.size (fileUUIDMap st.1.1) = length st.2 →
  base.size (filePathMap (step st o).1.1) = length (step st o).2
  ∧ base.size (fileUUIDMap (step st o).1.1) = length (step st o).2.
Proof.
  destruct st as [[s fs] live]. simpl. intros Hinv [Hsp Hsu].
  destruct o as [fp u du ec sz|fp del]; simpl.
  - unfold checkAndInitSyncFile.
    destruct (decide (is_Some (filePathMap s !! fp))) as [|Hfp]; [done|].
    destruct (decide (is_Some (fileUUIDMap s !! u))) as [|Hfu]; [done|].
    apply eq_None_not_Some in Hfp. apply eq_None_not_Some in Hfu. simpl.
    rewrite !map_size_insert_None by done. lia.
  - destruct Hinv as [Hnd Hal Hp Hu]. unfold cleanup.
    destruct (filePathMap s !! fp) as [q|] eqn:Hq; simpl.
    + destruct (proj1 (Hp _ _) Hq) as [Hqlive Hqpath].
      destruct (objects s !! q) as [ob|] eqn:Ho; [|done].
      simpl in Hqpath. injection Hqpath as Hqpath. simpl.
      assert (Hqu : fileUUIDMap s !! sf_uuid ob = Some q).
      { apply Hu. split; [done|]. by rewrite Ho. }
      rewrite !map_size_delete_Some by eauto.
      assert (Hlen : S (length (filter (λ a, sf_filePath <$> objects s !! a ≠ Some fp) live))
                     = length live).
      { apply (filter_one_length _ _ q); [done|done|].
        intros a Ha. split.
        - intros Hne ->. rewrite Ho in Hne. simpl in Hne. congruence.
        - intros Hne Hpath. apply Hne.
          assert (filePathMap s !! fp = Some a) by (by apply Hp). congruence. }
      lia.
    + rewrite map_size_delete_None by done.
      rewrite filter_all_length; [done|].
      intros a Ha Hpath.
      assert (filePathMap s !! fp = Some a) by (by apply Hp). congruence.
Qed.

Lemma sizes_foldl (ops : list op) (st : Service * FS * list ptr) :
  inv st.1.1 st.2 →
  base.size (filePathMap st.1.1) = length st.2
  ∧ base.size (fileUUIDMap st.1.1) = length st.2 →
  base.size (filePathMap (foldl step st ops).1.1) = length (foldl step st ops).2
  ∧ base.size (fileUUIDMap (foldl step st ops).1.1) = length (foldl step st ops).2.
Proof.
  revert st. induction ops as [|o ops IH]; intros st Hinv Hsz; simpl; [done|].
  apply IH; [by apply inv_step|by apply sizes_step].
Qed.

(** X5.  After every finite sequence of register and cleanup operations on
    a fresh service the two indices have the same number of entries, the
    number of live syncing files. *)
Theorem index_sizes (fs : FS) (ops : list op) :
  base.size (filePathMap (run fs ops).1.1) = length (run fs ops).2
  ∧ base.size (fileUUIDMap (run fs ops).1.1) = length (run fs ops).2.
Proof.
  unfold run. apply sizes_foldl; simpl; [apply inv_init|].
  by rewrite !map_size_empty.
Qed.

Lemma List_res_lookup (s : Service) (k : string) :
  List_res s !! k = filePathMap s !! k ≫= (λ a, objects s !! a).
Proof. unfold List_res. apply lookup_omap. Qed.

(** X6.  After every finite sequence of register and cleanup operations on
    a fresh service, the map [List] answers with holds exactly the live
    syncing files, each under its own path, and as many entries as there
    are live files. *)
Theorem list_shows_live (fs : FS) (ops : list op) (writer : Response) (request : Request) :
  (∀ k info, (List (run fs ops).1.1 writer request).2 !! k = Some info
             ↔ ∃ a, a ∈ (run fs ops).2 ∧ objects (run fs ops).1.1 !! a = Some info
                    ∧ filePath info = k)
  ∧ base.size (List (run fs ops).1.1 writer request).2 = length (run fs ops).2.
Proof.
  pose proof (inv_run fs ops) as Hinv.
  assert (Hsz : base.size (filePathMap (run fs ops).1.1) = length (run fs ops).2).
  { unfold run. apply sizes_foldl; simpl; [apply inv_init|].
    by rewrite !map_size_empty. }
  destruct (run fs ops) as [[s fs'] live]. simpl in *.
  destruct Hinv as [Hnd Hal Hp Hu]. split.
  - intros k info. rewrite List_res_lookup. split.
    + destruct (filePathMap s !! k) as [a|] eqn:Ha; [|done]. simpl. intros Ho.
      apply Hp in Ha as [Hlive Hpath]. exists a. rewrite Ho in Hpath.
      simpl in Hpath. injection Hpath as Hpath. done.
    + intros (a & Hlive & Ho & Hpath).
      assert (Hk : filePathMap s !! k = Some a).
      { apply Hp. split; [done|]. rewrite Ho. simpl. by rewrite <- Hpath. }
      by rewrite Hk.
  - rewrite <- Hsz. unfold List_res.
    assert (Hfmap : omap (λ sf, objects s !! sf) (filePathMap s)
                    = (λ sf, default (NewSyncingFile "" "" "" "" 0) (objects s !! sf))
                      <$> filePathMap s).
    { apply map_eq. intros k. rewrite lookup_omap, lookup_fmap.
      destruct (filePathMap s !! k) as [a|] eqn:Ha; [|done]. simpl.
      apply Hp in Ha as [Hlive _].
      destruct (lookup_lt_is_Some_2 _ _ (Hal _ Hlive)) as [ob Hob]. by rewrite Hob. }
    rewrite Hfmap. apply map_size_fmap.
Qed.

(** ** Register requests that pass validation *)

Lemma missing_true q key : Get_param q key = "" → missing q key = true.
Proof. intros. unfold missing. by apply bool_decide_eq_true_2. Qed.

Lemma size_unaligned_err q e :
  strconv.ParseInt (Get_param q "size") = Err e → size_unaligned q = true.
Proof. intros Hp. unfold size_unaligned. by rewrite Hp. Qed.

Lemma size_unaligned_rem q n :
  strconv.ParseInt (Get_param q "size") = Ok n →
  Z.rem n types.DefaultSectorSize ≠ 0 → size_unaligned q = true.
Proof.
  intros Hp Hrem. unfold size_unaligned. rewrite Hp.
  apply negb_true_iff, Z.eqb_neq. by apply rem_sector_nonzero.
Qed.

Lemma encryption_refused (x : string) :
  x ≠ "encrypt" ∧ x ≠ "decrypt" ∧ x ≠ "ignore" →
  allowed x ["encrypt"; "decrypt"; "ignore"] = false.
Proof.
  intros (? & ? & ?). apply bool_decide_eq_false_2. rewrite !elem_of_cons.
  intros [?|[?|[?|Hnil]]]; try done. by apply elem_of_nil in Hnil.
Qed.

Lemma encryption_allowed (x : string) :
  ¬ (x ≠ "encrypt" ∧ x ≠ "decrypt" ∧ x ≠ "ignore") →
  allowed x ["encrypt"; "decrypt"; "ignore"] = true.
Proof.
  intros Hx. apply bool_decide_eq_true_2. rewrite !elem_of_cons.
  destruct (decide (x = "encrypt")); [tauto|].
  destruct (decide (x = "decrypt")); [tauto|].
  destruct (decide (x = "ignore")); tauto.
Qed.

Lemma file_type_refused (fileType : string) :
  (if decide (fileType = "") then "raw" else fileType) ≠ "raw"
  ∧ (if decide (fileType = "") then "raw" else fileType) ≠ "qcow2" →
  allowed fileType [""; "raw"; "qcow2"] = false.
Proof.
  destruct (decide (fileType = "")) as [->|Hne]; [by intros [? _]|].
  intros [? ?]. apply bool_decide_eq_false_2. rewrite !elem_of_cons.
  intros [?|[?|[?|Hnil]]]; try done. by apply elem_of_nil in Hnil.
Qed.

Ltac known :=
  repeat match goal with
    | H : Get_param _ _ = "" |- _ => rewrite (missing_true _ _ H)
    | H : Get_param _ _ ≠ "" |- _ => rewrite (missing_false _ _ H)
    | H : allowed _ _ = _ |- _ => rewrite H
    | H : size_unaligned _ = _ |- _ => rewrite H
    | H : strconv.Atoi _ = _ |- _ => rewrite H
    | H : strconv.ParseInt _ = _ |- _ => rewrite H
    end.

Ltac refused :=
  left; eexists; split; [reflexivity|]; left;
  unfold malformed; known; simpl; try reflexivity.

Section RegisterRequests.

Variable WaitForStateNonPending : Service → ptr → option error.
Variable IdleTimeoutCopyToFile : Service → ptr → list byte → string → option error.

(** What a register handler other than upload does with a request: it
    refuses it, with status 500 and the service as it was, when a parameter
    is missing or malformed or the credential cannot be decoded; otherwise
    it makes the register call of the request and, when that call succeeds,
    starts a task on the new entity. *)
Lemma serve_cases (ep : endpoint) (s : Service) (writer : Response) (request : Request) :
  ep ≠ EpUpload →
  (∃ e, serve WaitForStateNonPending IdleTimeoutCopyToFile ep s writer request
        = (http_Error writer e StatusInternalServerError, s, None)
        ∧ (malformed ep request = true ∨ credential_ok ep request = false))
  ∨ (malformed ep request = false ∧ credential_ok ep request = true
     ∧ ∃ mk, (∀ sf, task_sf (mk sf) = sf)
         ∧ serve WaitForStateNonPending IdleTimeoutCopyToFile ep s writer request
           = match register_of ep s request with
             | (Ok sf, s') => (writer, s', Some (mk sf))
             | (Err e, s') => (http_Error writer e StatusInternalServerError, s', None)
             end).
Proof.
  intros Hep.
  destruct ep; try done;
    unfold serve, Fetch, DownloadFromURL, CloneFromBackingImage,
      RestoreFromBackupURL, ReceiveFromPeer,
      doFetch, doDownloadFromURL, doCloneFromBackingImage,
      doRestoreFromBackupURL, doReceiveFromPeer, failed, register_of,
      path_param, declared_size, credential_ok;
    unfold types.DataSourceTypeCloneParameterBackingImage,
      types.DataSourceTypeCloneParameterBackingImageUUID,
      types.DataSourceTypeCloneParameterEncryption,
      types.DataSourceTypeRestoreParameterBackupURL,
      types.EncryptionTypeEncrypt, types.EncryptionTypeDecrypt,
      types.EncryptionTypeIgnore, types.SyncingFileTypeEmpty,
      types.SyncingFileTypeRaw, types.SyncingFileTypeQcow2.
  - (* fetch *)
    repeat (case_decide; [refused|]).
    destruct (strconv.ParseInt _) as [n|e0] eqn:Hparse.
    + destruct (decide (Z.rem n types.DefaultSectorSize ≠ 0)) as [Hrem|Hrem].
      { pose proof (size_unaligned_rem _ n Hparse Hrem). refused. }
      apply dec_stable in Hrem.
      pose proof (size_aligned_false _ n Hparse Hrem).
      right. split; [unfold malformed; by known|].
      split; [done|]. eexists (λ sf, GoFetch sf _). split; [done|].
      by destruct (checkAndInitSyncFile _ _ _ _ _ _) as [[sf|e] s'].
    + pose proof (size_unaligned_err _ e0 Hparse). refused.
  - (* download-from-url *)
    repeat (case_decide; [refused|]).
    right. split; [unfold malformed; by known|].
    split; [done|]. eexists (λ sf, GoDownloadFromURL sf _ _). split; [done|].
    by destruct (checkAndInitSyncFile _ _ _ _ _ _) as [[sf|e] s'].
  - (* clone *)
    case_decide; [refused|]. case_decide; [refused|].
    destruct (decide (_ ≠ "encrypt" ∧ _)) as [Henc|Henc].
    { apply encryption_refused in Henc. refused. }
    apply encryption_allowed in Henc.
    case_decide; [refused|]. case_decide; [refused|].
    destruct (Credential request) as [c| |e0] eqn:Hcred.
    + right. split; [unfold malformed; by known|].
      split; [done|].
      eexists (λ sf, GoCloneToFileWithEncryption sf _ _ _ _ _). split; [done|].
      by destruct (checkAndInitSyncFile _ _ _ _ _ _) as [[sf|e] s'].
    + right. split; [unfold malformed; by known|].
      split; [done|].
      eexists (λ sf, GoCloneToFileWithEncryption sf _ _ _ _ _). split; [done|].
      by destruct (checkAndInitSyncFile _ _ _ _ _ _) as [[sf|e] s'].
    + left. eexists. split; [reflexivity|]. by right.
  - (* restore-from-backup-url *)
    repeat (case_decide; [refused|]).
    destruct (strconv.Atoi _) as [n|e0] eqn:Hparse; [|refused].
    destruct (Credential request) as [c| |e1] eqn:Hcred.
    + right. split; [unfold malformed; by known|].
      split; [done|].
      eexists (λ sf, GoRestoreFromBackupURL sf _ _ _ _). split; [done|].
      by destruct (checkAndInitSyncFile _ _ _ _ _ _) as [[sf|e] s'].
    + right. split; [unfold malformed; by known|].
      split; [done|].
      eexists (λ sf, GoRestoreFromBackupURL sf _ _ _ _). split; [done|].
      by destruct (checkAndInitSyncFile _ _ _ _ _ _) as [[sf|e] s'].
    + left. eexists. split; [reflexivity|]. by right.
  - (* receive-from-peer *)
    case_decide; [refused|]. case_decide; [refused|].
    destruct (decide (_ ≠ "raw" ∧ _ ≠ "qcow2")) as [Hft|Hft].
    { apply file_type_refused in Hft. refused. }
    apply file_type_allowed in Hft.
    destruct (strconv.ParseInt (Get_param (Query request) "size"))
      as [n|e0] eqn:Hparse.
    + destruct (decide (Z.rem n types.DefaultSectorSize ≠ 0)) as [Hrem|Hrem].
      { pose proof (size_unaligned_rem _ n Hparse Hrem). clear Hparse. refused. }
      apply dec_stable in Hrem.
      pose proof (size_aligned_false _ n Hparse Hrem) as Hal. clear Hparse.
      destruct (strconv.ParseInt (Get_param (Query request) "port"))
        as [port|e1] eqn:Hport; [|refused].
      right. split; [unfold malformed; by known|].
      split; [done|]. eexists (λ sf, GoReceive sf _ _ _). split; [done|].
      by destruct (checkAndInitSyncFile _ _ _ _ _ _) as [[sf|e] s'].
    + pose proof (size_unaligned_err _ e0 Hparse). clear Hparse. refused.
Qed.

End RegisterRequests.

Lemma register_free (s : Service) (filePath uuid diskUUID expectedChecksum : string)
    (size : Z) :
  filePathMap s !! filePath = None →
  fileUUIDMap s !! uuid = None →
  checkAndInitSyncFile s filePath uuid diskUUID expectedChecksum size
  = (Ok (length (objects s)),
     {| objects := objects s ++ [NewSyncingFile filePath uuid diskUUID expectedChecksum size];
        filePathMap := <[filePath := length (objects s)]> (filePathMap s);
        fileUUIDMap := <[uuid := length (objects s)]> (fileUUIDMap s) |}).
Proof.
  intros Hp Hu. unfold checkAndInitSyncFile.
  rewrite decide_False by (rewrite Hp; by intros [? ?]).
  by rewrite decide_False by (rewrite Hu; by intros [? ?]).
Qed.

Lemma register_ok_inserted (s s' : Service) (filePath uuid diskUUID expectedChecksum : string)
    (size : Z) (sf : ptr) :
  checkAndInitSyncFile s filePath uuid diskUUID expectedChecksum size = (Ok sf, s') →
  filePathMap s' !! filePath = Some sf.
Proof.
  unfold checkAndInitSyncFile. repeat case_decide; try done.
  intros [= <- <-]. simpl. apply lookup_insert_eq.
Qed.

Lemma register_taken_path (s : Service) (filePath uuid diskUUID expectedChecksum : string)
    (size : Z) :
  is_Some (filePathMap s !! filePath) →
  checkAndInitSyncFile s filePath uuid diskUUID expectedChecksum size
  = (Err (ErrFileExists filePath), s).
Proof. intros Hp. unfold checkAndInitSyncFile. by rewrite decide_True. Qed.

Lemma declared_size_aligned (ep : endpoint) (request : Request) :
  malformed ep request = false →
  declared_size ep request mod types.DefaultSectorSize = 0.
Proof.
  assert (Hsz : size_unaligned (Query request) = false →
                match strconv.ParseInt (Get_param (Query request) "size") with
                | Ok n => n
                | Err _ => 0
                end mod types.DefaultSectorSize = 0).
  { unfold size_unaligned. destruct (strconv.ParseInt _); [|done].
    intros Hn. apply negb_false_iff in Hn. by apply Z.eqb_eq. }
  destruct ep; unfold malformed, declared_size; try done; intros Hm;
    repeat (apply orb_false_iff in Hm as [Hm ?]); auto.
Qed.

Section RegisterRequestProperties.

Variable WaitForStateNonPending : Service → ptr → option error.
Variable IdleTimeoutCopyToFile : Service → ptr → list byte → string → option error.

(** X7.  A register request other than an upload that has no missing or
    malformed parameter and a decodable credential, and whose path and
    uuid are free, is answered with status 200 and nothing written: a new
    entity built from its parameters is registered in [pending] under both
    keys, its size is a multiple of 512, and a task is started on it. *)
Theorem wellformed_request_registers (ep : endpoint) (s : Service) (request : Request) :
  ep ≠ EpUpload →
  malformed ep request = false →
  credential_ok ep request = true →
  filePathMap s !! Get_param (Query request) (path_param ep) = None →
  fileUUIDMap s !! Get_param (Query request) "uuid" = None →
  ∃ s' t, serve WaitForStateNonPending IdleTimeoutCopyToFile ep s newResponse request
          = (newResponse, s', Some t)
    ∧ task_sf t = length (objects s)
    ∧ objects s' !! task_sf t
      = Some (NewSyncingFile (Get_param (Query request) (path_param ep))
                (Get_param (Query request) "uuid")
                (Get_param (Query request) "disk-uuid")
                (Get_param (Query request) "expected-checksum")
                (declared_size ep request))
    ∧ filePathMap s' !! Get_param (Query request) (path_param ep) = Some (task_sf t)
    ∧ fileUUIDMap s' !! Get_param (Query request) "uuid" = Some (task_sf t)
    ∧ declared_size ep request mod types.DefaultSectorSize = 0.
Proof.
  intros Hep Hm Hcred Hp Hu.
  destruct (serve_cases WaitForStateNonPending IdleTimeoutCopyToFile ep s newResponse
              request Hep) as [(e & _ & [Hbad|Hbad])|(_ & _ & mk & Hmk & ->)];
    [congruence|congruence|].
  unfold register_of. rewrite register_free by done.
  eexists _, _. split; [reflexivity|]. rewrite Hmk. simpl. repeat split.
  - by rewrite list_lookup_middle.
  - apply lookup_insert_eq.
  - apply lookup_insert_eq.
  - by apply declared_size_aligned.
Qed.

(** X8.  A register handler other than upload either starts a task, and
    then has written nothing to the response, or starts none, and then
    answers with status 500 and leaves the service exactly as it was. *)
Theorem refused_request_changes_nothing (ep : endpoint) (s : Service) (request : Request) :
  ep ≠ EpUpload →
  match (serve WaitForStateNonPending IdleTimeoutCopyToFile ep s newResponse request).2 with
  | Some _ =>
      (serve WaitForStateNonPending IdleTimeoutCopyToFile ep s newResponse request).1.1
      = newResponse
  | None =>
      (serve WaitForStateNonPending IdleTimeoutCopyToFile ep s newResponse request).1.2 = s
      ∧ StatusCode
          (serve WaitForStateNonPending IdleTimeoutCopyToFile ep s newResponse request).1.1
        = StatusInternalServerError
  end.
Proof.
  intros Hep.
  destruct (serve_cases WaitForStateNonPending IdleTimeoutCopyToFile ep s newResponse
              request Hep) as [(e & -> & _)|(_ & _ & mk & Hmk & ->)]; [done|].
  unfold register_of.
  destruct (checkAndInitSyncFile _ _ _ _ _ _) as [[sf|e] s'] eqn:Hreg; simpl; [done|].
  split; [|done]. by eapply register_failed_unchanged.
Qed.

(** X9.  When a register request other than an upload has started a task,
    the same request sent again is answered with status 500 and the
    already-exists error of its path, and changes nothing. *)
Theorem repeated_request_conflicts (ep : endpoint) (s : Service) (request : Request)
    (w1 : Response) (s1 : Service) (t : task) :
  ep ≠ EpUpload →
  serve WaitForStateNonPending IdleTimeoutCopyToFile ep s newResponse request
  = (w1, s1, Some t) →
  serve WaitForStateNonPending IdleTimeoutCopyToFile ep s1 newResponse request
  = (http_Error newResponse
       (ErrFileExists (Get_param (Query request) (path_param ep)))
       StatusInternalServerError, s1, None).
Proof.
  intros Hep Hfirst.
  destruct (serve_cases WaitForStateNonPending IdleTimeoutCopyToFile ep s newResponse
              request Hep) as [(e & Heq & _)|(Hm & Hcred & mk & Hmk & Heq)];
    rewrite Heq in Hfirst; [done|].
  unfold register_of in Hfirst.
  destruct (checkAndInitSyncFile _ _ _ _ _ _) as [[sf|e] s'] eqn:Hreg; [|done].
  injection Hfirst as <- <- <-.
  apply register_ok_inserted in Hreg.
  destruct (serve_cases WaitForStateNonPending IdleTimeoutCopyToFile ep s' newResponse
              request Hep) as [(e & _ & [Hbad|Hbad])|(_ & _ & mk' & _ & ->)];
    [congruence|congruence|].
  unfold register_of. by rewrite register_taken_path by eauto.
Qed.

(** X10.  An upload that fails after its parameters were accepted leaves
    the file registered: when the request has no missing or malformed
    parameter and its path and uuid are free, an error of the upload comes
    with the new entity in both indices, and the same request sent again
    meets the already-exists error. *)
Theorem failed_upload_stays_registered (s : Service) (request : Request)
    (e : error) (s' : Service) (t : option task) :
  malformed EpUpload request = false →
  filePathMap s !! Get_param (Query request) "file-path" = None →
  fileUUIDMap s !! Get_param (Query request) "uuid" = None →
  doUploadFromRequest WaitForStateNonPending IdleTimeoutCopyToFile s request
  = (Some e, s', t) →
  filePathMap s' !! Get_param (Query request) "file-path" = Some (length (objects s))
  ∧ fileUUIDMap s' !! Get_param (Query request) "uuid" = Some (length (objects s))
  ∧ doUploadFromRequest WaitForStateNonPending IdleTimeoutCopyToFile s' request
    = (Some (ErrFileExists (Get_param (Query request) "file-path")), s', None).
Proof.
  intros Hm Hp Hu. unfold malformed in Hm.
  apply orb_false_iff in Hm as [Hm Hsz]. apply orb_false_iff in Hm as [Hfp Huu].
  apply bool_decide_eq_false in Hfp, Huu.
  unfold size_unaligned in Hsz.
  destruct (strconv.ParseInt (Get_param (Query request) "size")) as [n|] eqn:Hparse;
    [|done].
  apply negb_false_iff, Z.eqb_eq in Hsz.
  assert (Hrem : ¬ Z.rem n types.DefaultSectorSize ≠ 0).
  { intros Hrem. by apply rem_sector_nonzero in Hrem. }
  assert (Hreg : ∀ s0 : Service,
    doUploadFromRequest WaitForStateNonPending IdleTimeoutCopyToFile s0 request
    = match checkAndInitSyncFile s0 (Get_param (Query request) "file-path")
              (Get_param (Query request) "uuid") (Get_param (Query request) "disk-uuid")
              (Get_param (Query request) "expected-checksum") n with
      | (Err e, s') => (Some e, s', None)
      | (Ok sf, s') =>
          match Multipart request with
          | Err e => (Some e, s', None)
          | Ok (parts, final) =>
              match nextChunkPart parts final with
              | Err e => (Some e, s', None)
              | Ok p =>
                  match WaitForStateNonPending s' sf with
                  | Some e => (Some e, s', None)
                  | None =>
                      match IdleTimeoutCopyToFile s' sf p
                              (Get_param (Query request)
                                 types.DataSourceTypeParameterDataEngine) with
                      | Some e => (Some e, s', None)
                      | None => (None, s', None)
                      end
                  end
              end
          end
      end).
  { intros s0. unfold doUploadFromRequest, failed.
    rewrite !decide_False by done. rewrite Hparse. by rewrite decide_False by done. }
  rewrite Hreg, register_free by done. intros Hrun.
  assert (Hs' : s' = {| objects := objects s ++ [NewSyncingFile
                           (Get_param (Query request) "file-path")
                           (Get_param (Query request) "uuid")
                           (Get_param (Query request) "disk-uuid")
                           (Get_param (Query request) "expected-checksum") n];
                        filePathMap := <[Get_param (Query request) "file-path"
                                         := length (objects s)]> (filePathMap s);
                        fileUUIDMap := <[Get_param (Query request) "uuid"
                                         := length (objects s)]> (fileUUIDMap s) |}).
  { repeat case_match; by simplify_eq. }
  clear Hrun. subst s'. simpl. repeat split.
  - apply lookup_insert_eq.
  - apply lookup_insert_eq.
  - rewrite Hreg. rewrite register_taken_path; [done|].
    simpl. rewrite lookup_insert_eq. eauto.
Qed.

End RegisterRequestProperties.

(** ** Streaming a ready file *)

Lemma Split_nonempty (s : string) (sep : ascii) : strings.Split s sep ≠ [].
Proof.
  destruct s as [|c rest]; simpl; [done|].
  destruct (Ascii.eqb c sep); [done|]. by destruct (strings.Split rest sep).
Qed.

Lemma Split_cons_other (c sep : ascii) (rest : string) :
  Ascii.eqb c sep = false →
  ∃ w ws, strings.Split rest sep = w :: ws
          ∧ strings.Split (String c rest) sep = String c w :: ws.
Proof.
  intros Hc. simpl. rewrite Hc.
  destruct (strings.Split rest sep) as [|w ws] eqn:Hs; [by apply Split_nonempty in Hs|].
  eauto.
Qed.

Lemma Split_without (s : string) (sep : ascii) :
  occurs sep s = false → strings.Split s sep = [s].
Proof.
  induction s as [|c rest IH]; simpl; [done|].
  intros [Hc Hrest]%orb_false_iff. rewrite Hc, IH; done.
Qed.

Lemma Split_length (s : string) (sep : ascii) :
  (2 <=? length (strings.Split s sep))%nat = occurs sep s.
Proof.
  induction s as [|c rest IH]; simpl; [done|].
  destruct (Ascii.eqb c sep) eqn:Hc; simpl.
  - pose proof (Split_nonempty rest sep).
    by destruct (strings.Split rest sep) as [|? [|? ?]].
  - destruct (strings.Split rest sep) as [|w ws] eqn:Hs;
      [by apply Split_nonempty in Hs|].
    by rewrite <- IH.
Qed.

Lemma Split_app (a b : string) (sep : ascii) :
  strings.Split (a ++ String sep b)%string sep
  = strings.Split a sep ++ strings.Split b sep.
Proof.
  induction a as [|c a IH]; simpl.
  - by rewrite Ascii.eqb_refl.
  - destruct (Ascii.eqb c sep); [by rewrite IH|].
    rewrite IH. pose proof (Split_nonempty a sep).
    by destruct (strings.Split a sep).
Qed.

Lemma append_assoc_string (a b c : string) :
  ((a ++ b) ++ c)%string = (a ++ (b ++ c))%string.
Proof.
  induction a as [|x a IH]; [reflexivity|].
  change (String x ((a ++ b) ++ c) = String x (a ++ (b ++ c)))%string.
  by rewrite IH.
Qed.

Lemma second_to_last {A} (l : list A) (a b : A) :
  (2 <=? length (l ++ [a; b]))%nat = true
  ∧ (l ++ [a; b]) !! (length (l ++ [a; b]) - 2)%nat = Some a.
Proof.
  rewrite length_app. change (length [a; b]) with 2%nat.
  split; [apply Nat.leb_le; lia|].
  rewrite lookup_app_r by lia.
  by replace (length l + 2 - 2 - length l)%nat with 0%nat by lia.
Qed.

Section StreamingProperties.

Variable GetFileReader : SyncingFile → FS → result (list byte).
Variable gzip : list byte → list byte.

(** X11.  With [forV2Creation=true] and no failure of the reads, a request
    for a ready file that is on the disk is answered with status 200, the
    length of the file as [Content-Length] and the type
    [application/octet-stream]; a [HEAD] request gets no body, any other
    method the bytes of the file and nothing else. *)
Theorem raw_download_answer (s : Service) (fs : FS) (request : Request) (sf : SyncingFile)
    (data : list byte) :
  names_ready s request sf →
  Get_param (Query request) "forV2Creation" = "true" →
  fs !! filePath sf = Some data →
  ∃ w, DownloadToDst GetFileReader gzip s fs None newResponse request = Returned w
    ∧ StatusCode w = StatusOK
    ∧ Header w !! "Content-Length" = Some (FormatInt (Z.of_nat (length data)))
    ∧ Header w !! "Content-Type" = Some "application/octet-stream"
    ∧ Forall (λ c, ∃ p, c = Bytes p) (Body w)
    ∧ body_bytes (Body w) = if decide (Method request = "HEAD") then [] else data.
Proof using Type.
  intros (p & Hid & Hsf & Hready) Hv2 Hfile. unfold DownloadToDst.
  unfold mux_Vars_id, lookupSyncFile. rewrite Hid, Hsf.
  rewrite decide_False by (intros Hne; by apply Hne).
  rewrite decide_True by done. unfold sf_filePath. rewrite Hfile.
  destruct (decide (Method request = "HEAD")) as [Hhead|Hhead].
  - eexists. split; [reflexivity|]. repeat split; try done; repeat constructor.
  - simpl. destruct data as [|b data]; simpl.
    + eexists. split; [reflexivity|]. repeat split; try done; repeat constructor.
    + eexists. split; [reflexivity|].
      repeat split; try done; try (repeat constructor; by eauto).
      unfold body_bytes. simpl. by rewrite app_nil_r.
Qed.

(** X12.  With [forV2Creation=true], when a read of the file fails after
    [n] bytes, the status the client gets is 500 only if no byte was sent
    before; once bytes were sent it is 200, and the line of the error
    follows them in the body. *)
Theorem raw_download_read_failure (s : Service) (fs : FS) (request : Request)
    (sf : SyncingFile) (data : list byte) (n : nat) (e : error) :
  names_ready s request sf →
  Get_param (Query request) "forV2Creation" = "true" →
  Method request ≠ "HEAD" →
  fs !! filePath sf = Some data →
  ∃ w, DownloadToDst GetFileReader gzip s fs (Some (n, e)) newResponse request
       = Returned w
    ∧ StatusCode w = (if decide (take n data = []) then StatusInternalServerError
                      else StatusOK)
    ∧ Body w = (if decide (take n data = []) then [] else [Bytes (take n data)])
               ++ [ErrorLine e].
Proof using Type.
  intros (p & Hid & Hsf & Hready) Hv2 Hhead Hfile. unfold DownloadToDst.
  unfold mux_Vars_id, lookupSyncFile. rewrite Hid, Hsf.
  rewrite decide_False by (intros Hne; by apply Hne).
  rewrite decide_True by done. unfold sf_filePath. rewrite Hfile.
  rewrite decide_False by done. simpl.
  destruct (take n data) as [|b sent] eqn:Hsent; simpl.
  - eexists. split; [reflexivity|]. done.
  - eexists. split; [reflexivity|]. done.
Qed.

(** X13.  Without [forV2Creation=true] the method of the request is not
    looked at: a [HEAD] request is answered like a [GET] request, body
    included. *)
Theorem gzip_download_ignores_method (s : Service) (fs : FS)
    (readFault : option (nat * error)) (writer : Response) (request : Request)
    (method : string) :
  Get_param (Query request) "forV2Creation" ≠ "true" →
  DownloadToDst GetFileReader gzip s fs readFault writer (with_method method request)
  = DownloadToDst GetFileReader gzip s fs readFault writer request.
Proof.
  intros Hv2. unfold DownloadToDst, mux_Vars_id. simpl.
  destruct (url.QueryUnescape _); [|done].
  destruct (lookupSyncFile s a); [|done].
  case_decide; [done|]. by rewrite !decide_False by done.
Qed.

(** X14.  Without [forV2Creation=true], a request for a ready file panics
    when the path of the file has no ["/"], and returns a response when it
    has one. *)
Theorem gzip_download_panics_without_slash (s : Service) (fs : FS)
    (readFault : option (nat * error)) (request : Request) (sf : SyncingFile) :
  names_ready s request sf →
  Get_param (Query request) "forV2Creation" ≠ "true" →
  (occurs "/" (filePath sf) = false →
   DownloadToDst GetFileReader gzip s fs readFault newResponse request
   = Panicked "index out of range")
  ∧ (occurs "/" (filePath sf) = true →
     ∃ w, DownloadToDst GetFileReader gzip s fs readFault newResponse request
          = Returned w).
Proof.
  intros (p & Hid & Hsf & Hready) Hv2. unfold DownloadToDst.
  unfold mux_Vars_id, lookupSyncFile. rewrite Hid, Hsf.
  rewrite decide_False by (intros Hne; by apply Hne).
  rewrite decide_False by done. unfold sf_filePath.
  rewrite Split_length. split; intros ->; [done|].
  destruct (GetFileReader sf fs); [|by eexists].
  destruct (io_Copy a readFault) as [sent [e|]]; by eexists.
Qed.

(** X15.  Without [forV2Creation=true], once the reader of a ready file is
    open the status is 200 whether the reads fail or not; the body holds
    the compressed bytes that were read, followed by the line of the error
    when a read failed. *)
Theorem gzip_download_status (s : Service) (fs : FS)
    (readFault : option (nat * error)) (request : Request) (sf : SyncingFile)
    (data : list byte) :
  names_ready s request sf →
  Get_param (Query request) "forV2Creation" ≠ "true" →
  occurs "/" (filePath sf) = true →
  GetFileReader sf fs = Ok data →
  ∃ w, DownloadToDst GetFileReader gzip s fs readFault newResponse request = Returned w
    ∧ StatusCode w = StatusOK
    ∧ Body w = match readFault with
               | Some (n, e) => [Bytes (gzip (take n data)); ErrorLine e]
               | None => [Bytes (gzip data)]
               end.
Proof.
  intros (p & Hid & Hsf & Hready) Hv2 Hslash Hreader. unfold DownloadToDst.
  unfold mux_Vars_id, lookupSyncFile. rewrite Hid, Hsf.
  rewrite decide_False by (intros Hne; by apply Hne).
  rewrite decide_False by done. unfold sf_filePath.
  rewrite Split_length, Hslash, Hreader.
  destruct readFault as [[n e]|]; simpl; eexists; (split; [reflexivity|]); done.
Qed.

(** X16.  Without [forV2Creation=true], the file name offered to the client
    for a file at [dir/name-rest/base] is [name.gz]: the name of the parent
    directory up to its first ["-"]. *)
Theorem gzip_download_file_name (s : Service) (fs : FS)
    (readFault : option (nat * error)) (request : Request) (sf : SyncingFile)
    (data : list byte) (dir name rest base : string) :
  names_ready s request sf →
  Get_param (Query request) "forV2Creation" ≠ "true" →
  GetFileReader sf fs = Ok data →
  filePath sf = (dir ++ String "/" (name ++ String "-" rest ++ String "/" base))%string →
  occurs "/" name = false → occurs "-" name = false →
  occurs "/" rest = false → occurs "/" base = false →
  ∃ w, DownloadToDst GetFileReader gzip s fs readFault newResponse request = Returned w
    ∧ Header w !! "Content-Disposition"
      = Some ("attachment; filename=" ++ name ++ ".gz")%string.
Proof.
  intros (p & Hid & Hsf & Hready) Hv2 Hreader Hpath Hn1 Hn2 Hr Hb.
  unfold DownloadToDst.
  unfold mux_Vars_id, lookupSyncFile. rewrite Hid, Hsf.
  rewrite decide_False by (intros Hne; by apply Hne).
  rewrite decide_False by done. unfold sf_filePath. rewrite Hpath.
  assert (Hparent : occurs "/" (name ++ String "-" rest)%string = false).
  { clear -Hn1 Hr. induction name as [|c name IH]; simpl in *; [done|].
    apply orb_false_iff in Hn1 as [-> Hn1]. by apply IH. }
  rewrite Split_app.
  rewrite <- (append_assoc_string name (String "-" rest) (String "/" base)).
  rewrite Split_app, (Split_without _ _ Hparent), (Split_without _ _ Hb).
  simpl app.
  destruct (second_to_last (strings.Split dir "/") (name ++ String "-" rest)%string base)
    as [Hlen Hlook].
  rewrite Hlen, Hlook.
  simpl. rewrite Hreader.
  rewrite Split_app, (Split_without _ _ Hn2). simpl.
  destruct (io_Copy data readFault) as [sent [e|]]; simpl;
    eexists; (split; [reflexivity|]); simpl.
  - by simplify_map_eq.
  - by simplify_map_eq.
Qed.

End StreamingProperties.

(** ** More on the copy pump *)

Section MorePumpProperties.

Context {W : Type} `{WriteSeeker W}.

(** The four ways the block on the bytes of one read ends: nothing to do,
    a panic, a call that succeeded, a call that failed. *)
Lemma handle_outcome (writeZero : bool) (data : list byte) (st : pump W) :
  reads (handle writeZero data st) = reads st
  ∧ ((data = [] ∧ handle writeZero data st = st)
     ∨ ((DownloadBufferSize < length data)%nat
        ∧ panicked (handle writeZero data st) = true
        ∧ calls (handle writeZero data st) = calls st
        ∧ progress (handle writeZero data st) = progress st
        ∧ copied (handle writeZero data st) = copied st)
     ∨ (∃ c, panicked (handle writeZero data st) = false
             ∧ err (handle writeZero data st) = None
             ∧ calls (handle writeZero data st) = calls st ++ [c]
             ∧ progress (handle writeZero data st) = progress st ++ [call_count c]
             ∧ copied (handle writeZero data st) = wrap64 (copied st + call_count c))
     ∨ (∃ c e, panicked (handle writeZero data st) = false
               ∧ err (handle writeZero data st) = Some e
               ∧ calls (handle writeZero data st) = calls st ++ [c]
               ∧ progress (handle writeZero data st) = progress st
               ∧ copied (handle writeZero data st) = copied st)).
Proof.
  unfold handle.
  destruct (0 <? length data)%nat eqn:Hpos.
  2:{ split; [done|]. left. apply Nat.ltb_ge in Hpos.
      destruct data; simpl in *; [done|lia]. }
  destruct (DownloadBufferSize <? length data)%nat eqn:Hbig.
  { split; [done|]. right. left. apply Nat.ltb_lt in Hbig. done. }
  destruct (negb writeZero && _).
  - destruct (ws_Seek _ _) as [d [e|]]; simpl; (split; [done|]).
    + right. right. right. by eexists _, _.
    + right. right. left. by eexists.
  - destruct (ws_Write _ _) as [[d nw] [e|]]; simpl; (split; [done|]).
    + right. right. right. by eexists _, _.
    + right. right. left. by eexists.
Qed.

Lemma sum_counts_snoc (counts : list Z) (n : Z) :
  sum_counts (counts ++ [n]) = sum_counts counts + n.
Proof. unfold sum_counts. induction counts as [|c cs IH]; simpl; lia. Qed.

Lemma replay_snoc (d d' d'' : W) (cs : list dstCall) (c c' : dstCall)
    (tr : list (dstCall * option error)) (e : option error) :
  replay d cs = (tr, d') → made d' c = (d'', c', e) →
  replay d (cs ++ [c]) = (tr ++ [(c', e)], d'').
Proof.
  revert d tr. induction cs as [|c0 cs IH]; intros d tr; simpl.
  - intros [= <- <-] ->. done.
  - destruct (made d c0) as [[d0 c0'] e0].
    destruct (replay d0 cs) as [tr0 d1] eqn:Hrest.
    intros [= <- <-] Hmade. by rewrite (IH _ _ Hrest Hmade).
Qed.

(** The call the block on the bytes of one read makes on [dst], if any,
    is recorded with the count and followed by the error it returned. *)
Lemma handle_made (writeZero : bool) (data : list byte) (st : pump W) :
  (calls (handle writeZero data st) = calls st
   ∧ dst (handle writeZero data st) = dst st
   ∧ progress (handle writeZero data st) = progress st
   ∧ copied (handle writeZero data st) = copied st
   ∧ err (handle writeZero data st) = err st)
  ∨ (∃ c, made (dst st) c = (dst (handle writeZero data st), c, None)
          ∧ calls (handle writeZero data st) = calls st ++ [c]
          ∧ progress (handle writeZero data st) = progress st ++ [call_count c]
          ∧ copied (handle writeZero data st) = wrap64 (copied st + call_count c)
          ∧ err (handle writeZero data st) = None)
  ∨ (∃ c e, made (dst st) c = (dst (handle writeZero data st), c, Some e)
            ∧ calls (handle writeZero data st) = calls st ++ [c]
            ∧ progress (handle writeZero data st) = progress st
            ∧ copied (handle writeZero data st) = copied st
            ∧ err (handle writeZero data st) = Some e).
Proof.
  unfold handle.
  destruct (0 <? length data)%nat; [|by left].
  destruct (DownloadBufferSize <? length data)%nat; [by left|].
  destruct (negb writeZero && _).
  - destruct (ws_Seek _ _) as [d [e|]] eqn:Hseek; simpl; right.
    + right. exists (CallSeek (Z.of_nat (length data))), e. simpl.
      by rewrite Hseek.
    + left. exists (CallSeek (Z.of_nat (length data))). simpl. by rewrite Hseek.
  - destruct (ws_Write _ _) as [[d nw] [e|]] eqn:Hwrite; simpl; right.
    + right. exists (CallWrite data nw), e. simpl. by rewrite Hwrite.
    + left. exists (CallWrite data nw). simpl. by rewrite Hwrite.
Qed.

Lemma copyLoop_replay (writeZero : bool) (ctxDone : nat → bool) (d : W)
    (src : list read) :
  ∀ (i : nat) (st : pump W),
    err st = None →
    copied st = wrap64 (sum_counts (progress st)) →
    replay d (calls st) = ((λ c, (c, None)) <$> calls st, dst st) →
    progress st = call_count <$> calls st →
    copied (copyLoop writeZero ctxDone i src st)
    = wrap64 (sum_counts (progress (copyLoop writeZero ctxDone i src st)))
    ∧ ((replay d (calls (copyLoop writeZero ctxDone i src st))
        = ((λ c, (c, None)) <$> calls (copyLoop writeZero ctxDone i src st),
           dst (copyLoop writeZero ctxDone i src st))
        ∧ progress (copyLoop writeZero ctxDone i src st)
          = call_count <$> calls (copyLoop writeZero ctxDone i src st))
       ∨ ∃ cs c e,
           calls (copyLoop writeZero ctxDone i src st) = cs ++ [c]
           ∧ replay d (calls (copyLoop writeZero ctxDone i src st))
             = (((λ c, (c, None)) <$> cs) ++ [(c, Some e)],
                dst (copyLoop writeZero ctxDone i src st))
           ∧ progress (copyLoop writeZero ctxDone i src st) = call_count <$> cs
           ∧ err (copyLoop writeZero ctxDone i src st) = Some e).
Proof.
  induction src as [|[data rErr] src IH]; intros i st He Hc Hr Hp; simpl.
  - destruct (ctxDone i); simpl; (split; [done|]); by left.
  - destruct (ctxDone i); [simpl; split; [done|]; by left|].
    assert (Hstep :
      let st' := handle writeZero data (counted (data, rErr) st) in
      (err st' = None ∧ copied st' = wrap64 (sum_counts (progress st'))
       ∧ replay d (calls st') = ((λ c, (c, None)) <$> calls st', dst st')
       ∧ progress st' = call_count <$> calls st')
      ∨ ∃ cs c e, calls st' = cs ++ [c]
           ∧ replay d (calls st') = (((λ c, (c, None)) <$> cs) ++ [(c, Some e)], dst st')
           ∧ progress st' = call_count <$> cs ∧ err st' = Some e
           ∧ copied st' = wrap64 (sum_counts (progress st'))).
    { simpl.
      destruct (handle_made writeZero data (counted (data, rErr) st))
        as [(Hcs & Hd & Hpr & Hco & Her)
           |[(c & Hm & Hcs & Hpr & Hco & Her)|(c & e & Hm & Hcs & Hpr & Hco & Her)]];
        simpl in *.
      - left. rewrite Her, Hco, Hpr, Hcs, Hd. done.
      - left. rewrite Her, Hco, Hpr, Hcs. repeat split.
        + by rewrite Hc, sum_counts_snoc, wrap64_idemp.
        + rewrite fmap_app. simpl. by apply (replay_snoc _ _ _ _ _ _ _ _ Hr Hm).
        + by rewrite fmap_app, Hp.
      - right. exists (calls st), c, e. rewrite Hcs, Hpr, Hco, Her.
        repeat split; try done.
        by apply (replay_snoc _ _ _ _ _ _ _ _ Hr Hm). }
    simpl in Hstep.
    destruct Hstep as [(He' & Hc' & Hr' & Hp')|(cs & c & e & Hcs & Hr' & Hp' & He' & Hc')].
    + destruct (panicked (handle writeZero data (counted (data, rErr) st)));
        [split; [done|]; by left|].
      rewrite He'.
      destruct rErr as [e|]; [|by apply IH].
      destruct e; simpl; (split; [done|]); by left.
    + destruct (panicked (handle writeZero data (counted (data, rErr) st)));
        [split; [done|]; right; by exists cs, c, e|].
      rewrite He'. split; [done|]. right. by exists cs, c, e.
Qed.

(** X17.  The count the pump returns is the sum, as an [int64], of the
    progress it reported.  The calls recorded are the calls made: replayed
    in order on the destination the pump was given, they return the counts
    recorded and leave the destination the pump ends with.  Either none of
    them returned an error, and the progress reported is the count of
    each; or all but the last returned none, the last returned an error,
    the pump returns that error, and the progress reported is the count of
    each call before the last. *)
Theorem pump_progress_accounting (writeZero : bool) (ctxDone : nat → bool)
    (src : list read) (d : W) :
  copied (IdleTimeoutCopy ctxDone src d writeZero)
  = wrap64 (sum_counts (progress (IdleTimeoutCopy ctxDone src d writeZero)))
  ∧ (replay d (calls (IdleTimeoutCopy ctxDone src d writeZero))).2
    = dst (IdleTimeoutCopy ctxDone src d writeZero)
  ∧ fst <$> (replay d (calls (IdleTimeoutCopy ctxDone src d writeZero))).1
    = calls (IdleTimeoutCopy ctxDone src d writeZero)
  ∧ ((Forall (λ ce, ce.2 = None)
        (replay d (calls (IdleTimeoutCopy ctxDone src d writeZero))).1
      ∧ progress (IdleTimeoutCopy ctxDone src d writeZero)
        = call_count <$> calls (IdleTimeoutCopy ctxDone src d writeZero))
     ∨ ∃ cs c e,
         calls (IdleTimeoutCopy ctxDone src d writeZero) = cs ++ [c]
         ∧ snd <$> (replay d (calls (IdleTimeoutCopy ctxDone src d writeZero))).1
           = replicate (length cs) None ++ [Some e]
         ∧ progress (IdleTimeoutCopy ctxDone src d writeZero) = call_count <$> cs
         ∧ err (IdleTimeoutCopy ctxDone src d writeZero) = Some e).
Proof.
  unfold IdleTimeoutCopy.
  destruct (copyLoop_replay writeZero ctxDone d src 0 (pump_init d))
    as [Hc [[Hr Hp]|(cs & c & e & Hcs & Hr & Hp & He)]]; try done.
  - split; [done|]. rewrite Hr. simpl. split; [done|]. split.
    + rewrite <- list_fmap_compose. apply list_fmap_id.
    + left. split; [|done]. apply Forall_fmap. by apply Forall_true.
  - split; [done|]. rewrite Hr. simpl. split; [done|]. split.
    + rewrite Hcs, fmap_app, <- list_fmap_compose. simpl. f_equal.
      apply list_fmap_id.
    + right. exists cs, c, e. repeat split; try done.
      rewrite fmap_app. simpl. f_equal.
      clear. induction cs as [|c0 cs IH]; [done|]. csimpl. f_equal. exact IH.
Qed.

(** X18.  With [writeZero = true], over reads that fit the buffer, the pump
    never seeks: the calls on the destination are, in order, one write of
    all the bytes of each read that returned some, zeros included. *)
Theorem write_zero_never_seeks (ctxDone : nat → bool) (src : list read) (d : W) :
  Forall (λ rd, (length rd.1 ≤ DownloadBufferSize)%nat) src →
  panicked (IdleTimeoutCopy ctxDone src d true) = false
  ∧ Forall2 (λ data c, ∃ n, c = CallWrite data n)
      (filter (λ data, data ≠ []) (fst <$> reads (IdleTimeoutCopy ctxDone src d true)))
      (calls (IdleTimeoutCopy ctxDone src d true)).
Proof.
  intros Hfit. unfold IdleTimeoutCopy.
  apply (copyLoop_invariant
           (λ st, panicked st = false
                  ∧ Forall2 (λ data c, ∃ n, c = CallWrite data n)
                      (filter (λ data, data ≠ []) (fst <$> reads st)) (calls st))
           (λ rd, (length rd.1 ≤ DownloadBufferSize)%nat)).
  - done.
  - intros st [data rErr] Hlen _ _ [Hpan Hcalls]. simpl in Hlen. simpl.
    destruct (handle_calls true data (counted (data, rErr) st))
      as (Hrd & cs & Hcs & Hkind & Hfits).
    destruct (Hfits Hlen Hpan) as (Hpan' & Hnil & Hcons).
    split; [done|]. rewrite Hrd, Hcs. simpl.
    rewrite fmap_app, filter_app. apply Forall2_app; [done|]. simpl.
    destruct (decide (data = [])) as [->|Hne].
    + rewrite Hnil by done. rewrite filter_cons_False by (intros ?; done).
      constructor.
    + rewrite filter_cons_True by done. rewrite filter_nil.
      destruct Hkind as [->|[(? & _)|(n & -> & _)]]; [by destruct Hcons|done|].
      repeat constructor. by exists n.
  - simpl. lia.
  - done.
  - done.
  - done.
  - simpl. split; [done|]. constructor.
Qed.

(** X19.  The pump returns without an error only once the source has
    signalled the end of the stream: the last read it made returned
    [io.EOF]. *)
Theorem pump_success_reaches_eof (writeZero : bool) (ctxDone : nat → bool)
    (src : list read) (d : W) :
  err (IdleTimeoutCopy ctxDone src d writeZero) = None →
  panicked (IdleTimeoutCopy ctxDone src d writeZero) = false →
  ∃ before data,
    reads (IdleTimeoutCopy ctxDone src d writeZero) = before ++ [(data, Some ErrEOF)].
Proof.
  unfold IdleTimeoutCopy. generalize (pump_init d) as st. generalize 0%nat as i.
  induction src as [|[data rErr] src IH]; intros i st; simpl.
  - destruct (ctxDone i); [done|]. intros _ _. by eexists _, _.
  - destruct (ctxDone i); [done|].
    destruct (handle_outcome writeZero data (counted (data, rErr) st)) as [Hrd _].
    destruct (panicked (handle _ _ _)) eqn:Hp; [intros _ Hf; congruence|].
    destruct (err (handle _ _ _)) eqn:He; [intros Hf _; congruence|].
    destruct rErr as [e|]; [|apply IH].
    destruct e; try done. intros _ _. rewrite Hrd. simpl. by eexists _, _.
Qed.

(** X20.  Once the context is seen done the pump reads no more: when
    [ctx.Done()] is closed from the pass [k] on, the pump has made at most
    [k] reads. *)
Theorem pump_stops_reading_when_cancelled (writeZero : bool) (ctxDone : nat → bool)
    (src : list read) (d : W) (k : nat) :
  (∀ i, (k ≤ i)%nat → ctxDone i = true) →
  (length (reads (IdleTimeoutCopy ctxDone src d writeZero)) ≤ k)%nat.
Proof.
  intros Hdone. unfold IdleTimeoutCopy.
  assert (Hgen : ∀ src i st,
    (length (reads (copyLoop writeZero ctxDone i src st))
     ≤ length (reads st) + (k - i))%nat).
  { clear src. induction src as [|[data rErr] src IH]; intros i st; simpl.
    - destruct (ctxDone i) eqn:Hi; simpl; [lia|].
      rewrite length_app. simpl.
      destruct (decide (k ≤ i)%nat) as [Hle|Hlt]; [|lia].
      rewrite Hdone in Hi by done. done.
    - destruct (ctxDone i) eqn:Hi; simpl; [lia|].
      assert (Hlt : (i < k)%nat).
      { destruct (decide (k ≤ i)%nat) as [Hle|Hlt]; [|lia].
        rewrite Hdone in Hi by done. done. }
      destruct (handle_outcome writeZero data (counted (data, rErr) st)) as [Hrd _].
      simpl in Hrd.
      assert (Hhere : (length (reads (handle writeZero data (counted (data, rErr) st)))
                       ≤ length (reads st) + (k - i))%nat).
      { rewrite Hrd, length_app. simpl. lia. }
      destruct (panicked (handle _ _ _)); [done|].
      destruct (err (handle _ _ _)); [done|].
      destruct rErr as [e|].
      + destruct e; done.
      + etrans; [apply IH|]. rewrite Hrd, length_app. simpl. lia. }
  specialize (Hgen src 0%nat (pump_init d)). simpl in Hgen. lia.
Qed.

End MorePumpProperties.

(** On a disk whose second call fails, the pump stops at that call: the
    first write is reported, the seek is not, and its error is returned. *)
Example pump_stops_at_failed_call :
  snd <$> (replay (newFile second_call_fails)
             (calls (IdleTimeoutCopy never body_with_hole
                       (newFile second_call_fails) false))).1
  = [None; Some (ErrEnv "input/output error")]
  ∧ progress (IdleTimeoutCopy never body_with_hole (newFile second_call_fails) false)
    = [2]
  ∧ err (IdleTimeoutCopy never body_with_hole (newFile second_call_fails) false)
    = Some (ErrEnv "input/output error").
Proof. vm_compute. done. Qed.

(** ** Downloads that succeed *)

Lemma handle_file_steady (writeZero : bool) (data : list byte) (st : pump File) :
  (∀ i, opFault (faults (dst st)) i = None) →
  (length data ≤ DownloadBufferSize)%nat →
  err st = None → panicked st = false →
  err (handle writeZero data st) = None
  ∧ panicked (handle writeZero data st) = false
  ∧ faults (dst (handle writeZero data st)) = faults (dst st).
Proof.
  intros Hok Hlen He Hp. unfold handle.
  destruct (0 <? length data)%nat; [|done].
  replace (DownloadBufferSize <? length data)%nat with false
    by (symmetry; apply Nat.ltb_ge; lia).
  destruct (negb writeZero && _); simpl.
  - unfold File_Seek. rewrite Hok.
    replace (Z.of_nat (offset (dst st)) + Z.of_nat (length data) <? 0) with false
      by (symmetry; apply Z.ltb_ge; lia).
    done.
  - unfold File_Write. rewrite Hok. done.
Qed.

Lemma concat_consumed_cons (data : list byte) (rest : list read) :
  concat (fst <$> consumed ((data, None) :: rest))
  = data ++ concat (fst <$> consumed rest).
Proof. done. Qed.

(** Over a clean body, with a disk that does not fail and a context that
    is never done, the pump ends without an error and has read the body up
    to its first [io.EOF]. *)
Lemma pump_clean_run (writeZero : bool) (ctxDone : nat → bool) (src : list read) :
  (∀ i, ctxDone i = false) → clean src →
  ∀ i st, (∀ j, opFault (faults (dst st)) j = None) →
    err st = None → panicked st = false →
    err (copyLoop writeZero ctxDone i src st) = None
    ∧ panicked (copyLoop writeZero ctxDone i src st) = false
    ∧ concat (fst <$> reads (copyLoop writeZero ctxDone i src st))
      = concat (fst <$> reads st) ++ concat (fst <$> consumed src).
Proof.
  intros Hctx. induction src as [|[data rErr] src IH]; intros Hclean i st Hok He Hp;
    simpl; rewrite Hctx.
  - simpl. rewrite concat_reads_snoc. simpl. by rewrite !app_nil_r.
  - apply Forall_cons in Hclean as [[Hlen Herr] Hclean]. simpl in Hlen, Herr.
    destruct (handle_file_steady writeZero data (counted (data, rErr) st))
      as (He' & Hp' & Hf'); try done.
    destruct (handle_outcome writeZero data (counted (data, rErr) st)) as [Hrd _].
    simpl in Hrd. rewrite Hp', He'.
    destruct Herr as [->| ->].
    + destruct (IH Hclean (S i) (handle writeZero data (counted (data, None) st)))
        as (He'' & Hp'' & Hreads); try done.
      { intros j. rewrite Hf'. apply Hok. }
      repeat split; try done. rewrite Hreads, Hrd, concat_reads_snoc. simpl.
      by rewrite <- app_assoc.
    + repeat split; try done. rewrite Hrd, concat_reads_snoc. simpl.
      by rewrite app_nil_r.
Qed.

(** On a file, as long as no call failed, the progress reported adds up to
    the position of the file. *)
Lemma pump_file_progress (writeZero : bool) (ctxDone : nat → bool) (src : list read)
    (d : DiskFaults) :
  err (IdleTimeoutCopy ctxDone src (newFile d) writeZero) = None →
  panicked (IdleTimeoutCopy ctxDone src (newFile d) writeZero) = false →
  sum_counts (progress (IdleTimeoutCopy ctxDone src (newFile d) writeZero))
  = Z.of_nat (offset (dst (IdleTimeoutCopy ctxDone src (newFile d) writeZero))).
Proof.
  unfold IdleTimeoutCopy.
  apply (copyLoop_invariant
           (λ st, err st = None → panicked st = false →
                  sum_counts (progress st) = Z.of_nat (offset (dst st)))
           (λ _, True)); try done.
  - intros st [data rErr] _ He Hp Hst. specialize (Hst He Hp). simpl.
    unfold handle. simpl.
    destruct (0 <? length data)%nat; [|done].
    destruct (DownloadBufferSize <? length data)%nat; [done|].
    destruct (negb writeZero && _).
    + unfold File_Seek. destruct (opFault _ _) as [[n e]|]; [done|].
      destruct (_ <? 0) eqn:Hneg; [done|]. simpl. intros _ _.
      rewrite sum_counts_snoc, Hst. lia.
    + unfold File_Write. destruct (opFault _ _) as [[n e]|]; [done|].
      simpl. intros _ _. rewrite sum_counts_snoc, Hst. lia.
  - by apply Forall_forall.
Qed.

(** X21.  When the origin answers 200, the disk does not fail, the context
    is never done and every read of the body fits the buffer and carries no
    error other than the end of the stream, the download succeeds: it
    returns the number of bytes of the body up to its end, and leaves at the
    path exactly those bytes, runs of zeros included, whatever the path held
    before (as long as that number is below [2^63]). *)
Theorem clean_download_succeeds (net : Network) (d : DiskFaults) (ctxDone : nat → bool)
    (fs : FS) (url filePath : string) (resp : HTTPResponse) :
  reaches_copy net d url resp →
  (∀ i, opFault d i = None) → truncateFault d = None →
  (∀ i, ctxDone i = false) →
  clean (RespBody resp) →
  Z.of_nat (length (concat (fst <$> consumed (RespBody resp)))) < 2 ^ 63 →
  ∃ prog, HTTPHandler_DownloadFromURL net d ctxDone fs url filePath
          = Returned (Z.of_nat (length (concat (fst <$> consumed (RespBody resp)))),
                      None,
                      <[filePath := concat (fst <$> consumed (RespBody resp))]> fs,
                      prog)
    ∧ sum_counts prog = Z.of_nat (length (concat (fst <$> consumed (RespBody resp)))).
Proof.
  intros (Hnew & Hdo & Hstatus & Hcreate) Hops Htrunc Hctx Hclean Hsmall.
  destruct (pump_clean_run false ctxDone (RespBody resp) Hctx Hclean 0%nat
              (pump_init (newFile d))) as (He & Hp & Hreads); try done.
  simpl in Hreads. fold (IdleTimeoutCopy ctxDone (RespBody resp) (newFile d) false) in *.
  destruct (pump_file_image false ctxDone (RespBody resp) d He Hp)
    as (Hlen & Himg & Hcopied).
  pose proof (pump_file_progress false ctxDone (RespBody resp) d He Hp) as Hsum.
  set (r := IdleTimeoutCopy ctxDone (RespBody resp) (newFile d) false) in *.
  assert (Hfaults : faults (dst r) = d).
  { subst r. unfold IdleTimeoutCopy.
    apply (copyLoop_invariant (λ st, faults (dst st) = d) (λ _, True)); try done.
    - intros st [data rErr] _ _ _ Hst. simpl. unfold handle.
      repeat case_match; simpl; try done; simplify_eq.
      + unfold ws_Seek in *. simpl in *. unfold File_Seek in *.
        repeat case_match; by simplify_eq.
      + unfold ws_Seek in *. simpl in *. unfold File_Seek in *.
        repeat case_match; by simplify_eq.
      + unfold ws_Write in *. simpl in *. unfold File_Write in *.
        repeat case_match; by simplify_eq.
      + unfold ws_Write in *. simpl in *. unfold File_Write in *.
        repeat case_match; by simplify_eq.
    - by apply Forall_forall. }
  assert (Hoff : offset (dst r) = length (concat (fst <$> reads r))).
  { rewrite <- Himg. unfold image. rewrite length_app, length_replicate. lia. }
  rewrite Hreads in Hoff, Himg.
  rewrite wrap64_small in Hcopied by lia.
  unfold HTTPHandler_DownloadFromURL, os_Create.
  rewrite Hnew, Hdo, Hcreate. rewrite decide_False by (intros Hne; by apply Hne).
  fold r. rewrite Hp, He. unfold File_Truncate. rewrite Hfaults, Htrunc.
  replace (copied r <? 0) with false by (symmetry; apply Z.ltb_ge; lia).
  exists (progress r). split.
  - assert (Hcontent :
      take (length (concat (fst <$> consumed (RespBody resp))))
        (content (dst r)
         ++ replicate (length (concat (fst <$> consumed (RespBody resp)))
                       - length (content (dst r))) x00)
      = concat (fst <$> consumed (RespBody resp))).
    { pose proof Himg as Hi. unfold image in Hi. rewrite Hoff in Hi. rewrite Hi.
      apply take_ge. lia. }
    rewrite Hcopied, Hoff. simpl. by rewrite insert_insert_eq, Nat2Z.id, Hcontent.
  - rewrite Hsum. by rewrite Hoff.
Qed.

(** ** Sizes *)

Lemma parse_digits_range (s : string) (n m : Z) :
  0 ≤ n ≤ strconv.maxUint64 →
  strconv.parse_digits s n = inr m → 0 ≤ m ≤ strconv.maxUint64.
Proof.
  revert n. induction s as [|c rest IH]; intros n Hn; simpl.
  - by intros [= <-].
  - destruct (strconv.digit_of c) as [dg|] eqn:Hd; [|done].
    destruct (_ <=? n) eqn:Hcut; [done|].
    destruct (strconv.maxUint64 <? n * 10 + dg) eqn:Hmax; [done|].
    apply IH. apply Z.ltb_ge in Hmax. split; [|done].
    unfold strconv.digit_of in Hd.
    destruct (_ && _) eqn:Hrange; [|done]. injection Hd as <-.
    apply andb_true_iff in Hrange as [?%Z.leb_le ?]. lia.
Qed.

Lemma parse_int_range (fn s : string) (n : Z) :
  strconv.parse_int fn s = Ok n → - 2 ^ 63 ≤ n < 2 ^ 63.
Proof.
  unfold strconv.parse_int. destruct s as [|c rest]; [done|].
  destruct (strconv.ParseUint _) as [[|]|un] eqn:Hun; [done|done|].
  assert (Hpos : 0 ≤ un ≤ strconv.maxUint64).
  { unfold strconv.ParseUint in Hun.
    destruct (if _ || _ then rest else String c rest); [done|].
    eapply parse_digits_range; [|done]. unfold strconv.maxUint64. lia. }
  destruct (Ascii.eqb c "-"); simpl.
  - destruct (2 ^ 63 <? un) eqn:Hcut; [done|]. apply Z.ltb_ge in Hcut.
    intros [= <-]. lia.
  - destruct (2 ^ 63 <=? un) eqn:Hcut; [done|]. apply Z.leb_gt in Hcut.
    intros [= <-]. lia.
Qed.

(** X22.  [GetSizeFromURL] returns size 0 with every error.  When it
    returns no error the origin answered 200, and the size is -1 if the
    answer has no [Content-Length] and otherwise the integer that header
    reads as, negative ones included; it is always within [int64]. *)
Theorem get_size_result (newRequest : string → option error)
    (head : string → result HeadResponse) (url : string)
    (size : Z) (failure : option error) :
  HTTPHandler_GetSizeFromURL newRequest head url = (size, failure) →
  (failure ≠ None → size = 0)
  ∧ (failure = None →
     - 2 ^ 63 ≤ size < 2 ^ 63
     ∧ ∃ resp, newRequest url = None ∧ head url = Ok resp
         ∧ HeadStatusCode resp = StatusOK
         ∧ if decide (Get_param (HeadHeader resp) "Content-Length" = "")
           then size = -1
           else strconv.ParseInt (Get_param (HeadHeader resp) "Content-Length")
                = Ok size).
Proof.
  unfold HTTPHandler_GetSizeFromURL.
  destruct (newRequest url) as [e|]; [by intros [= <- <-]|].
  destruct (head url) as [resp|e]; [|by intros [= <- <-]].
  destruct (decide (HeadStatusCode resp ≠ StatusOK)) as [|Hstatus];
    [by intros [= <- <-]|].
  apply dec_stable in Hstatus.
  destruct (decide (Get_param (HeadHeader resp) "Content-Length" = "")) as [Hcl|Hcl].
  - intros [= <- <-]. split; [done|]. intros _. split; [lia|].
    exists resp. by rewrite decide_True.
  - destruct (strconv.ParseInt _) as [n|e] eqn:Hparse; intros [= <- <-]; [|done].
    split; [done|]. intros _. split; [by eapply parse_int_range|].
    exists resp. by rewrite decide_False.
Qed.

(** ** The mock handler *)

Lemma mockTicks_run (ctxDone : nat → bool) (n i : nat) (progress : list Z) :
  (∀ j, (i ≤ j < i + n)%nat → ctxDone j = false) →
  mockTicks ctxDone i n progress = (None, progress ++ replicate n 16).
Proof.
  revert i progress. induction n as [|n IH]; intros i progress Hctx; simpl.
  - by rewrite app_nil_r.
  - rewrite Hctx by lia. rewrite IH by (intros j Hj; apply Hctx; lia).
    by rewrite <- app_assoc.
Qed.

Lemma mockTicks_cancelled (ctxDone : nat → bool) (n i k : nat) (progress : list Z) :
  (k < n)%nat →
  (∀ j, (i ≤ j < i + k)%nat → ctxDone j = false) →
  ctxDone (i + k)%nat = true →
  mockTicks ctxDone i n progress
  = (Some (Errorf "cancelled mock processing"), progress ++ replicate k 16).
Proof.
  revert i n progress. induction k as [|k IH]; intros i n progress Hk Hctx Hdone.
  - destruct n as [|n]; [lia|]. simpl. rewrite Nat.add_0_r in Hdone.
    by rewrite Hdone, app_nil_r.
  - destruct n as [|n]; [lia|]. simpl. rewrite Hctx by lia.
    rewrite (IH (S i) n) by
      (try lia; try (intros j Hj; apply Hctx; lia);
       by replace (S i + k)%nat with (i + S k)%nat by lia).
    by rewrite <- app_assoc.
Qed.

Lemma sum_counts_replicate (n : nat) (c : Z) :
  sum_counts (replicate n c) = Z.of_nat n * c.
Proof. unfold sum_counts. induction n as [|n IH]; simpl; lia. Qed.

(** X23.  When the disk does not fail and the context is not done during
    its 256 passes, the mock download returns [MockFileSize], the size the
    mock announces for every URL; it leaves at the path a file of that many
    zero bytes, whatever the path held, and reports that many bytes of
    progress, 16 at a time. *)
Theorem mock_download_succeeds (d : DiskFaults) (ctxDone : nat → bool) (fs : FS)
    (url filePath : string) :
  createFault d = None → truncateFault d = None →
  (∀ i, (1 ≤ i ≤ 256)%nat → ctxDone i = false) →
  ∃ data prog,
    MockHandler_DownloadFromURL d ctxDone fs url filePath
    = ((MockHandler_GetSizeFromURL url).1, None, <[filePath := data]> fs, prog)
    ∧ data = replicate (Z.to_nat MockFileSize) x00
    ∧ prog = replicate 256 16
    ∧ sum_counts prog = MockFileSize.
Proof.
  intros Hcreate Htrunc Hctx.
  unfold MockHandler_DownloadFromURL, MockHandler_mockFile, os_Create, File_Truncate.
  rewrite Hcreate. simpl faults. rewrite Htrunc.
  change (MockFileSize <? 0) with false. cbv iota.
  change (Z.to_nat (MockFileSize / 16)) with 256%nat.
  rewrite mockTicks_run by (intros j Hj; apply Hctx; lia).
  eexists _, _. split; [|split; [reflexivity|split; [reflexivity|]]].
  - simpl. rewrite insert_insert_eq. reflexivity.
  - by rewrite sum_counts_replicate.
Qed.

(** X24.  When the mock download finds the context done at its pass [k],
    it returns 0 and an error after [k - 1] reports of progress, and the
    file of [MockFileSize] zero bytes stays at the path. *)
Theorem mock_download_cancelled (d : DiskFaults) (ctxDone : nat → bool) (fs : FS)
    (url filePath : string) (k : nat) :
  createFault d = None → truncateFault d = None →
  (1 ≤ k ≤ 256)%nat →
  (∀ i, (1 ≤ i < k)%nat → ctxDone i = false) →
  ctxDone k = true →
  MockHandler_DownloadFromURL d ctxDone fs url filePath
  = (0, Some (Errorf "cancelled mock processing"),
     <[filePath := replicate (Z.to_nat MockFileSize) x00]> fs,
     replicate (k - 1) 16).
Proof.
  intros Hcreate Htrunc Hk Hctx Hdone.
  unfold MockHandler_DownloadFromURL, MockHandler_mockFile, os_Create, File_Truncate.
  rewrite Hcreate. simpl faults. rewrite Htrunc.
  change (MockFileSize <? 0) with false. cbv iota.
  change (Z.to_nat (MockFileSize / 16)) with 256%nat.
  rewrite (mockTicks_cancelled ctxDone 256 1 (k - 1)).
  - simpl. by rewrite insert_insert_eq.
  - lia.
  - intros j Hj. apply Hctx. lia.
  - by replace (1 + (k - 1))%nat with k by lia.
Qed.

(** ** The redirect policy *)

(** X25.  [removeReferer] removes from the header map every key that
    reads ["referer"] in lower case, whatever its capitals, and leaves
    every other key with its values. *)
Theorem removeReferer_lookup (header : gmap string (list string)) (k : string) :
  removeReferer header !! k
  = if decide (ToLower k = "referer") then None else header !! k.
Proof.
  unfold removeReferer.
  assert (Hgen : ∀ b : gmap string (list string),
    map_fold (λ k _ h, if decide (ToLower k = "referer") then delete k h else h)
      b header !! k
    = if decide (ToLower k = "referer")
      then match header !! k with Some _ => None | None => b !! k end
      else b !! k).
  { intros b.
    apply (map_fold_weak_ind
             (λ r (m : gmap string (list string)),
                r !! k = if decide (ToLower k = "referer")
                         then match m !! k with Some _ => None | None => b !! k end
                         else b !! k)).
    - rewrite lookup_empty. by destruct (decide _).
    - intros i x m r Hi IH.
      destruct (decide (i = k)) as [->|Hne].
      + rewrite lookup_insert_eq. rewrite Hi in IH.
        destruct (decide (ToLower k = "referer")) as [Hl|Hl]; [|done].
        by rewrite lookup_delete_eq.
      + rewrite lookup_insert_ne by done.
        destruct (decide (ToLower i = "referer")); [|done].
        by rewrite lookup_delete_ne. }
  rewrite Hgen.
  destruct (decide (ToLower k = "referer")); [|done].
  by destruct (header !! k).
Qed.

(** ** Looking a file up after its registration and its cleanup *)

(** X26.  After delete or forget has answered a request whose id decodes,
    a get of the same id answers with status 404, whatever the registry
    held; both leave the writer untouched, forget leaves the disk as it
    was, and delete leaves no file at the path of the entity it removed. *)
Theorem cleaned_up_then_not_found (s : Service) (fs : FS) (writer : Response)
    (request : Request) (filePath : string) :
  url.QueryUnescape (mux_Vars_id request) = Ok filePath →
  (Delete s fs writer request).1.1 = writer
  ∧ (Forget s fs writer request).1.1 = writer
  ∧ StatusCode (Get (Delete s fs writer request).1.2 newResponse request)
    = StatusNotFound
  ∧ StatusCode (Get (Forget s fs writer request).1.2 newResponse request)
    = StatusNotFound
  ∧ (Forget s fs writer request).2 = fs
  ∧ (∀ sf, lookupSyncFile s filePath = Some sf →
           (Delete s fs writer request).2 !! sf_filePath sf = None).
Proof.
  intros Hid.
  assert (Hgone : ∀ del, lookupSyncFile (cleanup s fs filePath del).1 filePath = None).
  { intros del. unfold lookupSyncFile at 1. unfold cleanup.
    destruct (filePathMap s !! filePath ≫= (λ a, objects s !! a));
      simpl; by rewrite lookup_delete_eq. }
  unfold Delete, Forget, doCleanup. rewrite Hid.
  destruct (cleanup s fs filePath true) as [s1 fs1] eqn:H1.
  destruct (cleanup s fs filePath false) as [s2 fs2] eqn:H2.
  pose proof (Hgone true) as Hg1. pose proof (Hgone false) as Hg2.
  rewrite H1 in Hg1. rewrite H2 in Hg2. simpl in *.
  repeat split.
  - unfold Get. by rewrite Hid, Hg1.
  - unfold Get. by rewrite Hid, Hg2.
  - unfold cleanup in H2. by destruct (_ ≫= _); injection H2 as <- <-.
  - intros sf Hsf. unfold cleanup, lookupSyncFile in *. rewrite Hsf in H1.
    injection H1 as <- <-. unfold SyncingFile_Delete. apply lookup_delete_eq.
Qed.

(** X27.  A get of the path that a register call has just taken answers
    with status 200 and the JSON of the new entity, in [pending] and with
    the attributes of the call. *)
Theorem registered_then_found (s : Service)
    (filePath uuid diskUUID expectedChecksum : string) (size : Z)
    (request : Request) :
  url.QueryUnescape (mux_Vars_id request) = Ok filePath →
  filePathMap s !! filePath = None →
  fileUUIDMap s !! uuid = None →
  StatusCode
    (Get (checkAndInitSyncFile s filePath uuid diskUUID expectedChecksum size).2
       newResponse request) = StatusOK
  ∧ Body
      (Get (checkAndInitSyncFile s filePath uuid diskUUID expectedChecksum size).2
         newResponse request)
    = [Json (NewSyncingFile filePath uuid diskUUID expectedChecksum size)].
Proof.
  intros Hid Hp Hu. unfold checkAndInitSyncFile.
  rewrite decide_False by (rewrite Hp; by intros [? ?]).
  rewrite decide_False by (rewrite Hu; by intros [? ?]).
  unfold Get, lookupSyncFile. rewrite Hid. simpl.
  rewrite lookup_insert_eq. simpl. by rewrite list_lookup_middle.
Qed.

(** ** Sizes in decimal *)

Lemma decimal_value_mono (d : Decimal.uint) (acc : Z) :
  0 ≤ acc → acc ≤ decimal_value d acc.
Proof.
  revert acc. induction d as [|d IH|d IH|d IH|d IH|d IH|d IH|d IH|d IH|d IH|d IH];
    intros acc Hacc; simpl; [lia|..];
    (etrans; [|apply IH; lia]); lia.
Qed.

Lemma parse_digits_step (c : ascii) (rest : string) (acc dg n : Z) :
  strconv.digit_of c = Some dg → 0 ≤ acc → 0 ≤ dg →
  acc * 10 + dg ≤ n → n ≤ 2 ^ 63 →
  strconv.parse_digits (String c rest) acc
  = strconv.parse_digits rest (acc * 10 + dg).
Proof.
  intros Hd Hacc Hdg Hn Hmax. cbn [strconv.parse_digits]. rewrite Hd.
  change (strconv.maxUint64 / 10 + 1) with 1844674407370955162.
  change strconv.maxUint64 with 18446744073709551615.
  change (2 ^ 63) with 9223372036854775808 in Hmax.
  destruct (_ <=? acc) eqn:Hc; [apply Z.leb_le in Hc; lia|].
  destruct (_ <? _) eqn:Hm; [apply Z.ltb_lt in Hm; lia|done].
Qed.

Lemma parse_digits_numeral (d : Decimal.uint) (acc : Z) :
  0 ≤ acc → decimal_value d acc ≤ 2 ^ 63 →
  strconv.parse_digits (NilEmpty.string_of_uint d) acc = inr (decimal_value d acc).
Proof.
  revert acc. induction d as [|d IH|d IH|d IH|d IH|d IH|d IH|d IH|d IH|d IH|d IH];
    intros acc Hacc Hmax; [done|..];
    cbn [NilEmpty.string_of_uint decimal_value] in *;
    (erewrite parse_digits_step;
      [apply IH; [lia|done]
      |reflexivity|done|lia
      |apply decimal_value_mono; lia|done]).
Qed.

Lemma decimal_value_acc (d : Decimal.uint) (acc : positive) :
  decimal_value d (Z.pos acc) = Z.pos (Pos.of_uint_acc d acc).
Proof.
  revert acc. induction d as [|d IH|d IH|d IH|d IH|d IH|d IH|d IH|d IH|d IH|d IH];
    intros acc; [done|..]; cbn [decimal_value Pos.of_uint_acc];
    rewrite <- IH; f_equal; lia.
Qed.

Lemma decimal_value_of_uint (d : Decimal.uint) :
  decimal_value d 0 = Z.of_N (Pos.of_uint d).
Proof.
  induction d as [|d IH|d IH|d IH|d IH|d IH|d IH|d IH|d IH|d IH|d IH];
    [done|done|..]; cbn [decimal_value Pos.of_uint]; simpl Z.add;
    apply decimal_value_acc.
Qed.

Lemma decimal_value_positive (p : positive) :
  decimal_value (Pos.to_uint p) 0 = Z.pos p.
Proof. by rewrite decimal_value_of_uint, DecimalPos.Unsigned.of_to. Qed.

Lemma numeral_starts_with_digit (p : positive) :
  ∃ c rest, NilZero.string_of_uint (Pos.to_uint p) = String c rest
            ∧ NilEmpty.string_of_uint (Pos.to_uint p) = String c rest
            ∧ Ascii.eqb c "-" = false ∧ Ascii.eqb c "+" = false.
Proof.
  pose proof (DecimalPos.Unsigned.to_uint_nonnil p) as Hnil.
  destruct (Pos.to_uint p); [done|..]; eexists _, _; repeat split.
Qed.

Lemma ParseInt_FormatInt (n : Z) :
  - 2 ^ 63 ≤ n < 2 ^ 63 → strconv.ParseInt (FormatInt n) = Ok n.
Proof.
  intros Hn. unfold FormatInt, strconv.ParseInt.
  destruct n as [|p|p]; [done|..]; simpl Z.to_int; simpl NilZero.string_of_int.
  - destruct (numeral_starts_with_digit p) as (c & rest & -> & Hs & Hm & Hp).
    unfold strconv.parse_int. rewrite Hm, Hp. simpl orb.
    unfold strconv.ParseUint. rewrite <- Hs.
    rewrite parse_digits_numeral by (rewrite ?decimal_value_positive; lia).
    rewrite decimal_value_positive. simpl negb. simpl andb.
    destruct (2 ^ 63 <=? Z.pos p) eqn:Hc; [apply Z.leb_le in Hc; lia|done].
  - destruct (numeral_starts_with_digit p) as (c & rest & -> & Hs & _ & _).
    unfold strconv.parse_int.
    change (Ascii.eqb "-" "-") with true. rewrite orb_true_r.
    unfold strconv.ParseUint. rewrite <- Hs.
    rewrite parse_digits_numeral by (rewrite ?decimal_value_positive; lia).
    rewrite decimal_value_positive. simpl negb. simpl andb.
    destruct (2 ^ 63 <? Z.pos p) eqn:Hc; [apply Z.ltb_lt in Hc; lia|done].
Qed.

Section SizeProperties.

Variable GetFileReader : SyncingFile → FS → result (list byte).
Variable gzip : list byte → list byte.

(** X28.  The size a [HEAD] request with [forV2Creation=true] is answered
    with is the size [GetSizeFromURL] reads: for a ready file that is on
    the disk with fewer than 2^63 bytes, the handler writes no body, and
    [GetSizeFromURL], given the status and the header of that answer,
    returns the length of the file and no error. *)
Theorem advertised_size_read_back (s : Service) (fs : FS)
    (readFault : option (nat * error)) (request : Request) (sf : SyncingFile)
    (content : list byte) (newRequest : string → option error)
    (head : string → result HeadResponse) (link status : string) :
  names_ready s request sf →
  Get_param (Query request) "forV2Creation" = "true" →
  Method request = "HEAD" →
  fs !! filePath sf = Some content →
  Z.of_nat (length content) < 2 ^ 63 →
  newRequest link = None →
  (∀ w, DownloadToDst GetFileReader gzip s fs readFault newResponse request
        = Returned w →
        head link = Ok {| HeadStatusCode := StatusCode w; HeadStatus := status;
                          HeadHeader := received w |}) →
  ∃ w, DownloadToDst GetFileReader gzip s fs readFault newResponse request
       = Returned w
       ∧ Body w = []
       ∧ HTTPHandler_GetSizeFromURL newRequest head link
         = (Z.of_nat (length content), None).
Proof.
  intros (fp & Hid & Hsf & Hready) Hv2 Hhead Hfile Hlen Hreq Hanswer.
  assert (Hrun : DownloadToDst GetFileReader gzip s fs readFault newResponse request
                 = Returned (Header_Set "Content-Type" "application/octet-stream"
                               (Header_Set "Content-Length"
                                  (FormatInt (Z.of_nat (length content)))
                                  newResponse))).
  { unfold DownloadToDst, mux_Vars_id, lookupSyncFile. rewrite Hid, Hsf.
    rewrite decide_False by (by intros []). rewrite decide_True by done.
    unfold sf_filePath. rewrite Hfile. by rewrite decide_True. }
  eexists. split; [exact Hrun|]. split; [done|].
  unfold HTTPHandler_GetSizeFromURL. rewrite Hreq, (Hanswer _ Hrun).
  simpl HeadStatusCode. rewrite decide_False by (by intros []).
  simpl HeadHeader.
  assert (Hcl : Get_param
                  (received (Header_Set "Content-Type" "application/octet-stream"
                               (Header_Set "Content-Length"
                                  (FormatInt (Z.of_nat (length content)))
                                  newResponse))) "Content-Length"
                = FormatInt (Z.of_nat (length content))).
  { unfold Get_param, received, Header_Set. simpl. rewrite lookup_fmap.
    by simplify_map_eq. }
  rewrite Hcl.
  pose proof (ParseInt_FormatInt (Z.of_nat (length content))) as Hparse.
  rewrite Hparse by lia.
  rewrite decide_False; [done|].
  intros Hempty. rewrite Hempty in Hparse. by specialize (Hparse ltac:(lia)).
Qed.

End SizeProperties.

(** ** Concrete requests and downloads *)

Ltac ready_names :=
  exists "/data/parrot-6846a0b2/backing";
  split; [vm_compute; reflexivity|split; [vm_compute; reflexivity|reflexivity]].

Ltac not_for_v2 :=
  let Hq := fresh in intros Hq; vm_compute in Hq; discriminate Hq.

Lemma wellformed_request_registers_witness :
  ∃ s' t, serve waitOk copyOk EpFetch InitService newResponse request_fetch_4096
          = (newResponse, s', Some t)
    ∧ task_sf t = length (objects InitService)
    ∧ objects s' !! task_sf t
      = Some (NewSyncingFile (Get_param (Query request_fetch_4096) (path_param EpFetch))
                (Get_param (Query request_fetch_4096) "uuid")
                (Get_param (Query request_fetch_4096) "disk-uuid")
                (Get_param (Query request_fetch_4096) "expected-checksum")
                (declared_size EpFetch request_fetch_4096))
    ∧ filePathMap s' !! Get_param (Query request_fetch_4096) (path_param EpFetch)
      = Some (task_sf t)
    ∧ fileUUIDMap s' !! Get_param (Query request_fetch_4096) "uuid" = Some (task_sf t)
    ∧ declared_size EpFetch request_fetch_4096 mod types.DefaultSectorSize = 0.
Proof.
  apply (wellformed_request_registers waitOk copyOk EpFetch InitService
           request_fetch_4096).
  - discriminate.
  - vm_compute. reflexivity.
  - reflexivity.
  - vm_compute. reflexivity.
  - vm_compute. reflexivity.
Defined.

Lemma refused_request_changes_nothing_witness :
  match (serve waitOk copyOk EpFetch one_file newResponse request_size_4097).2 with
  | Some _ =>
      (serve waitOk copyOk EpFetch one_file newResponse request_size_4097).1.1
      = newResponse
  | None =>
      (serve waitOk copyOk EpFetch one_file newResponse request_size_4097).1.2 = one_file
      ∧ StatusCode
          (serve waitOk copyOk EpFetch one_file newResponse request_size_4097).1.1
        = StatusInternalServerError
  end.
Proof.
  apply (refused_request_changes_nothing waitOk copyOk EpFetch one_file
           request_size_4097).
  discriminate.
Defined.

Lemma repeated_request_conflicts_witness :
  serve waitOk copyOk EpFetch
    (serve waitOk copyOk EpFetch InitService newResponse request_fetch_4096).1.2
    newResponse request_fetch_4096
  = (http_Error newResponse
       (ErrFileExists (Get_param (Query request_fetch_4096) (path_param EpFetch)))
       StatusInternalServerError,
     (serve waitOk copyOk EpFetch InitService newResponse request_fetch_4096).1.2,
     None).
Proof.
  apply (repeated_request_conflicts waitOk copyOk EpFetch InitService request_fetch_4096
           newResponse
           (serve waitOk copyOk EpFetch InitService newResponse request_fetch_4096).1.2
           (GoFetch 0%nat "/data/src/backing")).
  - discriminate.
  - vm_compute. reflexivity.
Defined.

Lemma failed_upload_stays_registered_witness :
  filePathMap
    (doUploadFromRequest waitOk copyOk InitService request_upload_no_multipart).1.2
    !! Get_param (Query request_upload_no_multipart) "file-path"
  = Some (length (objects InitService))
  ∧ fileUUIDMap
      (doUploadFromRequest waitOk copyOk InitService request_upload_no_multipart).1.2
      !! Get_param (Query request_upload_no_multipart) "uuid"
    = Some (length (objects InitService))
  ∧ doUploadFromRequest waitOk copyOk
      (doUploadFromRequest waitOk copyOk InitService request_upload_no_multipart).1.2
      request_upload_no_multipart
    = (Some (ErrFileExists (Get_param (Query request_upload_no_multipart) "file-path")),
       (doUploadFromRequest waitOk copyOk InitService request_upload_no_multipart).1.2,
       None).
Proof.
  apply (failed_upload_stays_registered waitOk copyOk InitService
           request_upload_no_multipart
           (ErrEnv "request Content-Type isn't multipart/form-data")
           (doUploadFromRequest waitOk copyOk InitService
              request_upload_no_multipart).1.2
           None).
  - vm_compute. reflexivity.
  - vm_compute. reflexivity.
  - vm_compute. reflexivity.
  - vm_compute. reflexivity.
Defined.

Lemma raw_download_answer_witness :
  ∃ w, DownloadToDst readerOf gzipId one_ready disk_with_file None newResponse
         (request_download "GET" true) = Returned w
    ∧ StatusCode w = StatusOK
    ∧ Header w !! "Content-Length"
      = Some (FormatInt (Z.of_nat (length [x01; x02; x03; x04])))
    ∧ Header w !! "Content-Type" = Some "application/octet-stream"
    ∧ Forall (λ c, ∃ p, c = Bytes p) (Body w)
    ∧ body_bytes (Body w)
      = if decide (Method (request_download "GET" true) = "HEAD") then []
        else [x01; x02; x03; x04].
Proof.
  apply (raw_download_answer readerOf gzipId one_ready disk_with_file
           (request_download "GET" true) ready_file [x01; x02; x03; x04]).
  - ready_names.
  - vm_compute. reflexivity.
  - vm_compute. reflexivity.
Defined.

Lemma raw_download_read_failure_witness :
  ∃ w, DownloadToDst readerOf gzipId one_ready disk_with_file
         (Some (2%nat, ErrEnv "input/output error")) newResponse
         (request_download "GET" true) = Returned w
    ∧ StatusCode w = (if decide (take 2 [x01; x02; x03; x04] = [])
                      then StatusInternalServerError else StatusOK)
    ∧ Body w = (if decide (take 2 [x01; x02; x03; x04] = []) then []
                else [Bytes (take 2 [x01; x02; x03; x04])])
               ++ [ErrorLine (ErrEnv "input/output error")].
Proof.
  apply (raw_download_read_failure readerOf gzipId one_ready disk_with_file
           (request_download "GET" true) ready_file [x01; x02; x03; x04] 2
           (ErrEnv "input/output error")).
  - ready_names.
  - vm_compute. reflexivity.
  - discriminate.
  - vm_compute. reflexivity.
Defined.

Lemma gzip_download_ignores_method_witness :
  DownloadToDst readerOf gzipId one_ready disk_with_file None newResponse
    (with_method "HEAD" (request_download "GET" false))
  = DownloadToDst readerOf gzipId one_ready disk_with_file None newResponse
      (request_download "GET" false).
Proof.
  apply (gzip_download_ignores_method readerOf gzipId one_ready disk_with_file None
           newResponse (request_download "GET" false) "HEAD").
  not_for_v2.
Defined.

Lemma gzip_download_panics_without_slash_witness :
  (occurs "/" (filePath ready_file) = false →
   DownloadToDst readerOf gzipId one_ready disk_with_file None newResponse
     (request_download "GET" false)
   = Panicked "index out of range")
  ∧ (occurs "/" (filePath ready_file) = true →
     ∃ w, DownloadToDst readerOf gzipId one_ready disk_with_file None newResponse
            (request_download "GET" false)
          = Returned w).
Proof.
  apply (gzip_download_panics_without_slash readerOf gzipId one_ready disk_with_file
           None (request_download "GET" false) ready_file).
  - ready_names.
  - not_for_v2.
Defined.

Lemma gzip_download_status_witness :
  ∃ w, DownloadToDst readerOf gzipId one_ready disk_with_file None newResponse
         (request_download "GET" false) = Returned w
    ∧ StatusCode w = StatusOK
    ∧ Body w = [Bytes (gzipId [x01; x02; x03; x04])].
Proof.
  apply (gzip_download_status readerOf gzipId one_ready disk_with_file None
           (request_download "GET" false) ready_file [x01; x02; x03; x04]).
  - ready_names.
  - not_for_v2.
  - vm_compute. reflexivity.
  - vm_compute. reflexivity.
Defined.

Lemma gzip_download_file_name_witness :
  ∃ w, DownloadToDst readerOf gzipId one_ready disk_with_file None newResponse
         (request_download "GET" false) = Returned w
    ∧ Header w !! "Content-Disposition"
      = Some ("attachment; filename=" ++ "parrot" ++ ".gz")%string.
Proof.
  apply (gzip_download_file_name readerOf gzipId one_ready disk_with_file None
           (request_download "GET" false) ready_file [x01; x02; x03; x04]
           "/data" "parrot" "6846a0b2" "backing").
  - ready_names.
  - not_for_v2.
  - vm_compute. reflexivity.
  - reflexivity.
  - reflexivity.
  - reflexivity.
  - reflexivity.
  - reflexivity.
Defined.

Lemma write_zero_never_seeks_witness :
  panicked (IdleTimeoutCopy never body_with_hole (newFile noFaults) true) = false
  ∧ Forall2 (λ data c, ∃ n, c = CallWrite data n)
      (filter (λ data, data ≠ [])
         (fst <$> reads (IdleTimeoutCopy never body_with_hole (newFile noFaults) true)))
      (calls (IdleTimeoutCopy never body_with_hole (newFile noFaults) true)).
Proof.
  apply (write_zero_never_seeks never body_with_hole (newFile noFaults)).
  repeat (apply Forall_cons_2; [apply Nat.leb_le; vm_compute; reflexivity|]).
  apply Forall_nil_2.
Defined.

Lemma pump_success_reaches_eof_witness :
  ∃ before data,
    reads (IdleTimeoutCopy never body_with_hole (newFile noFaults) false)
    = before ++ [(data, Some ErrEOF)].
Proof.
  apply (pump_success_reaches_eof false never body_with_hole (newFile noFaults)).
  - vm_compute. reflexivity.
  - vm_compute. reflexivity.
Defined.

Lemma pump_stops_reading_when_cancelled_witness :
  (length (reads (IdleTimeoutCopy (cancelled_from 1) body_with_hole (newFile noFaults)
                    false)) ≤ 1)%nat.
Proof.
  apply (pump_stops_reading_when_cancelled false (cancelled_from 1) body_with_hole
           (newFile noFaults) 1).
  intros i Hi. apply Nat.leb_le. exact Hi.
Defined.

Lemma clean_download_succeeds_witness :
  ∃ prog, HTTPHandler_DownloadFromURL (origin body_with_hole) noFaults never
            {[ "/data/a/backing" := [xff; xff; xff; xff; xff; xff; xff; xff] ]}
            "http://origin/image" "/data/a/backing"
          = Returned (Z.of_nat (length (concat (fst <$> consumed body_with_hole))),
                      None,
                      <["/data/a/backing" := concat (fst <$> consumed body_with_hole)]>
                        {[ "/data/a/backing" := [xff; xff; xff; xff; xff; xff; xff; xff] ]},
                      prog)
    ∧ sum_counts prog = Z.of_nat (length (concat (fst <$> consumed body_with_hole))).
Proof.
  apply (clean_download_succeeds (origin body_with_hole) noFaults never
           {[ "/data/a/backing" := [xff; xff; xff; xff; xff; xff; xff; xff] ]}
           "http://origin/image" "/data/a/backing"
           {| RespStatusCode := 200; RespStatus := "200 OK";
              RespBody := body_with_hole |}).
  - repeat split.
  - intros i. reflexivity.
  - reflexivity.
  - intros i. reflexivity.
  - repeat (apply Forall_cons_2;
              [split; [apply Nat.leb_le; vm_compute; reflexivity
                      |first [left; reflexivity|right; reflexivity]]|]).
    apply Forall_nil_2.
  - vm_compute. reflexivity.
Defined.

Lemma get_size_result_witness :
  ((None : option error) ≠ None → 4096 = 0)
  ∧ ((None : option error) = None →
     - 2 ^ 63 ≤ 4096 < 2 ^ 63
     ∧ ∃ resp, (λ _ : string, None : option error) "http://origin/image" = None
         ∧ head_4096 "http://origin/image" = Ok resp
         ∧ HeadStatusCode resp = StatusOK
         ∧ if decide (Get_param (HeadHeader resp) "Content-Length" = "")
           then 4096 = -1
           else strconv.ParseInt (Get_param (HeadHeader resp) "Content-Length")
                = Ok 4096).
Proof.
  apply (get_size_result (λ _, None) head_4096 "http://origin/image" 4096 None).
  vm_compute. reflexivity.
Defined.

Lemma mock_download_succeeds_witness :
  ∃ data prog,
    MockHandler_DownloadFromURL noFaults never ∅ "http://origin/image" "/data/a/backing"
    = ((MockHandler_GetSizeFromURL "http://origin/image").1, None,
       <["/data/a/backing" := data]> ∅, prog)
    ∧ data = replicate (Z.to_nat MockFileSize) x00
    ∧ prog = replicate 256 16
    ∧ sum_counts prog = MockFileSize.
Proof.
  apply (mock_download_succeeds noFaults never ∅ "http://origin/image"
           "/data/a/backing").
  - reflexivity.
  - reflexivity.
  - intros i Hi. reflexivity.
Defined.

Lemma mock_download_cancelled_witness :
  MockHandler_DownloadFromURL noFaults (cancelled_from 3) ∅ "http://origin/image"
    "/data/a/backing"
  = (0, Some (Errorf "cancelled mock processing"),
     <["/data/a/backing" := replicate (Z.to_nat MockFileSize) x00]> ∅,
     replicate (3 - 1) 16).
Proof.
  apply (mock_download_cancelled noFaults (cancelled_from 3) ∅ "http://origin/image"
           "/data/a/backing" 3).
  - reflexivity.
  - reflexivity.
  - lia.
  - intros i Hi. apply Nat.leb_gt. lia.
  - reflexivity.
Defined.

Lemma cleaned_up_then_not_found_witness :
  (Delete one_file ∅ newResponse (request_on "DELETE" "%2Fdata%2Fa%2Fbacking")).1.1
  = newResponse
  ∧ (Forget one_file ∅ newResponse (request_on "DELETE" "%2Fdata%2Fa%2Fbacking")).1.1
    = newResponse
  ∧ StatusCode
      (Get (Delete one_file ∅ newResponse
              (request_on "DELETE" "%2Fdata%2Fa%2Fbacking")).1.2
         newResponse (request_on "DELETE" "%2Fdata%2Fa%2Fbacking"))
    = StatusNotFound
  ∧ StatusCode
      (Get (Forget one_file ∅ newResponse
              (request_on "DELETE" "%2Fdata%2Fa%2Fbacking")).1.2
         newResponse (request_on "DELETE" "%2Fdata%2Fa%2Fbacking"))
    = StatusNotFound
  ∧ (Forget one_file ∅ newResponse (request_on "DELETE" "%2Fdata%2Fa%2Fbacking")).2
    = ∅
  ∧ (∀ sf, lookupSyncFile one_file "/data/a/backing" = Some sf →
           (Delete one_file ∅ newResponse
              (request_on "DELETE" "%2Fdata%2Fa%2Fbacking")).2 !! sf_filePath sf
           = None).
Proof.
  apply (cleaned_up_then_not_found one_file ∅ newResponse
           (request_on "DELETE" "%2Fdata%2Fa%2Fbacking") "/data/a/backing").
  vm_compute. reflexivity.
Defined.

Lemma registered_then_found_witness :
  StatusCode
    (Get (checkAndInitSyncFile InitService "/data/a/backing" "u1" "disk" "" 4096).2
       newResponse (request_on "GET" "%2Fdata%2Fa%2Fbacking")) = StatusOK
  ∧ Body
      (Get (checkAndInitSyncFile InitService "/data/a/backing" "u1" "disk" "" 4096).2
         newResponse (request_on "GET" "%2Fdata%2Fa%2Fbacking"))
    = [Json (NewSyncingFile "/data/a/backing" "u1" "disk" "" 4096)].
Proof.
  apply (registered_then_found InitService "/data/a/backing" "u1" "disk" "" 4096
           (request_on "GET" "%2Fdata%2Fa%2Fbacking")).
  - vm_compute. reflexivity.
  - vm_compute. reflexivity.
  - vm_compute. reflexivity.
Defined.

Lemma advertised_size_read_back_witness :
  ∃ w, DownloadToDst readerOf gzipId one_ready disk_with_file None newResponse
         (request_download "HEAD" true)
       = Returned w
       ∧ Body w = []
       ∧ HTTPHandler_GetSizeFromURL (λ _, None)
           (peer_head (DownloadToDst readerOf gzipId one_ready disk_with_file None
                         newResponse (request_download "HEAD" true)))
           "http://peer/v1/files/id/download"
         = (Z.of_nat (length [x01; x02; x03; x04]), None).
Proof.
  apply (advertised_size_read_back readerOf gzipId one_ready disk_with_file None
           (request_download "HEAD" true) ready_file [x01; x02; x03; x04]
           (λ _, None)
           (peer_head (DownloadToDst readerOf gzipId one_ready disk_with_file None
                         newResponse (request_download "HEAD" true)))
           "http://peer/v1/files/id/download" "200 OK").
  - ready_names.
  - vm_compute. reflexivity.
  - reflexivity.
  - vm_compute. reflexivity.
  - vm_compute. reflexivity.
  - reflexivity.
  - intros w Hw. unfold peer_head. rewrite Hw. reflexivity.
Defined.
